(** * Front-panel controller: serial framing, button edges, LED registers

    A shallow embedding of the hardware interface layer of the display
    daemon: the serial link wrapper ([internal/serial]), the display
    controller's frame reassembly and button edge detection
    ([internal/controller/display_controller.go]), the LED register driver,
    the system controller's disk-activity entry point and the USB-copy
    button monitor.

    Bytes are integers (type [Z]) in the range 0..255; Go maps are finite
    maps ([gmap]); the calls a function makes to the outside world (handler
    dispatch, sleeps, port accesses) are recorded in an explicit log carried
    by the state, so that "emits nothing" and "performs no port access" are
    statements about that log. *)

From Stdlib Require Import ZArith List Bool Lia String Ascii.
From stdpp Require Import gmap list.
Import ListNotations.

Local Open Scope Z_scope.

(** ** Errors

    Go [error] values, as a small inductive type: one constructor per
    [fmt.Errorf] site of the embedded functions, wrapping ([%w]) kept as a
    sub-term. *)

Inductive error : Type :=
| ErrMsg (msg : string)                      (* an error of the OS or of a library *)
| ErrSerialNotInitialized                    (* "serial port not initialized" *)
| ErrSerialWrite (cause : error)             (* "failed to write to serial port: %w" *)
| ErrIncompleteWrite (wrote total : nat)     (* "incomplete write: wrote %d of %d bytes" *)
| ErrInvalidRow (row : Z)                    (* "invalid row: %d. Must be 0 or 1" *)
| ErrUnknownLED (led : Z)                    (* "unknown LED: %v" *)
| ErrReadPort (register : Z) (cause : error) (* "failed to read port 0x%x: %w" *)
| ErrWritePort (register : Z) (cause : error)(* "failed to write port 0x%x: %w" *)
| ErrDevPort (port : Z)                      (* open, seek, read or write on /dev/port failed *)
| ErrInvalidDisk (diskNum : Z)               (* "invalid disk number: %d (must be 1-6)" *)
| ErrSetDiskLED (diskNum : Z) (cause : error)(* "failed to set disk %d LED: %w" *)
| ErrMonitorClosed                           (* "monitor is closed" *)
| ErrReadIOPort (cause : error).             (* "failed to read I/O port: %w" *)

(** The [fmt.Errorf] sites of the display controller that wrap ([%w]) the
    error of a line write or of the serial link. *)
Inductive derror : Type :=
| ErrWriteLine (line : Z) (cause : error)      (* "failed to write line %d: %w" *)
| ErrClearLine (line : Z) (cause : error)      (* "failed to clear line %d: %w" *)
| ErrSetBacklight (cause : error)              (* "failed to set backlight: %w" *)
| ErrRequestButtonState (cause : error)        (* "failed to request button state: %w" *)
| ErrShowProgress (cause : error).             (* "failed to show progress on display: %w" *)

(** ** internal/serial/serial_port.go *)

Module Serial.

(** What one [Read] of the driver delivers: the bytes that arrived and the
    error it reports (its message), if any. The driver may report an error
    together with bytes. *)
Record ReadResult : Type := mkRead {
  rd_data : list Z;
  rd_err : option string
}.

(** What one [Write] of the driver reports: the count and the error. *)
Record WriteResult : Type := mkWrite {
  wr_n : nat;
  wr_err : option string
}.

(** The open device behind [sp.port], seen from the program: the outcomes
    of the calls to come, and the bytes the device has accepted so far. *)
Record Port : Type := mkPort {
  reads : list ReadResult;
  writes : list WriteResult;
  sent : list Z
}.

(** [SerialPort]; [port] is [None] for a nil [sp.port]. *)
Record SerialPort : Type := mkSerialPort {
  port : option Port
}.

(** The driver's [Read(buffer)]: copies at most [len(buffer)] of the
    arrived bytes to the front of [buffer] and returns their number. With
    nothing scheduled the read returns [0, nil]. *)
Definition port_Read (p : Port) (buffer : list Z)
    : (list Z * nat * option string) * Port :=
  match reads p with
  | [] => ((buffer, 0%nat, None), p)
  | r :: rs =>
      let n := Nat.min (length (rd_data r)) (length buffer) in
      ((firstn n (rd_data r) ++ skipn n buffer, n, rd_err r),
       {| reads := rs; writes := writes p; sent := sent p |})
  end.

(** The driver's [Write(data)]: the device accepts the first [n] bytes.
    With nothing scheduled the whole of [data] is accepted. *)
Definition port_Write (p : Port) (data : list Z)
    : (nat * option string) * Port :=
  match writes p with
  | [] => ((length data, None),
           {| reads := reads p; writes := []; sent := sent p ++ data |})
  | w :: ws =>
      let n := Nat.min (wr_n w) (length data) in
      ((n, wr_err w),
       {| reads := reads p; writes := ws; sent := sent p ++ firstn n data |})
  end.

Definition Write (sp : SerialPort) (data : list Z)
    : option error * SerialPort :=
  match port sp with
  | None => (Some ErrSerialNotInitialized, sp)
  | Some p =>
      let '((n, err), p) := port_Write p data in
      let sp := {| port := Some p |} in
      match err with
      | Some e => (Some (ErrSerialWrite (ErrMsg e)), sp)
      | None =>
          if negb (n =? length data)%nat
          then (Some (ErrIncompleteWrite n (length data)), sp)
          else (None, sp)
      end
  end.

(** The part of [ReadAvailable] after the driver's [Read] returned
    [n, err] and left [buffer]. *)
Definition ReadAvailable_after (buffer : list Z) (n : nat)
    (err : option string) : list Z * option error :=
  match err with
  | Some errMsg =>
      if String.eqb errMsg "timeout" || String.eqb errMsg "EOF"
         || String.eqb errMsg "resource temporarily unavailable"
      then ([], None)
      else ([], None)
  | None =>
      if (n =? 0)%nat then ([], None)
      else (firstn n buffer, None)
  end.

Definition ReadAvailable (sp : SerialPort)
    : (list Z * option error) * SerialPort :=
  match port sp with
  | None => (([], None), sp)
  | Some p =>
      let buffer := repeat 0 256 in
      let '((buffer, n, err), p) := port_Read p buffer in
      (ReadAvailable_after buffer n err, {| port := Some p |})
  end.

(** *** MockSerialPort *)

Module Mock.

Record MockSerialPort : Type := mkMock {
  writeBuffer : list Z;
  readBuffer : list Z;
  readIndex : nat;
  writeError : option error;
  readError : option error;
  closed : bool
}.

Definition NewMockSerialPort : MockSerialPort :=
  {| writeBuffer := []; readBuffer := []; readIndex := 0%nat;
     writeError := None; readError := None; closed := false |}.

Definition SetReadData (data : list Z) (msp : MockSerialPort) : MockSerialPort :=
  {| writeBuffer := writeBuffer msp; readBuffer := data; readIndex := 0%nat;
     writeError := writeError msp; readError := readError msp;
     closed := closed msp |}.

Definition SetWriteError (err : option error) (msp : MockSerialPort) : MockSerialPort :=
  {| writeBuffer := writeBuffer msp; readBuffer := readBuffer msp;
     readIndex := readIndex msp;
     writeError := err; readError := readError msp; closed := closed msp |}.

Definition SetReadError (err : option error) (msp : MockSerialPort) : MockSerialPort :=
  {| writeBuffer := writeBuffer msp; readBuffer := readBuffer msp;
     readIndex := readIndex msp;
     writeError := writeError msp; readError := err; closed := closed msp |}.

Definition with_writeBuffer (w : list Z) (msp : MockSerialPort) : MockSerialPort :=
  {| writeBuffer := w; readBuffer := readBuffer msp; readIndex := readIndex msp;
     writeError := writeError msp; readError := readError msp;
     closed := closed msp |}.

Definition with_readIndex (i : nat) (msp : MockSerialPort) : MockSerialPort :=
  {| writeBuffer := writeBuffer msp; readBuffer := readBuffer msp; readIndex := i;
     writeError := writeError msp; readError := readError msp;
     closed := closed msp |}.

Definition port_closed : error := ErrMsg "serial port is closed".

Definition Write (msp : MockSerialPort) (data : list Z)
    : option error * MockSerialPort :=
  if closed msp then (Some port_closed, msp)
  else match writeError msp with
       | Some e => (Some e, msp)
       | None => (None, with_writeBuffer (writeBuffer msp ++ data) msp)
       end.

(** [Read(buffer)]: the buffer after the call, the count, the error. The
    index never passes the end of [readBuffer] ([Read_index_bound]), so
    [available] is not negative. *)
Definition Read (msp : MockSerialPort) (buffer : list Z)
    : (list Z * nat * option error) * MockSerialPort :=
  if closed msp then ((buffer, 0%nat, Some port_closed), msp)
  else match readError msp with
       | Some e => ((buffer, 0%nat, Some e), msp)
       | None =>
           let available := (length (readBuffer msp) - readIndex msp)%nat in
           if (available =? 0)%nat then ((buffer, 0%nat, None), msp)
           else
             let n := length buffer in
             let n := if (available <? n)%nat then available else n in
             let chunk := firstn n (skipn (readIndex msp) (readBuffer msp)) in
             ((chunk ++ skipn n buffer, n, None),
              with_readIndex (readIndex msp + n) msp)
       end.

(** A nil slice and an empty one are both [[]]. *)
Definition ReadAvailable (msp : MockSerialPort)
    : (list Z * option error) * MockSerialPort :=
  if closed msp then (([], Some port_closed), msp)
  else match readError msp with
       | Some e => (([], Some e), msp)
       | None =>
           let available := (length (readBuffer msp) - readIndex msp)%nat in
           if (available =? 0)%nat then (([], None), msp)
           else
             ((skipn (readIndex msp) (readBuffer msp), None),
              with_readIndex (length (readBuffer msp)) msp)
       end.

Definition IsConnected (msp : MockSerialPort) : bool := negb (closed msp).

Definition Close (msp : MockSerialPort) : option error * MockSerialPort :=
  (None,
   {| writeBuffer := writeBuffer msp; readBuffer := readBuffer msp;
      readIndex := readIndex msp;
      writeError := writeError msp; readError := readError msp;
      closed := true |}).

Definition GetWrittenData (msp : MockSerialPort) : list Z := writeBuffer msp.

Definition ClearWrittenData (msp : MockSerialPort) : MockSerialPort :=
  with_writeBuffer (firstn 0 (writeBuffer msp)) msp.

End Mock.

End Serial.

(** ** internal/controller/display_controller.go *)

Module Display.

(** [type PanelButton int] with its three [iota] constants. *)
Abbreviation PanelButton := Z (only parsing).
Definition ButtonEnter : PanelButton := 0.
Definition ButtonSelect : PanelButton := 1.
Definition ButtonUSBCopy : PanelButton := 2.

(** What the controller does to the outside world. *)
Inductive Effect : Type :=
| EParse (state : Z)                           (* parseButtonState entered *)
| ETrigger (button : PanelButton) (pressed : bool)  (* triggerButtonEvent entered *)
| EDispatch (button : PanelButton) (pressed : bool) (* handler goroutine started *)
| ESleep (ms : Z).                             (* time.Sleep *)

(** [DisplayController]: the serial link, whether a handler is registered
    ([buttonHandler != nil]), the last recorded state of each button, and
    the log of effects. *)
Record DisplayController : Type := mkDC {
  serialPort : Serial.SerialPort;
  buttonHandler : bool;
  lastButtonState : gmap Z bool;
  effects : list Effect
}.

(** The controller as [NewDisplayController] builds it on [sp]:
    [lastButtonState: make(map[PanelButton]bool)], no handler yet. *)
Definition fresh (sp : Serial.SerialPort) : DisplayController :=
  {| serialPort := sp; buttonHandler := false;
     lastButtonState := ∅; effects := [] |}.

Definition with_serialPort (sp : Serial.SerialPort) (dc : DisplayController)
    : DisplayController :=
  {| serialPort := sp; buttonHandler := buttonHandler dc;
     lastButtonState := lastButtonState dc; effects := effects dc |}.

Definition with_lastButtonState (m : gmap Z bool) (dc : DisplayController)
    : DisplayController :=
  {| serialPort := serialPort dc; buttonHandler := buttonHandler dc;
     lastButtonState := m; effects := effects dc |}.

Definition SetButtonHandler (dc : DisplayController) : DisplayController :=
  {| serialPort := serialPort dc; buttonHandler := true;
     lastButtonState := lastButtonState dc; effects := effects dc |}.

Definition log (e : Effect) (dc : DisplayController) : DisplayController :=
  {| serialPort := serialPort dc; buttonHandler := buttonHandler dc;
     lastButtonState := lastButtonState dc; effects := effects dc ++ [e] |}.

(** [[]byte(text)]: the bytes of a Go string. *)
Definition bytes_of_string (text : string) : list Z :=
  map (fun c => Z.of_N (N_of_ascii c)) (list_ascii_of_string text).

Definition LCD_CHARS_PER_LINE : nat := 16.

(** [for len(displayText) < LCD_CHARS_PER_LINE { displayText += " " }].
    Each turn adds one byte, so [LCD_CHARS_PER_LINE] turns are enough
    ([pad_loop_done]). *)
Fixpoint pad_loop (turns : nat) (displayText : string) : string :=
  match turns with
  | O => displayText
  | S turns =>
      if (String.length displayText <? LCD_CHARS_PER_LINE)%nat
      then pad_loop turns (String.append displayText " ")
      else displayText
  end.

(** The command [WriteTextAt] builds for a valid row. *)
Definition WriteTextAt_command (text : string) (row : Z) : list Z :=
  let displayText := text in
  let displayText :=
    if (LCD_CHARS_PER_LINE <? String.length displayText)%nat
    then String.substring 0 LCD_CHARS_PER_LINE displayText
    else displayText in
  let displayText := pad_loop LCD_CHARS_PER_LINE displayText in
  [0x4D; 0x0C; row mod 256; 0x10] ++ bytes_of_string displayText.

Definition WriteTextAt (text : string) (row col : Z) (dc : DisplayController)
    : option error * DisplayController :=
  if (row <? 0) || (1 <? row) then (Some (ErrInvalidRow row), dc)
  else
    let command := WriteTextAt_command text row in
    let '(err, sp) := Serial.Write (serialPort dc) command in
    (err, with_serialPort sp dc).

Definition triggerButtonEvent (button : PanelButton) (pressed : bool)
    (dc : DisplayController) : DisplayController :=
  let dc := log (ETrigger button pressed) dc in
  if buttonHandler dc then log (EDispatch button pressed) dc else dc.

Definition checkButtonStateChange (button : PanelButton) (pressed : bool)
    (dc : DisplayController) : bool * DisplayController :=
  let '(lastState, exists_) :=
    match lastButtonState dc !! button with
    | Some v => (v, true)
    | None => (false, false)
    end in
  if negb exists_ || negb (Bool.eqb lastState pressed) then
    (true, with_lastButtonState (<[button := pressed]> (lastButtonState dc)) dc)
  else (false, dc).

Definition buttonEnterBit : Z := 0x01.
Definition buttonSelectBit : Z := 0x02.
Definition buttonUSBCopyBit : Z := 0x04.

Definition enterPressed (state : Z) : bool := Z.land state buttonEnterBit =? 0.
Definition selectPressed (state : Z) : bool := Z.land state buttonSelectBit =? 0.
Definition usbCopyPressed (state : Z) : bool :=
  negb (Z.land state buttonUSBCopyBit =? 0).

(** One [if dc.checkButtonStateChange(b, p) { dc.triggerButtonEvent(b, p) }]. *)
Definition checkAndTrigger (button : PanelButton) (pressed : bool)
    (dc : DisplayController) : DisplayController :=
  let '(changed, dc) := checkButtonStateChange button pressed dc in
  if changed then triggerButtonEvent button pressed dc else dc.

Definition parseButtonState (state : Z) (dc : DisplayController)
    : DisplayController :=
  let dc := log (EParse state) dc in
  let dc := checkAndTrigger ButtonEnter (enterPressed state) dc in
  let dc := checkAndTrigger ButtonSelect (selectPressed state) dc in
  checkAndTrigger ButtonUSBCopy (usbCopyPressed state) dc.
Arguments parseButtonState : simpl never.

(** The loop of [processMessageBuffer]. Every turn re-slices the buffer
    to one of its own tails ([[4:]], [[3:]], [[2:]] or [[1:]]), so the
    loop is a structural recursion on the buffer. The result is the
    buffer left behind and the controller. *)
Fixpoint processMessageBuffer (buffer : list Z) (dc : DisplayController)
    : list Z * DisplayController :=
  match buffer with
  | b0 :: ((b1 :: ((b2 :: ((b3 :: rest4) as rest3)) as rest2)) as rest1) =>
      if (b0 =? 0x53) && (b1 =? 0x05) && (b2 =? 0x00) then
        processMessageBuffer rest4 (parseButtonState b3 dc)
      else if (b0 =? 0x4D) && (3 <=? length buffer)%nat then
        processMessageBuffer rest3 dc
      else if ((b0 =? 0x55) || (b0 =? 0x43)) && (2 <=? length buffer)%nat then
        let dc := triggerButtonEvent ButtonUSBCopy true dc in
        let dc := log (ESleep 100) dc in
        let dc := triggerButtonEvent ButtonUSBCopy false dc in
        processMessageBuffer rest2 dc
      else if (16 <? length rest1)%nat then
        ([], dc)
      else
        processMessageBuffer rest1 dc
  | _ => (buffer, dc)
  end.

(** The events handed to [triggerButtonEvent], in order. *)
Definition emitted (l : list Effect) : list (Z * bool) :=
  flat_map (fun e => match e with
                     | ETrigger b p => [(b, p)]
                     | _ => []
                     end) l.

(** The bytes [parseButtonState] was called with, in order. *)
Definition parsed (l : list Effect) : list Z :=
  flat_map (fun e => match e with
                     | EParse s => [s]
                     | _ => []
                     end) l.

(** The frame [0x53 0x05 0x00 s]. *)
Definition button_frame (s : Z) : list Z := [0x53; 0x05; 0x00; s].

(** One turn of the [default] branch of the loop of [monitorButtons]: a
    non-blocking read, and frame extraction when bytes arrived. *)
Definition monitorButtons_poll (messageBuffer : list Z) (dc : DisplayController)
    : list Z * DisplayController :=
  let '((data, err), sp) := Serial.ReadAvailable (serialPort dc) in
  let dc := with_serialPort sp dc in
  match err with
  | Some _ => (messageBuffer, log (ESleep 50) dc)
  | None =>
      if (length data =? 0)%nat then (messageBuffer, log (ESleep 50) dc)
      else
        let messageBuffer := messageBuffer ++ data in
        let '(messageBuffer, dc) := processMessageBuffer messageBuffer dc in
        (messageBuffer, log (ESleep 10) dc)
  end.

(** ** Vocabulary of the statements about button frames *)

(** Whether [checkButtonStateChange] reports a change: the button has no
    recorded state, or a different one. *)
Definition changed (m : gmap Z bool) (b : Z) (p : bool) : bool :=
  match m !! b with
  | Some v => negb (Bool.eqb v p)
  | None => true
  end.

(** The map [parseButtonState] leaves behind. *)
Definition recorded (s : Z) (m : gmap Z bool) : gmap Z bool :=
  <[ButtonUSBCopy := usbCopyPressed s]>
    (<[ButtonSelect := selectPressed s]>
       (<[ButtonEnter := enterPressed s]> m)).

(** The recorded states are the ones byte [s] decodes to. *)
Definition records (s : Z) (m : gmap Z bool) : Prop :=
  m !! ButtonEnter = Some (enterPressed s) /\
  m !! ButtonSelect = Some (selectPressed s) /\
  m !! ButtonUSBCopy = Some (usbCopyPressed s).

(** The events of one [parseButtonState]: one per button whose decoded
    value is not the recorded one, in the order ENTER, SELECT, USB_COPY. *)
Definition events_of (s : Z) (m : gmap Z bool) : list (Z * bool) :=
  (if changed m ButtonEnter (enterPressed s)
   then [(ButtonEnter, enterPressed s)] else []) ++
  (if changed m ButtonSelect (selectPressed s)
   then [(ButtonSelect, selectPressed s)] else []) ++
  (if changed m ButtonUSBCopy (usbCopyPressed s)
   then [(ButtonUSBCopy, usbCopyPressed s)] else []).

(** The buffer starts with something [processMessageBuffer] recognizes:
    a button frame, a controller echo or a copy indicator. *)
Definition recognized_head (buffer : list Z) : bool :=
  match buffer with
  | b0 :: b1 :: b2 :: _ =>
      ((b0 =? 0x53) && (b1 =? 0x05) && (b2 =? 0x00))
      || (b0 =? 0x4D) || (b0 =? 0x55) || (b0 =? 0x43)
  | _ => false
  end.

(** A byte that starts none of the recognized messages. *)
Definition noise (b : Z) : Prop :=
  b <> 0x53 /\ b <> 0x4D /\ b <> 0x55 /\ b <> 0x43.

(** An open serial link with nothing scheduled and nothing sent. *)
Definition idle_link : Serial.SerialPort :=
  Serial.mkSerialPort (Some (Serial.mkPort [] [] [])).

(** A text cut to 16 bytes and filled up with spaces to 16 bytes. *)
Definition truncated_padded (text : string) : list Z :=
  firstn 16 (bytes_of_string text ++ repeat 0x20 16).

(** ** The other writes of the display controller *)

(** The string ["\n"]. *)
Definition newline : string := String "010"%char EmptyString.

(** [strings.Split(text, "\n")]: the pieces between the newlines, one more
    than there are newlines. *)
Fixpoint split_lines (text : string) : list string :=
  match text with
  | EmptyString => [EmptyString]
  | String c rest =>
      if Ascii.eqb c "010"%char then EmptyString :: split_lines rest
      else match split_lines rest with
           | [] => [String c EmptyString]
           | line :: lines => String c line :: lines
           end
  end.

(** [if len(displayLines[i]) > 16 { displayLines[i] = displayLines[i][:16] }]. *)
Definition truncate_line (line : string) : string :=
  if (16 <? String.length line)%nat then String.substring 0 16 line else line.

(** [for i, line := range displayLines] of [WriteText], from line [i] on. *)
Fixpoint WriteText_loop (i : Z) (displayLines : list string)
    (dc : DisplayController) : option derror * DisplayController :=
  match displayLines with
  | [] => (None, dc)
  | line :: displayLines =>
      let '(err, dc) := WriteTextAt line i 0 dc in
      match err with
      | Some e => (Some (ErrWriteLine i e), dc)
      | None => WriteText_loop (i + 1) displayLines dc
      end
  end.

Definition WriteText (text : string) (dc : DisplayController)
    : option derror * DisplayController :=
  let lines := split_lines text in
  let line0 := if (1 <=? length lines)%nat then nth 0 lines EmptyString
               else EmptyString in
  let line1 := if (2 <=? length lines)%nat then nth 1 lines EmptyString
               else EmptyString in
  let displayLines := map truncate_line [line0; line1] in
  WriteText_loop 0 displayLines dc.

Definition ClearDisplay (dc : DisplayController)
    : option derror * DisplayController :=
  let '(err, dc) := WriteTextAt "" 0 0 dc in
  match err with
  | Some e => (Some (ErrClearLine 0 e), dc)
  | None =>
      let '(err, dc) := WriteTextAt "" 1 0 dc in
      match err with
      | Some e => (Some (ErrClearLine 1 e), dc)
      | None => (None, dc)
      end
  end.

Definition SetBacklight (on : bool) (dc : DisplayController)
    : option derror * DisplayController :=
  let cmd := if on then [0x4D; 0x5E; 0x01] else [0x4D; 0x5E; 0x00] in
  let '(err, sp) := Serial.Write (serialPort dc) cmd in
  let dc := with_serialPort sp dc in
  match err with
  | Some e => (Some (ErrSetBacklight e), dc)
  | None => (None, dc)
  end.

Definition ShowCopyStatus (status : string) (dc : DisplayController)
    : option error * DisplayController :=
  let '(err, dc) := WriteTextAt "USB Copy" 0 0 dc in
  match err with
  | Some e => (Some e, dc)
  | None =>
      let '(err, dc) := WriteTextAt status 1 0 dc in
      match err with
      | Some e => (Some e, dc)
      | None => (None, dc)
      end
  end.

Definition barWidth : Z := 14.

(** [for i := 0; i < barWidth; i++ { ... }] of [ShowProgress], from [i]
    on, for at most [turns] turns. *)
Fixpoint progress_loop (turns : nat) (i filled : Z) (progressBar : string)
    : string :=
  match turns with
  | O => progressBar
  | S turns =>
      if i <? barWidth then
        let progressBar :=
          if i <? filled then String.append progressBar "="
          else String.append progressBar " " in
        progress_loop turns (i + 1) filled progressBar
      else progressBar
  end.

(** The bar [ShowProgress] draws. *)
Definition progress_bar (percent : Z) : string :=
  let percent := if percent <? 0 then 0 else percent in
  let percent := if 100 <? percent then 100 else percent in
  let filled := Z.quot (percent * barWidth) 100 in
  let progressBar := "["%string in
  let progressBar := progress_loop (Z.to_nat barWidth) 0 filled progressBar in
  String.append progressBar "]".

Definition ShowProgress (percent : Z) (dc : DisplayController)
    : option error * DisplayController :=
  let progressBar := progress_bar percent in
  let '(err, dc) := WriteTextAt progressBar 1 0 dc in
  match err with
  | Some e => (Some e, dc)
  | None => (None, dc)
  end.

Definition RequestButtonState (dc : DisplayController)
    : option derror * DisplayController :=
  let buttonStateRequestCmd := [0x4D; 0x05] in
  let '(err, sp) := Serial.Write (serialPort dc) buttonStateRequestCmd in
  let dc := with_serialPort sp dc in
  match err with
  | Some e => (Some (ErrRequestButtonState e), dc)
  | None => (None, dc)
  end.

(** [initializeDisplay], with [dc.config.Display.DefaultText] as
    [defaultText]. The errors of its writes are logged and dropped. *)
Definition initializeDisplay (defaultText : string) (dc : DisplayController)
    : option error * DisplayController :=
  let buttonStateCmd := [0x4D; 0x06] in
  let '(_, sp) := Serial.Write (serialPort dc) buttonStateCmd in
  let dc := with_serialPort sp dc in
  let dc := log (ESleep 100) dc in
  let '(_, dc) := SetBacklight true dc in
  let '(_, dc) := WriteTextAt "" 0 0 dc in
  let '(_, dc) := WriteTextAt "" 1 0 dc in
  let '(_, dc) :=
    if negb (String.eqb defaultText "") then WriteText defaultText dc
    else WriteText (String.append "QNAP Display" (String.append newline "Ready")) dc in
  (None, dc).

(** One turn of the ticker branch of the loop of [monitorButtons]. *)
Definition monitorButtons_tick (dc : DisplayController) : DisplayController :=
  snd (RequestButtonState dc).

(** The handler goroutines started, in order. *)
Definition dispatched (l : list Effect) : list (Z * bool) :=
  flat_map (fun e => match e with
                     | EDispatch b p => [(b, p)]
                     | _ => []
                     end) l.

(** The bytes a link has sent; none for a nil port. *)
Definition sent_bytes (sp : Serial.SerialPort) : list Z :=
  match Serial.port sp with
  | Some p => Serial.sent p
  | None => []
  end.

(** An open link whose driver takes every write whole. *)
Definition takes_writes (sp : Serial.SerialPort) : Prop :=
  exists p, Serial.port sp = Some p /\ Serial.writes p = [].

(** The command of a line write: the header and the 16 bytes. *)
Definition line_command (row : Z) (text : string) : list Z :=
  [0x4D; 0x0C; row; 0x10] ++ truncated_padded text.

(** A string without a newline. *)
Fixpoint no_newline (text : string) : bool :=
  match text with
  | EmptyString => true
  | String c rest => negb (Ascii.eqb c "010"%char) && no_newline rest
  end.

(** The lines, a newline between each two. *)
Fixpoint join_lines (lines : list string) : string :=
  match lines with
  | [] => EmptyString
  | [line] => line
  | line :: lines => String.append line (String.append newline (join_lines lines))
  end.

(** [dc'] is [dc] some effects later: the same link and handler, the log
    of [dc] with [l] appended, and in [l] a handler goroutine for every
    event when a handler is registered, none otherwise. *)
Definition continues (dc dc' : DisplayController) (l : list Effect) : Prop :=
  serialPort dc' = serialPort dc
  /\ buttonHandler dc' = buttonHandler dc
  /\ effects dc' = effects dc ++ l
  /\ dispatched l = (if buttonHandler dc then emitted l else []).

(** The events of a frame [s'] that follows a frame [s]: one for each of
    the three button bits in which the bytes differ. *)
Definition edge_events (s s' : Z) : list (Z * bool) :=
  (if Bool.eqb (Z.testbit s 0) (Z.testbit s' 0) then []
   else [(ButtonEnter, negb (Z.testbit s' 0))]) ++
  (if Bool.eqb (Z.testbit s 1) (Z.testbit s' 1) then []
   else [(ButtonSelect, negb (Z.testbit s' 1))]) ++
  (if Bool.eqb (Z.testbit s 2) (Z.testbit s' 2) then []
   else [(ButtonUSBCopy, Z.testbit s' 2)]).

(** From [dc] to [dc'] the link has sent [bytes] more, and takes
    writes. *)
Definition sends (dc dc' : DisplayController) (bytes : list Z) : Prop :=
  takes_writes (serialPort dc')
  /\ sent_bytes (serialPort dc') = sent_bytes (serialPort dc) ++ bytes.

(** The percentage [ShowProgress] draws: [percent] held to 0..100. *)
Definition clamp_percent (percent : Z) : Z := Z.max 0 (Z.min 100 percent).

(** The buffer handling of [monitorButtons] for one read that delivered
    [data]: nothing when [len(data) == 0]; otherwise
    [messageBuffer = append(messageBuffer, data...)], then
    [processMessageBuffer]. *)
Definition receive (state : list Z * DisplayController) (data : list Z)
    : list Z * DisplayController :=
  if (length data =? 0)%nat then state
  else processMessageBuffer (fst state ++ data) (snd state).

End Display.

(** ** The LED controller (package controller) *)

Module LED.

(** [type PanelLED int] with its nine [iota] constants. *)
Abbreviation PanelLED := Z (only parsing).
Definition StatusGreen : PanelLED := 0.
Definition StatusRed : PanelLED := 1.
Definition USB : PanelLED := 2.
Definition Disk1 : PanelLED := 3.
Definition Disk2 : PanelLED := 4.
Definition Disk3 : PanelLED := 5.
Definition Disk4 : PanelLED := 6.
Definition Disk5 : PanelLED := 7.
Definition Disk6 : PanelLED := 8.

Record LEDController : Type := mkLC {
  portPerms : bool
}.

Definition regPort : Z := 0xa05.
Definition valuePort : Z := 0xa06.

Record portConfig : Type := mkPortConfig {
  register : Z;
  leds : gmap Z Z
}.

Definition statusLEDPort : portConfig :=
  {| register := 0x91;
     leds := {[ StatusGreen := 2; StatusRed := 3 ]} |}.

Definition diskLEDPort : portConfig :=
  {| register := 0x81;
     leds := {[ Disk1 := 0; Disk2 := 1; Disk3 := 2;
                Disk4 := 3; Disk5 := 4; Disk6 := 5 ]} |}.

Definition usbLEDPort : portConfig :=
  {| register := 0xE1;
     leds := {[ USB := 7 ]} |}.

(** *** The hardware behind /dev/port

    An index/data pair: a byte written to [regPort] selects a register,
    [valuePort] reads or writes the selected register. Every access opens
    /dev/port anew and may fail; [dev_fail k] says whether the access
    number [k] does. Every access attempted is logged. *)

Inductive PortOp : Type :=
| OpOut (value port : Z)
| OpIn (port : Z).

Record PortDev : Type := mkDev {
  dev_index : Z;
  dev_regs : Z -> Z;
  dev_fail : nat -> bool;
  dev_log : list PortOp
}.

Definition dev_logged (op : PortOp) (dev : PortDev) : PortDev :=
  {| dev_index := dev_index dev; dev_regs := dev_regs dev;
     dev_fail := dev_fail dev; dev_log := dev_log dev ++ [op] |}.

Definition dev_select (r : Z) (dev : PortDev) : PortDev :=
  {| dev_index := r; dev_regs := dev_regs dev;
     dev_fail := dev_fail dev; dev_log := dev_log dev |}.

Definition dev_store (value : Z) (dev : PortDev) : PortDev :=
  {| dev_index := dev_index dev;
     dev_regs := fun r => if r =? dev_index dev then value else dev_regs dev r;
     dev_fail := dev_fail dev; dev_log := dev_log dev |}.

(** Bit [i] of register [r]. *)
Definition reg_bit (dev : PortDev) (r i : Z) : bool :=
  Z.testbit (dev_regs dev r) i.

Definition outb (value port : Z) (dev : PortDev) : option error * PortDev :=
  let failed := dev_fail dev (length (dev_log dev)) in
  let dev := dev_logged (OpOut value port) dev in
  if failed then (Some (ErrDevPort port), dev)
  else if port =? regPort then (None, dev_select value dev)
  else if port =? valuePort then (None, dev_store value dev)
  else (None, dev).

Definition inb (port : Z) (dev : PortDev) : (Z * option error) * PortDev :=
  let failed := dev_fail dev (length (dev_log dev)) in
  let dev := dev_logged (OpIn port) dev in
  if failed then ((0, Some (ErrDevPort port)), dev)
  else if port =? valuePort then ((dev_regs dev (dev_index dev) mod 256, None), dev)
  else if port =? regPort then ((dev_index dev mod 256, None), dev)
  else ((0xFF, None), dev).

Definition readPort (register : Z) (dev : PortDev)
    : (Z * option error) * PortDev :=
  let '(err, dev) := outb register regPort dev in
  match err with
  | Some e => ((0, Some e), dev)
  | None => inb valuePort dev
  end.

Definition writePort (register value : Z) (dev : PortDev)
    : option error * PortDev :=
  let '(err, dev) := outb register regPort dev in
  match err with
  | Some e => (Some e, dev)
  | None => outb value valuePort dev
  end.

(** [(1 << bit)] at type [byte]. *)
Definition bit_of (bit : Z) : Z := Z.shiftl 1 bit mod 256.

(** The body of [for led, state := range newStates] in [updatePortLEDs]. *)
Definition applyState (leds : gmap Z Z) (mask : Z) (entry : Z * bool) : Z :=
  let '(led, state) := entry in
  match leds !! led with
  | Some bit =>
      if state then Z.ldiff mask (bit_of bit)   (* mask &^= (1 << bit) *)
      else Z.lor mask (bit_of bit)              (* mask |= (1 << bit) *)
  | None => mask
  end.

(** The [range] loop over the entries in the order [entries]. Go leaves the
    order of a map's entries open; the facts below hold for every order. *)
Definition applyStates (leds : gmap Z Z) (entries : list (Z * bool))
    (mask : Z) : Z :=
  fold_left (applyState leds) entries mask.

(** [updatePortLEDs] with the entries of [newStates] visited in the order
    [entries]. *)
Definition updatePortLEDs_in (port : portConfig) (entries : list (Z * bool))
    (dev : PortDev) : option error * PortDev :=
  let '((currentMask, err), dev) := readPort (register port) dev in
  match err with
  | Some e => (Some (ErrReadPort (register port) e), dev)
  | None =>
      let mask := applyStates (leds port) entries currentMask in
      if negb (mask =? currentMask) then
        let '(err, dev) := writePort (register port) mask dev in
        match err with
        | Some e => (Some (ErrWritePort (register port) e), dev)
        | None => (None, dev)
        end
      else (None, dev)
  end.

Definition updatePortLEDs (port : portConfig) (newStates : gmap Z bool)
    (dev : PortDev) : option error * PortDev :=
  updatePortLEDs_in port (map_to_list newStates) dev.

Definition SetLED (lc : LEDController) (led : PanelLED) (on : bool)
    (dev : PortDev) : option error * PortDev :=
  if negb (portPerms lc) then (None, dev)
  else
    let none := {| register := 0; leds := ∅ |} in
    let '(port, found) :=
      match leds statusLEDPort !! led with
      | Some bit =>
          ({| register := register statusLEDPort; leds := {[ led := bit ]} |}, true)
      | None =>
          match leds diskLEDPort !! led with
          | Some bit =>
              ({| register := register diskLEDPort; leds := {[ led := bit ]} |}, true)
          | None =>
              match leds usbLEDPort !! led with
              | Some bit =>
                  ({| register := register usbLEDPort; leds := {[ led := bit ]} |}, true)
              | None => (none, false)
              end
          end
      end in
    if negb found then (Some (ErrUnknownLED led), dev)
    else updatePortLEDs port {[ led := on ]} dev.

Definition diskLEDs : list PanelLED := [Disk1; Disk2; Disk3; Disk4; Disk5; Disk6].

(** The loop of [SetDiskLEDs] that fills [ledStates]. *)
Definition ledStates_of (states : gmap Z bool) : gmap Z bool :=
  map_fold (fun diskNum state ledStates =>
              if (1 <=? diskNum) && (diskNum <=? 6)
              then <[ nth (Z.to_nat (diskNum - 1)) diskLEDs 0 := state ]> ledStates
              else ledStates)
           ∅ states.

Definition SetDiskLEDs (lc : LEDController) (states : gmap Z bool)
    (dev : PortDev) : option error * PortDev :=
  if negb (portPerms lc) then (None, dev)
  else
    let ledStates := ledStates_of states in
    if (size ledStates =? 0)%nat then (None, dev)
    else updatePortLEDs diskLEDPort ledStates dev.

Definition SetStatusLED (lc : LEDController) (red green : bool)
    (dev : PortDev) : option error * PortDev :=
  if negb (portPerms lc) then (None, dev)
  else
    let ledStates : gmap Z bool := {[ StatusRed := red; StatusGreen := green ]} in
    updatePortLEDs statusLEDPort ledStates dev.

(** ** Vocabulary of the statements about LEDs *)

(** Where a LED lives: its register and bit, looked up in the three tables
    in the order [SetLED] tries them. *)
Definition led_place (led : PanelLED) : option (Z * Z) :=
  match leds statusLEDPort !! led with
  | Some bit => Some (register statusLEDPort, bit)
  | None =>
      match leds diskLEDPort !! led with
      | Some bit => Some (register diskLEDPort, bit)
      | None =>
          match leds usbLEDPort !! led with
          | Some bit => Some (register usbLEDPort, bit)
          | None => None
          end
      end
  end.

(** A LED is lit when its bit is 0 (as [GetLEDStates] reads it). *)
Definition led_lit (dev : PortDev) (led : PanelLED) : bool :=
  match led_place led with
  | Some (r, bit) => negb (reg_bit dev r bit)
  | None => false
  end.

(** A device on which no access fails, every register reading all-ones
    (every LED out), nothing selected and nothing logged. *)
Definition quiet_dev : PortDev :=
  {| dev_index := 0; dev_regs := fun _ => 0xFF;
     dev_fail := fun _ => false; dev_log := [] |}.

(** No access to /dev/port fails. *)
Definition healthy (dev : PortDev) : Prop :=
  forall k, dev_fail dev k = false.

(** Bit [i] belongs to none of the LEDs that [entries] sets on a port with
    table [leds]. *)
Definition untargeted (leds : gmap Z Z) (entries : list (Z * bool)) (i : Z) : Prop :=
  forall led state bit,
    In (led, state) entries -> leds !! led = Some bit -> bit <> i.

(** ** Reading the LEDs back, and closing *)

(** [states[led] = (mask & (1 << bit)) == 0], for one entry of a table. *)
Definition record_state (mask : Z) (states : gmap Z bool) (entry : Z * Z)
    : gmap Z bool :=
  let '(led, bit) := entry in
  <[ led := (Z.land mask (bit_of bit) =? 0) ]> states.

(** One [if mask, err := lc.readPort(...); err == nil { for ... }] block of
    [GetLEDStates]; the entries of the table are visited in the order of
    [map_to_list]. *)
Definition read_states (port : portConfig) (states : gmap Z bool)
    (dev : PortDev) : gmap Z bool * PortDev :=
  let '((mask, err), dev) := readPort (register port) dev in
  match err with
  | None => (fold_left (record_state mask) (map_to_list (leds port)) states, dev)
  | Some _ => (states, dev)
  end.

Definition GetLEDStates (lc : LEDController) (dev : PortDev)
    : (gmap Z bool * option error) * PortDev :=
  if negb (portPerms lc) then ((∅, None), dev)
  else
    let states : gmap Z bool := ∅ in
    let '(states, dev) := read_states statusLEDPort states dev in
    let '(states, dev) := read_states diskLEDPort states dev in
    let '(states, dev) := read_states usbLEDPort states dev in
    ((states, None), dev).

(** [Close]: the permission is given back once. *)
Definition Close (lc : LEDController) : option error * LEDController :=
  if portPerms lc then (None, {| portPerms := false |}) else (None, lc).

(** A table that gives no bit to two LEDs. *)
Definition distinct_bits (leds : gmap Z Z) : Prop :=
  forall led1 led2 bit,
    leds !! led1 = Some bit -> leds !! led2 = Some bit -> led1 = led2.

End LED.

(** ** internal/controller/system_controller.go *)

Module System.

(** [SystemController]; [led] is [None] for a nil [sc.led]. *)
Record SystemController : Type := mkSC {
  led : option LED.LEDController
}.

(** The [switch diskNum] of [SetDiskActivity]: the one-entry map, or
    [None] for the [default] case. *)
Definition diskLEDs_of (diskNum : Z) (active : bool) : option (gmap Z bool) :=
  if diskNum =? 1 then Some {[ LED.Disk1 := active ]}
  else if diskNum =? 2 then Some {[ LED.Disk2 := active ]}
  else if diskNum =? 3 then Some {[ LED.Disk3 := active ]}
  else if diskNum =? 4 then Some {[ LED.Disk4 := active ]}
  else if diskNum =? 5 then Some {[ LED.Disk5 := active ]}
  else if diskNum =? 6 then Some {[ LED.Disk6 := active ]}
  else None.

(** [for led, state := range diskLEDs { if err := sc.led.SetLED(...) ... }]. *)
Fixpoint setAll (lc : LED.LEDController) (diskNum : Z)
    (entries : list (Z * bool)) (dev : LED.PortDev)
    : option error * LED.PortDev :=
  match entries with
  | [] => (None, dev)
  | (led, state) :: entries =>
      let '(err, dev) := LED.SetLED lc led state dev in
      match err with
      | Some e => (Some (ErrSetDiskLED diskNum e), dev)
      | None => setAll lc diskNum entries dev
      end
  end.

Definition SetDiskActivity (sc : SystemController) (diskNum : Z)
    (active : bool) (dev : LED.PortDev) : option error * LED.PortDev :=
  match led sc with
  | None => (None, dev)
  | Some lc =>
      match diskLEDs_of diskNum active with
      | None => (Some (ErrInvalidDisk diskNum), dev)
      | Some diskLEDs => setAll lc diskNum (map_to_list diskLEDs) dev
      end
  end.

(** The LED of disk [diskNum], for [diskNum] from 1 to 6. *)
Definition disk_led (diskNum : Z) : Z :=
  nth (Z.to_nat (diskNum - 1)) LED.diskLEDs 0.

(** ** The other entry points of the system controller

    [sc.display] is passed beside the controller, [None] for nil. *)

Definition initializeSystem (sc : SystemController) (dev : LED.PortDev)
    : option error * LED.PortDev :=
  match led sc with
  | Some lc =>
      let '(_, dev) := LED.SetStatusLED lc false true dev in
      let '(_, dev) := LED.SetLED lc LED.USB false dev in
      let '(_, dev) :=
        LED.SetDiskLEDs lc
          {[ 1 := false; 2 := false; 3 := false;
             4 := false; 5 := false; 6 := false ]} dev in
      (None, dev)
  | None => (None, dev)
  end.

Definition SetSystemStatus (sc : SystemController)
    (display : option Display.DisplayController)
    (status : string) (isError : bool) (dev : LED.PortDev)
    : option error * option Display.DisplayController * LED.PortDev :=
  let display :=
    match display with
    | Some dc => Some (snd (Display.WriteText status dc))
    | None => None
    end in
  let dev :=
    match led sc with
    | Some lc =>
        if isError then snd (LED.SetStatusLED lc true false dev)
        else snd (LED.SetStatusLED lc false true dev)
    | None => dev
    end in
  (None, display, dev).

(** [for i := 1; i <= 6; i++ { sc.SetDiskActivity(i, i <= activeDisk) }],
    from [i] on, for at most [turns] turns. *)
Fixpoint flash_loop (turns : nat) (sc : SystemController) (i activeDisk : Z)
    (dev : LED.PortDev) : LED.PortDev :=
  match turns with
  | O => dev
  | S turns =>
      if i <=? 6 then
        let '(_, dev) := SetDiskActivity sc i (i <=? activeDisk) dev in
        flash_loop turns sc (i + 1) activeDisk dev
      else dev
  end.

Definition ShowProgress (sc : SystemController)
    (display : option Display.DisplayController)
    (percent : Z) (flashDisks : bool) (dev : LED.PortDev)
    : option derror * option Display.DisplayController * LED.PortDev :=
  let '(err, display) :=
    match display with
    | Some dc =>
        let '(err, dc) := Display.ShowProgress percent dc in (err, Some dc)
    | None => (None, None)
    end in
  match err with
  | Some e => (Some (ErrShowProgress e), display, dev)
  | None =>
      let dev :=
        if flashDisks && (match led sc with Some _ => true | None => false end)
        then
          let activeDisk := Z.quot percent 17 + 1 in
          let activeDisk := if 6 <? activeDisk then 6 else activeDisk in
          flash_loop 6 sc 1 activeDisk dev
        else dev in
      (None, display, dev)
  end.

End System.

(** ** The USB-copy button monitor (package monitor) *)

Module Monitor.

(** [type IOPortReader interface { ReadByte() (byte, error); ... }]: a
    reader of type [R] yields a byte or an error and its next state. *)
Class IOPortReader (R : Type) : Type := {
  ReadByte : R -> (Z * option error) * R
}.

(** A reader that replays the outcomes listed, then reads all-ones. *)
#[global] Instance scripted_reader : IOPortReader (list (Z * option error)) := {
  ReadByte r :=
    match r with
    | [] => ((0xFF, None), [])
    | x :: r => (x, r)
    end
}.

(** [USBCopyMonitor]; [sleeps] logs the [time.Sleep] calls, in
    nanoseconds. *)
Record USBCopyMonitor (R : Type) : Type := mkMonitor {
  ioPort : R;
  closed : bool;
  sleeps : list Z
}.
Arguments mkMonitor {R}.
Arguments ioPort {R}.
Arguments closed {R}.
Arguments sleeps {R}.

Section WithReader.
Context {R : Type} `{IOPortReader R}.

Definition with_ioPort (r : R) (m : USBCopyMonitor R) : USBCopyMonitor R :=
  {| ioPort := r; closed := closed m; sleeps := sleeps m |}.

Definition sleep (ns : Z) (m : USBCopyMonitor R) : USBCopyMonitor R :=
  {| ioPort := ioPort m; closed := closed m; sleeps := sleeps m ++ [ns] |}.

Definition IsButtonPressed (m : USBCopyMonitor R)
    : (bool * option error) * USBCopyMonitor R :=
  if closed m then ((false, Some ErrMonitorClosed), m)
  else
    let '((value, err), r) := ReadByte (ioPort m) in
    let m := with_ioPort r m in
    match err with
    | Some e => ((false, Some (ErrReadIOPort e)), m)
    | None =>
        let pressed := Z.land value 0x01 =? 0 in
        ((pressed, None), m)
    end.

Definition debounceTime : Z := 20 * 1000000.
Definition sampleCount : Z := 3.

(** [for i := 0; i < sampleCount; i++ { ... }] of [GetButtonState], from
    [i] on, for at most [turns] turns. The result is [pressedCount], or the
    error that ended the loop. *)
Fixpoint sample_loop (turns : nat) (i pressedCount : Z) (m : USBCopyMonitor R)
    : (Z * option error) * USBCopyMonitor R :=
  match turns with
  | O => ((pressedCount, None), m)
  | S turns =>
      if i <? sampleCount then
        let '((pressed, err), m) := IsButtonPressed m in
        match err with
        | Some e => ((pressedCount, Some e), m)
        | None =>
            let pressedCount := if pressed then pressedCount + 1 else pressedCount in
            let m := if i <? sampleCount - 1
                     then sleep (debounceTime / sampleCount) m else m in
            sample_loop turns (i + 1) pressedCount m
        end
      else ((pressedCount, None), m)
  end.

Definition GetButtonState (m : USBCopyMonitor R)
    : (bool * option error) * USBCopyMonitor R :=
  let '((pressedCount, err), m) := sample_loop (Z.to_nat sampleCount) 0 0 m in
  match err with
  | Some e => ((false, Some e), m)
  | None =>
      let debounced := sampleCount / 2 <? pressedCount in
      ((debounced, None), m)
  end.

End WithReader.

(** ** Edge detection, closing, and the hardware port *)

(** The [Close] of the [IOPortReader] interface. *)
Class IOPortCloser (R : Type) : Type := {
  ClosePort : R -> option error * R
}.

#[global] Instance scripted_closer : IOPortCloser (list (Z * option error)) := {
  ClosePort r := (None, r)
}.

Section WithReaderLoop.
Context {R : Type} `{IOPortReader R}.

(** [MonitorButtonPresses] for [ticks] ticks of its ticker, the monitor
    staying open: the state of the loop is [lastPressed] and the number of
    callbacks started. *)
Fixpoint MonitorButtonPresses_loop (ticks : nat) (hasCallback : bool)
    (lastPressed : bool) (callbacks : nat) (m : USBCopyMonitor R)
    : (bool * nat) * USBCopyMonitor R :=
  match ticks with
  | O => ((lastPressed, callbacks), m)
  | S ticks =>
      let '((pressed, err), m) := IsButtonPressed m in
      match err with
      | Some _ =>
          MonitorButtonPresses_loop ticks hasCallback lastPressed callbacks m
      | None =>
          let callbacks :=
            if pressed && negb lastPressed
            then (if hasCallback then S callbacks else callbacks)
            else callbacks in
          MonitorButtonPresses_loop ticks hasCallback pressed callbacks m
      end
  end.

Definition MonitorButtonPresses (ticks : nat) (hasCallback : bool)
    (m : USBCopyMonitor R) : nat * USBCopyMonitor R :=
  let '((_, callbacks), m) :=
    MonitorButtonPresses_loop ticks hasCallback false 0%nat m in
  (callbacks, m).

Definition Close `{IOPortCloser R} (m : USBCopyMonitor R)
    : option error * USBCopyMonitor R :=
  if closed m then (None, m)
  else
    let m := {| ioPort := ioPort m; closed := true; sleeps := sleeps m |} in
    let '(err, r) := ClosePort (ioPort m) in
    (err, with_ioPort r m).

End WithReaderLoop.

(** The rising edges of a run of samples that starts from [last]. *)
Fixpoint rising_edges (last : bool) (samples : list bool) : nat :=
  match samples with
  | [] => 0%nat
  | p :: samples =>
      ((if p && negb last then 1 else 0) + rising_edges p samples)%nat
  end.

(** The samples a scripted reader yields on an open monitor: the reads
    that fail are skipped. *)
Definition samples_of (script : list (Z * option error)) : list bool :=
  flat_map (fun '(value, err) =>
              match err with
              | Some _ => []
              | None => [Z.land value 0x01 =? 0]
              end) script.

End Monitor.

(** ** The hardware port (package hardware) *)

Module Hardware.

(** [IOPortAccess], with what the process meets behind it: [devport] lists
    the outcomes of the reads of /dev/port to come ([None] when the file
    cannot be opened, sought or read), [release_fails] whether [ioperm]
    refuses to give the port back. *)
Record IOPortAccess : Type := mkIOPort {
  port : Z;
  acquired : bool;
  devport : list (option Z);
  release_fails : bool
}.

Definition not_acquired : error := ErrMsg "I/O port not acquired".
Definition release_failed : error := ErrMsg "failed to release I/O port permissions".

(** [inbFallback]: the byte read, or 0xFF when /dev/port fails. With
    nothing listed the port reads 0xFF. *)
Definition inbFallback (io : IOPortAccess) : Z * IOPortAccess :=
  match devport io with
  | [] => (0xFF, io)
  | r :: rs =>
      (match r with Some value => value mod 256 | None => 0xFF end,
       {| port := port io; acquired := acquired io;
          devport := rs; release_fails := release_fails io |})
  end.

Definition inb (io : IOPortAccess) : Z * IOPortAccess := inbFallback io.

Definition ReadByte (io : IOPortAccess) : (Z * option error) * IOPortAccess :=
  if negb (acquired io) then ((0, Some not_acquired), io)
  else
    let '(value, io) := inb io in
    ((value, None), io).

Definition Close (io : IOPortAccess) : option error * IOPortAccess :=
  if negb (acquired io) then (None, io)
  else if release_fails io then (Some release_failed, io)
  else (None, {| port := port io; acquired := false;
                 devport := devport io; release_fails := release_fails io |}).

#[global] Instance port_reader : Monitor.IOPortReader IOPortAccess := {
  Monitor.ReadByte := ReadByte
}.

#[global] Instance port_closer : Monitor.IOPortCloser IOPortAccess := {
  Monitor.ClosePort := Close
}.

End Hardware.

(** * Properties *)

(** ** Button edges and frames *)

Section DisplayFacts.
Import Display.

Lemma emitted_app (l1 l2 : list Effect) :
  emitted (l1 ++ l2) = emitted l1 ++ emitted l2.
Proof. unfold emitted. apply flat_map_app. Qed.

Lemma parsed_app (l1 l2 : list Effect) :
  parsed (l1 ++ l2) = parsed l1 ++ parsed l2.
Proof. unfold parsed. apply flat_map_app. Qed.

Lemma triggerButtonEvent_state b p dc :
  lastButtonState (triggerButtonEvent b p dc) = lastButtonState dc.
Proof. unfold triggerButtonEvent. simpl. destruct (buttonHandler dc); reflexivity. Qed.

Lemma triggerButtonEvent_emitted b p dc :
  emitted (effects (triggerButtonEvent b p dc)) = emitted (effects dc) ++ [(b, p)].
Proof.
  unfold triggerButtonEvent. simpl.
  destruct (buttonHandler dc); simpl; rewrite !emitted_app; simpl;
    rewrite ?app_nil_r; reflexivity.
Qed.

Lemma triggerButtonEvent_parsed b p dc :
  parsed (effects (triggerButtonEvent b p dc)) = parsed (effects dc).
Proof.
  unfold triggerButtonEvent. simpl.
  destruct (buttonHandler dc); simpl; rewrite !parsed_app; simpl;
    rewrite ?app_nil_r; reflexivity.
Qed.

Lemma checkButtonStateChange_spec b p dc :
  checkButtonStateChange b p dc =
    if changed (lastButtonState dc) b p
    then (true, with_lastButtonState (<[b := p]> (lastButtonState dc)) dc)
    else (false, dc).
Proof.
  unfold checkButtonStateChange, changed.
  destruct (lastButtonState dc !! b) as [v|]; simpl; reflexivity.
Qed.

Lemma checkAndTrigger_records b p dc :
  lastButtonState (checkAndTrigger b p dc) = <[b := p]> (lastButtonState dc).
Proof.
  unfold checkAndTrigger. rewrite checkButtonStateChange_spec.
  unfold changed. destruct (lastButtonState dc !! b) as [v|] eqn:E; simpl.
  - destruct (Bool.eqb v p) eqn:Ev; simpl.
    + apply Bool.eqb_prop in Ev. subst v. symmetry. by apply insert_id.
    + by rewrite triggerButtonEvent_state.
  - by rewrite triggerButtonEvent_state.
Qed.

Lemma checkAndTrigger_emitted b p dc :
  emitted (effects (checkAndTrigger b p dc)) =
    emitted (effects dc) ++
    (if changed (lastButtonState dc) b p then [(b, p)] else []).
Proof.
  unfold checkAndTrigger. rewrite checkButtonStateChange_spec.
  destruct (changed (lastButtonState dc) b p).
  - by rewrite triggerButtonEvent_emitted.
  - by rewrite app_nil_r.
Qed.

Lemma checkAndTrigger_parsed b p dc :
  parsed (effects (checkAndTrigger b p dc)) = parsed (effects dc).
Proof.
  unfold checkAndTrigger. rewrite checkButtonStateChange_spec.
  destruct (changed (lastButtonState dc) b p); [|done].
  by rewrite triggerButtonEvent_parsed.
Qed.

Lemma parseButtonState_records s dc :
  lastButtonState (parseButtonState s dc) = recorded s (lastButtonState dc).
Proof.
  unfold parseButtonState, recorded. by rewrite !checkAndTrigger_records.
Qed.

Lemma changed_insert_ne m b b' p p' :
  b ≠ b' -> changed (<[b := p]> m) b' p' = changed m b' p'.
Proof. intros Hne. unfold changed. by rewrite lookup_insert_ne. Qed.

Lemma changed_insert_eq m b p : changed (<[b := p]> m) b p = false.
Proof.
  unfold changed. rewrite lookup_insert_eq. by destruct p.
Qed.

Lemma parseButtonState_emitted s dc :
  emitted (effects (parseButtonState s dc)) =
    emitted (effects dc) ++ events_of s (lastButtonState dc).
Proof.
  unfold parseButtonState, events_of.
  rewrite !checkAndTrigger_emitted, !checkAndTrigger_records.
  simpl. rewrite emitted_app. simpl. rewrite app_nil_r.
  rewrite !changed_insert_ne by done.
  by rewrite <- !app_assoc.
Qed.

Lemma parseButtonState_parsed s dc :
  parsed (effects (parseButtonState s dc)) = parsed (effects dc) ++ [s].
Proof.
  unfold parseButtonState. rewrite !checkAndTrigger_parsed.
  simpl. by rewrite parsed_app.
Qed.

Lemma events_of_recorded s m : events_of s (recorded s m) = [].
Proof.
  unfold events_of, recorded.
  rewrite changed_insert_eq.
  rewrite (changed_insert_ne _ ButtonUSBCopy ButtonSelect) by done.
  rewrite changed_insert_eq.
  rewrite (changed_insert_ne _ ButtonUSBCopy ButtonEnter) by done.
  rewrite (changed_insert_ne _ ButtonSelect ButtonEnter) by done.
  by rewrite changed_insert_eq.
Qed.

(** A buffer holding exactly one button frame: one [parseButtonState],
    nothing left. *)
Lemma processMessageBuffer_frame s dc :
  processMessageBuffer (button_frame s) dc = ([], parseButtonState s dc).
Proof. reflexivity. Qed.

End DisplayFacts.

Section FrameFacts.
Import Display.

Lemma records_recorded s m : records s (recorded s m).
Proof.
  unfold records, recorded. repeat split.
  - rewrite !lookup_insert_ne by done. apply lookup_insert_eq.
  - rewrite lookup_insert_ne by done. apply lookup_insert_eq.
  - apply lookup_insert_eq.
Qed.

(** With the states of [s] recorded, a frame [s'] emits one event per
    button that decodes differently in [s] and [s']. *)
Lemma events_of_records s s' m :
  records s m ->
  events_of s' m =
    (if Bool.eqb (enterPressed s) (enterPressed s')
     then [] else [(ButtonEnter, enterPressed s')]) ++
    (if Bool.eqb (selectPressed s) (selectPressed s')
     then [] else [(ButtonSelect, selectPressed s')]) ++
    (if Bool.eqb (usbCopyPressed s) (usbCopyPressed s')
     then [] else [(ButtonUSBCopy, usbCopyPressed s')]).
Proof.
  intros (He & Hs & Hu). unfold events_of, changed.
  rewrite He, Hs, Hu.
  destruct (Bool.eqb (enterPressed s) (enterPressed s')),
    (Bool.eqb (selectPressed s) (selectPressed s')),
    (Bool.eqb (usbCopyPressed s) (usbCopyPressed s')); reflexivity.
Qed.

Lemma events_of_length s m : (length (events_of s m) <= 3)%nat.
Proof.
  unfold events_of.
  destruct (changed m ButtonEnter _), (changed m ButtonSelect _),
    (changed m ButtonUSBCopy _); simpl; lia.
Qed.

Lemma events_of_empty s :
  events_of s ∅ =
    [(ButtonEnter, enterPressed s); (ButtonSelect, selectPressed s);
     (ButtonUSBCopy, usbCopyPressed s)].
Proof. reflexivity. Qed.

End FrameFacts.

Section ButtonEdges.
Import Display.

(** C1, as stated, fails: the first occurrence of a state byte does not
    always emit exactly one event. On a controller that has decoded nothing
    yet, the frame [0x53 0x05 0x00 0xFF] emits three events; with the
    states of [0xFF] recorded, the frame for [0xFC] emits two. *)
Lemma C1_first_occurrence_not_one_event :
  let dc1 := snd (processMessageBuffer (button_frame 0xFF) (fresh idle_link)) in
  let dc2 := snd (processMessageBuffer (button_frame 0xFC) dc1) in
  emitted (effects dc1) =
    [(ButtonEnter, false); (ButtonSelect, false); (ButtonUSBCopy, true)]
  /\ length (emitted (effects dc1)) <> 1%nat
  /\ emitted (effects dc2) =
       emitted (effects dc1) ++ [(ButtonEnter, true); (ButtonSelect, true)].
Proof. vm_compute. repeat split; congruence. Qed.

(** C1 (amended): a button frame [0x53 0x05 0x00 s] emits one event for
    each button whose decoded value is not the recorded one (none to three
    events), and the same frame processed again right after it emits
    nothing. With the states of [0xFF] recorded, [0xFE] emits only
    (ENTER, pressed), a following [0xFF] emits only (ENTER, released), and
    a following second [0xFE] emits nothing. *)
Theorem C1_repeated_frame_emits_nothing :
  (forall s dc,
     let dc1 := snd (processMessageBuffer (button_frame s) dc) in
     let dc2 := snd (processMessageBuffer (button_frame s) dc1) in
     emitted (effects dc1) =
       emitted (effects dc) ++ events_of s (lastButtonState dc)
     /\ (length (events_of s (lastButtonState dc)) <= 3)%nat
     /\ emitted (effects dc2) = emitted (effects dc1))
  /\
  (forall dc,
     records 0xFF (lastButtonState dc) ->
     let dcFE := snd (processMessageBuffer (button_frame 0xFE) dc) in
     let dcFF := snd (processMessageBuffer (button_frame 0xFF) dcFE) in
     let dcFE' := snd (processMessageBuffer (button_frame 0xFE) dcFF) in
     let dcFE'' := snd (processMessageBuffer (button_frame 0xFE) dcFE') in
     emitted (effects dcFE) = emitted (effects dc) ++ [(ButtonEnter, true)]
     /\ emitted (effects dcFF) = emitted (effects dcFE) ++ [(ButtonEnter, false)]
     /\ emitted (effects dcFE'') = emitted (effects dcFE')).
Proof.
  split.
  - intros s dc. cbv zeta. rewrite !processMessageBuffer_frame. cbn [fst snd].
    rewrite !parseButtonState_emitted, parseButtonState_records.
    rewrite events_of_recorded, app_nil_r.
    auto using events_of_length.
  - intros dc Hrec. cbv zeta. rewrite !processMessageBuffer_frame. cbn [fst snd].
    rewrite !parseButtonState_emitted, !parseButtonState_records.
    rewrite events_of_recorded, app_nil_r.
    rewrite (events_of_records 0xFF 0xFE) by assumption.
    rewrite (events_of_records 0xFE 0xFF) by apply records_recorded.
    repeat split.
Qed.

Lemma C1_repeated_frame_emits_nothing_witness :
  let dc := snd (processMessageBuffer (button_frame 0xFF) (fresh idle_link)) in
  records 0xFF (lastButtonState dc) /\
  let dcFE := snd (processMessageBuffer (button_frame 0xFE) dc) in
  let dcFF := snd (processMessageBuffer (button_frame 0xFF) dcFE) in
  emitted (effects dcFE) = emitted (effects dc) ++ [(ButtonEnter, true)]
  /\ emitted (effects dcFF) = emitted (effects dcFE) ++ [(ButtonEnter, false)].
Proof.
  set (dc := snd (processMessageBuffer (button_frame 0xFF) (fresh idle_link))).
  assert (Hrec : records 0xFF (lastButtonState dc)) by (vm_compute; auto).
  split; [exact Hrec|].
  destruct (proj2 C1_repeated_frame_emits_nothing dc Hrec) as (H1 & H2 & _).
  split; [exact H1 | exact H2].
Defined.

(** C10: with no button state recorded yet, a button-state frame emits an
    event for each of the three buttons, in the order ENTER, SELECT,
    USB_COPY, each with the value the byte decodes to, pressed or not. *)
Theorem C10_first_frame_emits_all_three (s : Z) (dc : DisplayController) :
  lastButtonState dc = ∅ ->
  emitted (effects (snd (processMessageBuffer (button_frame s) dc))) =
    emitted (effects dc) ++
    [(ButtonEnter, enterPressed s); (ButtonSelect, selectPressed s);
     (ButtonUSBCopy, usbCopyPressed s)].
Proof.
  intros Hempty. rewrite processMessageBuffer_frame. cbn [fst snd].
  rewrite parseButtonState_emitted, Hempty. by rewrite events_of_empty.
Qed.

Lemma C10_first_frame_emits_all_three_witness :
  lastButtonState (fresh idle_link) = ∅ /\
  emitted (effects (snd (processMessageBuffer (button_frame 0xFF) (fresh idle_link)))) =
    [(ButtonEnter, false); (ButtonSelect, false); (ButtonUSBCopy, true)].
Proof.
  split; [reflexivity|].
  exact (C10_first_frame_emits_all_three 0xFF (fresh idle_link) eq_refl).
Defined.

(** C3: a button frame split after its first, second or third byte, the
    two parts appended to an empty buffer with one extraction after each,
    is decoded once: the first extraction leaves the part in the buffer and
    decodes nothing, the second calls [parseButtonState] once, with the
    state byte, and leaves the buffer empty. *)
Theorem C3_split_frame_decoded_once (s : Z) (k : nat) (dc : DisplayController) :
  (1 <= k <= 3)%nat ->
  let frame := button_frame s in
  let r1 := processMessageBuffer ([] ++ firstn k frame) dc in
  let r2 := processMessageBuffer (fst r1 ++ skipn k frame) (snd r1) in
  snd r1 = dc
  /\ fst r2 = []
  /\ snd r2 = parseButtonState s dc
  /\ parsed (effects (snd r2)) = parsed (effects dc) ++ [s].
Proof.
  intros Hk.
  assert (Hcases : k = 1%nat \/ k = 2%nat \/ k = 3%nat) by lia.
  destruct Hcases as [-> | [-> | ->]]; simpl;
    rewrite parseButtonState_parsed; auto.
Qed.

(** The same through the polling loop: two reads that deliver the two
    parts of the frame, one turn of the loop for each. *)
Lemma monitorButtons_split_frame (s : Z) (k : nat) (dc : DisplayController)
    (p : Serial.Port) (rs : list Serial.ReadResult) :
  (1 <= k <= 3)%nat ->
  serialPort dc = Serial.mkSerialPort (Some p) ->
  Serial.reads p =
    Serial.mkRead (firstn k (button_frame s)) None
      :: Serial.mkRead (skipn k (button_frame s)) None :: rs ->
  let r1 := monitorButtons_poll [] dc in
  let r2 := monitorButtons_poll (fst r1) (snd r1) in
  fst r1 = firstn k (button_frame s)
  /\ parsed (effects (snd r1)) = parsed (effects dc)
  /\ fst r2 = []
  /\ parsed (effects (snd r2)) = parsed (effects dc) ++ [s].
Proof.
  intros Hk Hsp Hreads.
  assert (Hcases : k = 1%nat \/ k = 2%nat \/ k = 3%nat) by lia.
  unfold monitorButtons_poll, Serial.ReadAvailable, Serial.port_Read.
  rewrite Hsp. cbn [Serial.port]. rewrite Hreads.
  destruct Hcases as [-> | [-> | ->]]; cbn;
    rewrite !parsed_app, parseButtonState_parsed; cbn;
    rewrite !app_nil_r; repeat split;
    unfold parsed; rewrite flat_map_app; cbn; by rewrite app_nil_r.
Qed.

Lemma C3_split_frame_decoded_once_witness :
  let frame := button_frame 0xFE in
  let r1 := processMessageBuffer ([] ++ firstn 2 frame) (fresh idle_link) in
  let r2 := processMessageBuffer (fst r1 ++ skipn 2 frame) (snd r1) in
  fst r2 = [] /\ parsed (effects (snd r2)) = [0xFE].
Proof.
  destruct (C3_split_frame_decoded_once 0xFE 2 (fresh idle_link))
    as (_ & H2 & _ & H4); [lia|].
  split; [exact H2 | exact H4].
Defined.

End ButtonEdges.

Section BufferOverflow.
Import Display.

(** One turn of the loop on a buffer whose head is not recognized: the
    first byte goes, and the rest is cleared when longer than 16. *)
Lemma processMessageBuffer_unrecognized b0 b1 b2 b3 rest dc :
  recognized_head (b0 :: b1 :: b2 :: b3 :: rest) = false ->
  processMessageBuffer (b0 :: b1 :: b2 :: b3 :: rest) dc =
    if (16 <? length (b1 :: b2 :: b3 :: rest))%nat then ([], dc)
    else processMessageBuffer (b1 :: b2 :: b3 :: rest) dc.
Proof.
  unfold recognized_head. intros Hhead.
  apply orb_false_elim in Hhead as [Hhead H43].
  apply orb_false_elim in Hhead as [Hhead H55].
  apply orb_false_elim in Hhead as [H53 H4D].
  cbn [processMessageBuffer length Nat.leb].
  rewrite H53, H4D, H55, H43. reflexivity.
Qed.

Lemma processMessageBuffer_short buffer dc :
  (length buffer < 4)%nat -> processMessageBuffer buffer dc = (buffer, dc).
Proof.
  destruct buffer as [|b0 [|b1 [|b2 [|b3 rest]]]]; simpl; intros; try reflexivity.
  lia.
Qed.

(** One turn of the loop on a buffer of at least 4 bytes; the length
    tests of the echo and copy branches hold there. *)
Lemma processMessageBuffer_step b0 b1 b2 b3 rest dc :
  processMessageBuffer (b0 :: b1 :: b2 :: b3 :: rest) dc =
    if (b0 =? 0x53) && (b1 =? 0x05) && (b2 =? 0x00) then
      processMessageBuffer rest (parseButtonState b3 dc)
    else if b0 =? 0x4D then
      processMessageBuffer (b3 :: rest) dc
    else if (b0 =? 0x55) || (b0 =? 0x43) then
      processMessageBuffer (b2 :: b3 :: rest)
        (triggerButtonEvent ButtonUSBCopy false
           (log (ESleep 100) (triggerButtonEvent ButtonUSBCopy true dc)))
    else if (16 <? length (b1 :: b2 :: b3 :: rest))%nat then ([], dc)
    else processMessageBuffer (b1 :: b2 :: b3 :: rest) dc.
Proof.
  cbn [processMessageBuffer length Nat.leb].
  rewrite !andb_true_r. reflexivity.
Qed.

(** The loop always ends with fewer than 4 bytes buffered, and never with
    more than it started with. *)
Lemma processMessageBuffer_bound (n : nat) :
  forall buffer dc,
    (length buffer <= n)%nat ->
    (length (fst (processMessageBuffer buffer dc)) <= 3)%nat /\
    (length (fst (processMessageBuffer buffer dc)) <= length buffer)%nat.
Proof.
  induction n as [|n IH]; intros buffer dc Hlen.
  - destruct buffer; simpl in *; lia.
  - destruct buffer as [|b0 [|b1 [|b2 [|b3 rest]]]]; try (simpl; lia).
    rewrite processMessageBuffer_step.
    cbn [length] in Hlen.
    destruct ((b0 =? 0x53) && (b1 =? 0x05) && (b2 =? 0x00)).
    { destruct (IH rest (parseButtonState b3 dc)) as [? ?]; [lia|].
      cbn [length]. lia. }
    destruct (b0 =? 0x4D).
    { destruct (IH (b3 :: rest) dc) as [? ?]; [cbn [length]; lia|].
      cbn [length] in *. lia. }
    destruct ((b0 =? 0x55) || (b0 =? 0x43)).
    { match goal with
      | |- context [processMessageBuffer _ ?d] =>
          destruct (IH (b2 :: b3 :: rest) d) as [? ?]; [cbn [length]; lia|]
      end.
      cbn [length] in *. lia. }
    destruct (16 <? length (b1 :: b2 :: b3 :: rest))%nat.
    { cbn [fst length]. lia. }
    destruct (IH (b1 :: b2 :: b3 :: rest) dc) as [? ?]; [cbn [length]; lia|].
    cbn [length] in *. lia.
Qed.

(** Up to 17 bytes none of which starts a recognized message are dropped
    one at a time from the front; the last three stay in the buffer. *)
Lemma processMessageBuffer_noise buffer dc :
  Forall noise buffer ->
  (length buffer <= 17)%nat ->
  processMessageBuffer buffer dc = (skipn (length buffer - 3) buffer, dc).
Proof.
  induction buffer as [|b0 rest1 IH]; intros Hnoise Hlen; [reflexivity|].
  destruct rest1 as [|b1 [|b2 [|b3 rest]]]; try reflexivity.
  inversion Hnoise as [|? ? (H53 & H4D & H55 & H43) Hrest]; subst.
  rewrite processMessageBuffer_unrecognized.
  - cbn [length] in Hlen.
    replace (16 <? length (b1 :: b2 :: b3 :: rest))%nat with false
      by (symmetry; apply Nat.ltb_ge; cbn [length]; lia).
    rewrite IH; [|assumption|cbn [length]; lia].
    f_equal. cbn [length].
    replace (S (S (S (S (length rest)))) - 3)%nat with (S (length rest)) by lia.
    replace (S (S (S (length rest))) - 3)%nat with (length rest) by lia.
    reflexivity.
  - unfold recognized_head.
    apply Z.eqb_neq in H53, H4D, H55, H43.
    rewrite H53, H4D, H55, H43. reflexivity.
Qed.

(** C2, as stated, fails: 17 bytes of unrecognized data (seventeen zero
    bytes; no event, no decoded frame) are more than 16, and one call
    leaves three of them in the buffer. *)
Lemma C2_seventeen_bytes_not_cleared :
  let buffer := repeat 0 17 in
  (16 < length buffer)%nat
  /\ Forall noise buffer
  /\ processMessageBuffer buffer (fresh idle_link) = ([0; 0; 0], fresh idle_link)
  /\ fst (processMessageBuffer buffer (fresh idle_link)) <> [].
Proof.
  cbv zeta. split; [simpl; lia|]. split.
  - apply Forall_forall. intros b Hb.
    apply list_elem_of_In, repeat_spec in Hb. subst b.
    unfold noise. lia.
  - split; [reflexivity | discriminate].
Qed.

(** C2 (amended): a buffer of more than 17 bytes whose head is not
    recognized is emptied by one call, with no event and no frame decoded;
    and whatever the buffer holds, one call leaves at most 3 bytes in it
    and never more than it held. *)
Theorem C2_overflow_clears_buffer :
  (forall buffer dc,
     (17 < length buffer)%nat ->
     recognized_head buffer = false ->
     processMessageBuffer buffer dc = ([], dc))
  /\
  (forall buffer dc,
     (length (fst (processMessageBuffer buffer dc)) <= 3)%nat /\
     (length (fst (processMessageBuffer buffer dc)) <= length buffer)%nat).
Proof.
  split.
  - intros buffer dc Hlen Hhead.
    destruct buffer as [|b0 [|b1 [|b2 [|b3 rest]]]]; cbn [length] in Hlen; try lia.
    rewrite processMessageBuffer_unrecognized by assumption.
    replace (16 <? length (b1 :: b2 :: b3 :: rest))%nat with true; [reflexivity|].
    symmetry. apply Nat.ltb_lt. cbn [length]. lia.
  - intros buffer dc. by apply (processMessageBuffer_bound (length buffer)).
Qed.

Lemma C2_overflow_clears_buffer_witness :
  (17 < length (repeat 0 18))%nat
  /\ recognized_head (repeat 0 18) = false
  /\ processMessageBuffer (repeat 0 18) (fresh idle_link) = ([], fresh idle_link).
Proof.
  assert (Hlen : (17 < length (repeat 0 18))%nat) by (simpl; lia).
  assert (Hhead : recognized_head (repeat 0 18) = false) by reflexivity.
  split; [exact Hlen|]. split; [exact Hhead|].
  exact (proj1 C2_overflow_clears_buffer (repeat 0 18) (fresh idle_link) Hlen Hhead).
Defined.

(** The buffer of [monitorButtons] stays below 4 bytes from turn to turn. *)
Lemma monitorButtons_poll_bound messageBuffer dc :
  (length messageBuffer <= 3)%nat ->
  (length (fst (monitorButtons_poll messageBuffer dc)) <= 3)%nat.
Proof.
  intros Hlen. unfold monitorButtons_poll.
  destruct (Serial.ReadAvailable (serialPort dc)) as [[data err] sp].
  destruct err; [exact Hlen|].
  destruct (length data =? 0)%nat; [exact Hlen|].
  destruct (processMessageBuffer (messageBuffer ++ data) (with_serialPort sp dc))
    as [buffer' dc'] eqn:E.
  cbn [fst].
  pose proof (processMessageBuffer_bound _ (messageBuffer ++ data)
                (with_serialPort sp dc) (Nat.le_refl _)) as [Hb _].
  by rewrite E in Hb.
Qed.

End BufferOverflow.

(** ** The serial link *)

Section SerialReads.
Import Serial.

Lemma ReadAvailable_after_nil_error buffer n err :
  snd (ReadAvailable_after buffer n err) = None.
Proof.
  unfold ReadAvailable_after. destruct err as [errMsg|].
  - destruct (_ || _); reflexivity.
  - destruct (n =? 0)%nat; reflexivity.
Qed.

Lemma ReadAvailable_after_failed buffer n errMsg :
  ReadAvailable_after buffer n (Some errMsg) = ([], None).
Proof. unfold ReadAvailable_after. destruct (_ || _); reflexivity. Qed.

Lemma ReadAvailable_after_data buffer n err :
  fst (ReadAvailable_after buffer n err) <> [] ->
  err = None /\ (1 <= n)%nat /\
  fst (ReadAvailable_after buffer n err) = firstn n buffer.
Proof.
  destruct err as [errMsg|].
  - rewrite ReadAvailable_after_failed. simpl. congruence.
  - unfold ReadAvailable_after. destruct (n =? 0)%nat eqn:En; simpl.
    + congruence.
    + apply Nat.eqb_neq in En. intros _. repeat split. lia.
Qed.

(** What [ReadAvailable] slices off the buffer after a read: the bytes
    that arrived, as many as the buffer takes. *)
Lemma port_Read_prefix (data buffer : list Z) :
  let n := Nat.min (length data) (length buffer) in
  firstn n (firstn n data ++ skipn n buffer) = firstn (length buffer) data.
Proof.
  cbv zeta.
  destruct (Nat.le_ge_cases (length data) (length buffer)) as [Hle|Hge].
  - rewrite Nat.min_l by assumption.
    rewrite (firstn_all2 data) by lia.
    rewrite (firstn_all2 data) by lia.
    rewrite firstn_app, Nat.sub_diag, firstn_O, app_nil_r.
    apply firstn_all.
  - rewrite Nat.min_r by assumption.
    rewrite firstn_app, firstn_firstn, Nat.min_id.
    rewrite length_firstn, Nat.min_l by assumption.
    by rewrite Nat.sub_diag, firstn_O, app_nil_r.
Qed.

(** C7: [ReadAvailable] returns a nil error whatever the driver's read
    does. When the read reports an error (a timeout, EOF, no data, or any
    other failure), or reads no byte, or the port is nil, the result is the
    empty slice; bytes are returned only from a read that reported no error
    and at least one byte, and then they are the bytes read. *)
Theorem C7_ReadAvailable_never_errors :
  (forall buffer n err,
     snd (ReadAvailable_after buffer n err) = None
     /\ (err <> None -> fst (ReadAvailable_after buffer n err) = [])
     /\ (n = 0%nat -> fst (ReadAvailable_after buffer n err) = [])
     /\ (fst (ReadAvailable_after buffer n err) <> [] ->
         err = None /\ (1 <= n)%nat /\
         fst (ReadAvailable_after buffer n err) = firstn n buffer))
  /\
  (forall sp,
     snd (fst (ReadAvailable sp)) = None
     /\ (port sp = None -> fst (fst (ReadAvailable sp)) = [])
     /\ (fst (fst (ReadAvailable sp)) <> [] ->
         exists p r rs,
           port sp = Some p /\ reads p = r :: rs /\ rd_err r = None
           /\ (1 <= length (rd_data r))%nat
           /\ fst (fst (ReadAvailable sp)) = firstn 256 (rd_data r))).
Proof.
  split.
  - intros buffer n err. split; [apply ReadAvailable_after_nil_error|].
    split; [|split].
    + destruct err as [errMsg|]; [|congruence].
      intros _. by rewrite ReadAvailable_after_failed.
    + intros ->. destruct err as [errMsg|].
      * by rewrite ReadAvailable_after_failed.
      * reflexivity.
    + apply ReadAvailable_after_data.
  - intros sp. unfold ReadAvailable.
    destruct (port sp) as [p|] eqn:Ep; [|simpl; split; [done|split; [done|congruence]]].
    unfold port_Read.
    destruct (reads p) as [|r rs] eqn:Er.
    + cbn [fst snd]. split; [apply ReadAvailable_after_nil_error|].
      split; [congruence|]. simpl. congruence.
    + cbn [fst snd]. split; [apply ReadAvailable_after_nil_error|].
      split; [congruence|]. intros Hdata.
      apply ReadAvailable_after_data in Hdata as (Herr & Hn & Heq).
      exists p, r, rs. repeat split; try assumption.
      * lia.
      * rewrite Heq, port_Read_prefix. by rewrite repeat_length.
Qed.

Lemma C7_ReadAvailable_never_errors_witness :
  let sp := mkSerialPort (Some (mkPort [mkRead [0x53; 0x05] None] [] [])) in
  fst (fst (ReadAvailable sp)) <> [] /\
  exists p r rs,
    port sp = Some p /\ reads p = r :: rs /\ rd_err r = None
    /\ (1 <= length (rd_data r))%nat
    /\ fst (fst (ReadAvailable sp)) = firstn 256 (rd_data r).
Proof.
  set (sp := mkSerialPort (Some (mkPort [mkRead [0x53; 0x05] None] [] []))).
  assert (Hdata : fst (fst (ReadAvailable sp)) <> []) by (vm_compute; discriminate).
  split; [exact Hdata|].
  exact (proj2 (proj2 (proj2 C7_ReadAvailable_never_errors sp)) Hdata).
Defined.

End SerialReads.

(** ** Line writes *)

Section LineWrites.
Import Display.

Lemma bytes_of_string_append (a b : string) :
  bytes_of_string (String.append a b) = bytes_of_string a ++ bytes_of_string b.
Proof.
  unfold bytes_of_string.
  induction a as [|c a IH]; simpl; [reflexivity|]. by rewrite IH.
Qed.

Lemma bytes_of_string_length (a : string) :
  length (bytes_of_string a) = String.length a.
Proof.
  unfold bytes_of_string.
  induction a as [|c a IH]; simpl; [reflexivity|]. by rewrite IH.
Qed.

Lemma bytes_of_string_substring (n : nat) (a : string) :
  bytes_of_string (String.substring 0 n a) = firstn n (bytes_of_string a).
Proof.
  unfold bytes_of_string.
  revert a. induction n as [|n IH]; intros [|c a]; simpl; try reflexivity.
  by rewrite IH.
Qed.

(** The padding loop adds spaces up to 16 bytes, as far as its turns go. *)
Lemma pad_loop_bytes (turns : nat) :
  forall displayText,
    bytes_of_string (pad_loop turns displayText) =
      bytes_of_string displayText ++
      repeat 0x20 (Nat.min turns (LCD_CHARS_PER_LINE - String.length displayText)).
Proof.
  induction turns as [|turns IH]; intros displayText.
  - simpl. by rewrite app_nil_r.
  - cbn [pad_loop].
    destruct (String.length displayText <? LCD_CHARS_PER_LINE)%nat eqn:Hlt.
    + apply Nat.ltb_lt in Hlt. rewrite IH, bytes_of_string_append.
      rewrite <- app_assoc. f_equal.
      assert (Hlen : String.length (String.append displayText " ")
                     = S (String.length displayText)).
      { rewrite <- !bytes_of_string_length, bytes_of_string_append, length_app.
        simpl. lia. }
      rewrite Hlen.
      replace (Nat.min (S turns) (LCD_CHARS_PER_LINE - String.length displayText))
        with (S (Nat.min turns (LCD_CHARS_PER_LINE - S (String.length displayText))))
        by lia.
      reflexivity.
    + apply Nat.ltb_ge in Hlt.
      replace (LCD_CHARS_PER_LINE - String.length displayText)%nat with 0%nat by lia.
      rewrite Nat.min_0_r. simpl. by rewrite app_nil_r.
Qed.

(** [LCD_CHARS_PER_LINE] turns end the padding loop: its test fails on
    the result. *)
Lemma pad_loop_done (displayText : string) :
  (String.length (pad_loop LCD_CHARS_PER_LINE displayText) <? LCD_CHARS_PER_LINE)%nat
  = false.
Proof.
  apply Nat.ltb_ge.
  rewrite <- bytes_of_string_length, pad_loop_bytes, length_app, repeat_length.
  rewrite bytes_of_string_length. lia.
Qed.

Lemma truncated_padded_length text : length (truncated_padded text) = 16%nat.
Proof.
  unfold truncated_padded.
  rewrite length_firstn, length_app, repeat_length. lia.
Qed.

Lemma firstn_repeat_min {A : Type} (x : A) (n m : nat) :
  firstn n (repeat x m) = repeat x (Nat.min n m).
Proof.
  revert m. induction n as [|n IH]; intros [|m]; simpl; try reflexivity.
  by rewrite IH.
Qed.

Lemma WriteTextAt_command_eq (text : string) (row : Z) :
  WriteTextAt_command text row =
    [0x4D; 0x0C; row mod 256; 0x10] ++ truncated_padded text.
Proof.
  unfold WriteTextAt_command, truncated_padded. f_equal.
  rewrite pad_loop_bytes.
  change LCD_CHARS_PER_LINE with 16%nat.
  destruct (16 <? String.length text)%nat eqn:Hlong.
  - apply Nat.ltb_lt in Hlong.
    rewrite bytes_of_string_substring.
    assert (Hlen : String.length (String.substring 0 16 text) = 16%nat).
    { rewrite <- bytes_of_string_length, bytes_of_string_substring.
      rewrite length_firstn, bytes_of_string_length. lia. }
    rewrite Hlen. simpl repeat at 1. rewrite app_nil_r.
    rewrite firstn_app.
    replace (16 - length (bytes_of_string text))%nat with 0%nat
      by (rewrite bytes_of_string_length; lia).
    by rewrite firstn_O, app_nil_r.
  - apply Nat.ltb_ge in Hlong.
    rewrite firstn_app, firstn_all2 by (rewrite bytes_of_string_length; lia).
    f_equal. rewrite bytes_of_string_length.
    rewrite firstn_repeat_min. f_equal. lia.
Qed.

(** C8: for a row of 0 or 1, [WriteTextAt] hands the serial link one
    20-byte command, [0x4D 0x0C row 0x10] followed by the text cut to 16
    bytes and filled up with spaces to 16 bytes, and returns the link's
    verdict; on a link that takes the write, exactly these bytes go out and
    the result is nil. For any other row it returns the invalid-row error
    and the link is not touched. *)
Theorem C8_WriteTextAt_command (text : string) (row col : Z) (dc : DisplayController) :
  (row = 0 \/ row = 1 ->
     let command := [0x4D; 0x0C; row; 0x10] ++ truncated_padded text in
     length command = 20%nat
     /\ WriteTextAt text row col dc =
          (fst (Serial.Write (serialPort dc) command),
           with_serialPort (snd (Serial.Write (serialPort dc) command)) dc)
     /\ (forall p,
           Serial.port (serialPort dc) = Some p ->
           Serial.writes p = [] ->
           WriteTextAt text row col dc =
             (None,
              with_serialPort
                (Serial.mkSerialPort
                   (Some (Serial.mkPort (Serial.reads p) []
                            (Serial.sent p ++ command))))
                dc)))
  /\
  (row < 0 \/ 1 < row -> WriteTextAt text row col dc = (Some (ErrInvalidRow row), dc)).
Proof.
  split.
  - intros Hrow command.
    assert (Hcmd : WriteTextAt_command text row = command).
    { rewrite WriteTextAt_command_eq. unfold command.
      destruct Hrow as [-> | ->]; reflexivity. }
    assert (Hvalid : (row <? 0) || (1 <? row) = false).
    { destruct Hrow as [-> | ->]; reflexivity. }
    assert (Hlen : length command = 20%nat).
    { unfold command. rewrite length_app, truncated_padded_length. reflexivity. }
    split; [exact Hlen|]. split.
    + unfold WriteTextAt. rewrite Hvalid, Hcmd.
      by destruct (Serial.Write (serialPort dc) command).
    + intros p Hp Hw. unfold WriteTextAt. rewrite Hvalid, Hcmd.
      unfold Serial.Write, Serial.port_Write. rewrite Hp, Hw.
      by rewrite Nat.eqb_refl.
  - intros Hrow. unfold WriteTextAt.
    replace ((row <? 0) || (1 <? row)) with true; [reflexivity|].
    symmetry. apply orb_true_iff.
    destruct Hrow; [left; by apply Z.ltb_lt | right; by apply Z.ltb_lt].
Qed.

Lemma C8_WriteTextAt_command_witness :
  (1 = 0 \/ 1 = 1) /\ (2 < 0 \/ 1 < 2)
  /\ WriteTextAt "Ready" 1 0 (fresh idle_link) =
       (fst (Serial.Write idle_link
               ([0x4D; 0x0C; 1; 0x10] ++ truncated_padded "Ready")),
        with_serialPort
          (snd (Serial.Write idle_link
                  ([0x4D; 0x0C; 1; 0x10] ++ truncated_padded "Ready")))
          (fresh idle_link))
  /\ WriteTextAt "Ready" 2 0 (fresh idle_link) =
       (Some (ErrInvalidRow 2), fresh idle_link).
Proof.
  assert (H1 : 1 = 0 \/ 1 = 1) by (right; reflexivity).
  assert (H2 : 2 < 0 \/ 1 < 2) by (right; lia).
  split; [exact H1|]. split; [exact H2|]. split.
  - exact (proj1 (proj2 (proj1 (C8_WriteTextAt_command "Ready" 1 0 (fresh idle_link)) H1))).
  - exact (proj2 (C8_WriteTextAt_command "Ready" 2 0 (fresh idle_link)) H2).
Defined.

End LineWrites.

(** ** LED registers *)

Section LedFacts.
Import LED.

Lemma bit_of_spec (bit i : Z) :
  0 <= i -> Z.testbit (bit_of bit) i = (i <? 8) && (bit =? i).
Proof.
  intros Hi. unfold bit_of. change 256 with (2 ^ 8).
  rewrite Z.testbit_mod_pow2 by lia. f_equal.
  rewrite Z.shiftl_1_l.
  destruct (Z.le_gt_cases 0 bit) as [Hb|Hb].
  - by apply Z.pow2_bits_eqb.
  - rewrite Z.pow_neg_r by lia. rewrite Z.bits_0.
    symmetry. apply Z.eqb_neq. lia.
Qed.

Lemma applyState_frame leds mask led state i :
  0 <= i ->
  (forall bit, leds !! led = Some bit -> bit <> i) ->
  Z.testbit (applyState leds mask (led, state)) i = Z.testbit mask i.
Proof.
  intros Hi Hne. unfold applyState.
  destruct (leds !! led) as [bit|] eqn:E; [|reflexivity].
  assert (Hbit : Z.testbit (bit_of bit) i = false).
  { rewrite bit_of_spec by assumption.
    replace (bit =? i) with false; [apply andb_false_r|].
    symmetry. apply Z.eqb_neq. by apply Hne. }
  destruct state.
  - rewrite Z.ldiff_spec, Hbit. apply andb_true_r.
  - rewrite Z.lor_spec, Hbit. apply orb_false_r.
Qed.

(** The loop leaves every bit alone that belongs to no LED it sets,
    whatever the order of the entries. *)
Lemma applyStates_frame leds entries i :
  0 <= i ->
  untargeted leds entries i ->
  forall mask, Z.testbit (applyStates leds entries mask) i = Z.testbit mask i.
Proof.
  intros Hi. unfold applyStates.
  induction entries as [|[led state] entries IH]; intros Hun mask; [reflexivity|].
  cbn [fold_left]. rewrite IH.
  - apply applyState_frame; [assumption|].
    intros bit Hbit. apply (Hun led state bit); [by left | assumption].
  - intros led' state' bit' Hin Hbit.
    apply (Hun led' state' bit'); [by right | assumption].
Qed.

(** What [applyState] does to the bit of the LED it sets: cleared to
    light it, set to put it out. *)
Lemma applyState_target leds mask led state bit :
  leds !! led = Some bit -> 0 <= bit < 8 ->
  Z.testbit (applyState leds mask (led, state)) bit = negb state.
Proof.
  intros E Hbit. unfold applyState. rewrite E.
  assert (Hb : Z.testbit (bit_of bit) bit = true).
  { rewrite bit_of_spec by lia. rewrite Z.eqb_refl.
    replace (bit <? 8) with true; [reflexivity|].
    symmetry. apply Z.ltb_lt. lia. }
  destruct state.
  - rewrite Z.ldiff_spec, Hb. apply andb_false_r.
  - rewrite Z.lor_spec, Hb. apply orb_true_r.
Qed.

(** Splits on the outcome of every access to /dev/port in the goal. *)
Ltac port_cases :=
  repeat (match goal with
          | |- context [if dev_fail ?d ?k then _ else _] =>
              destruct (dev_fail d k) eqn:?
          end; simpl).

(** [readPort] changes no register and keeps the fault schedule. *)
Lemma readPort_regs register dev :
  dev_regs (snd (readPort register dev)) = dev_regs dev
  /\ dev_fail (snd (readPort register dev)) = dev_fail dev.
Proof.
  unfold readPort, outb, inb. simpl. port_cases; split; reflexivity.
Qed.

(** On a healthy device [readPort] returns the byte of the register. *)
Lemma readPort_healthy register dev :
  healthy dev ->
  fst (readPort register dev) = (dev_regs dev register mod 256, None).
Proof.
  intros Hok. unfold readPort, outb, inb. simpl.
  rewrite !Hok. simpl. rewrite !Hok. reflexivity.
Qed.

(** [writePort] changes at most the register it names, to the value. *)
Lemma writePort_regs register value dev :
  dev_fail (snd (writePort register value dev)) = dev_fail dev
  /\ (forall r, r <> register ->
        dev_regs (snd (writePort register value dev)) r = dev_regs dev r)
  /\ (dev_regs (snd (writePort register value dev)) register = dev_regs dev register
      \/ dev_regs (snd (writePort register value dev)) register = value).
Proof.
  unfold writePort, outb. simpl. port_cases; (split; [reflexivity|]); split; auto.
  - intros r Hr. apply Z.eqb_neq in Hr. by rewrite Hr.
  - right. by rewrite Z.eqb_refl.
Qed.

Lemma writePort_healthy register value dev :
  healthy dev ->
  fst (writePort register value dev) = None
  /\ dev_regs (snd (writePort register value dev)) register = value.
Proof.
  intros Hok. unfold writePort, outb. simpl.
  rewrite !Hok. simpl. rewrite !Hok. simpl.
  by rewrite Z.eqb_refl.
Qed.

(** A successful [readPort] returns the byte of the register it names. *)
Lemma readPort_value register dev v :
  fst (readPort register dev) = (v, None) ->
  v = dev_regs dev register mod 256.
Proof.
  unfold readPort, outb, inb. simpl. port_cases; congruence.
Qed.

(** [updatePortLEDs] changes at most the register of its port, and writes
    it only to the mask the loop computed from the byte read. *)
Lemma updatePortLEDs_in_regs port entries dev :
  dev_fail (snd (updatePortLEDs_in port entries dev)) = dev_fail dev
  /\ (forall r, r <> register port ->
        dev_regs (snd (updatePortLEDs_in port entries dev)) r = dev_regs dev r)
  /\ (dev_regs (snd (updatePortLEDs_in port entries dev)) (register port)
        = dev_regs dev (register port)
      \/ dev_regs (snd (updatePortLEDs_in port entries dev)) (register port)
        = applyStates (leds port) entries (dev_regs dev (register port) mod 256)).
Proof.
  unfold updatePortLEDs_in.
  pose proof (readPort_regs (register port) dev) as [Hregs Hfail].
  pose proof (readPort_value (register port) dev) as Hval.
  destruct (readPort (register port) dev) as [[currentMask err] dev1].
  cbn [fst snd] in *.
  destruct err as [e|].
  { cbn [snd]. rewrite Hregs, Hfail. auto. }
  specialize (Hval currentMask eq_refl). subst currentMask.
  destruct (negb _).
  - pose proof (writePort_regs (register port)
                  (applyStates (leds port) entries (dev_regs dev (register port) mod 256))
                  dev1) as (Hf & Hother & Hreg).
    destruct (writePort _ _ dev1) as [err dev2]. cbn [snd] in *.
    assert (Hgoal :
      dev_fail dev2 = dev_fail dev
      /\ (forall r, r <> register port -> dev_regs dev2 r = dev_regs dev r)
      /\ (dev_regs dev2 (register port) = dev_regs dev (register port)
          \/ dev_regs dev2 (register port)
             = applyStates (leds port) entries (dev_regs dev (register port) mod 256))).
    { split; [congruence|]. split.
      - intros r Hr. rewrite Hother by assumption. by rewrite Hregs.
      - destruct Hreg as [Hreg|Hreg]; [left|right]; rewrite Hreg; [by rewrite Hregs|done]. }
    destruct err; exact Hgoal.
  - cbn [snd]. rewrite Hregs, Hfail. auto.
Qed.

Lemma testbit_byte (v i : Z) :
  0 <= i < 8 -> Z.testbit (v mod 256) i = Z.testbit v i.
Proof. intros Hi. change 256 with (2 ^ 8). apply Z.mod_pow2_bits_low. lia. Qed.

(** Read-modify-write: a bit of another register, or a bit that belongs to
    none of the LEDs being set, keeps its value, whether or not the
    accesses to the port succeed. *)
Lemma updatePortLEDs_in_frame port entries dev r i :
  0 <= i < 8 ->
  r <> register port \/ untargeted (leds port) entries i ->
  reg_bit (snd (updatePortLEDs_in port entries dev)) r i = reg_bit dev r i.
Proof.
  intros Hi Hframe. unfold reg_bit.
  destruct (updatePortLEDs_in_regs port entries dev) as (_ & Hother & Hreg).
  destruct (Z.eq_dec r (register port)) as [->|Hne].
  - destruct Hframe as [Hne|Hun]; [congruence|].
    destruct Hreg as [-> | ->]; [reflexivity|].
    rewrite applyStates_frame by (assumption || lia).
    by apply testbit_byte.
  - by rewrite Hother.
Qed.

(** On a healthy device [updatePortLEDs] succeeds and leaves the register
    with the bits of the mask. *)
Lemma updatePortLEDs_in_healthy port entries dev :
  healthy dev ->
  fst (updatePortLEDs_in port entries dev) = None
  /\ healthy (snd (updatePortLEDs_in port entries dev))
  /\ forall i, 0 <= i < 8 ->
       reg_bit (snd (updatePortLEDs_in port entries dev)) (register port) i
       = Z.testbit (applyStates (leds port) entries
                      (dev_regs dev (register port) mod 256)) i.
Proof.
  intros Hok.
  assert (Hok' : healthy (snd (updatePortLEDs_in port entries dev))).
  { intros k. destruct (updatePortLEDs_in_regs port entries dev) as (-> & _). apply Hok. }
  split; [|split; [exact Hok'|]]; unfold updatePortLEDs_in, reg_bit in *.
  - pose proof (readPort_healthy (register port) dev Hok) as Hread.
    pose proof (readPort_regs (register port) dev) as [_ Hfail].
    destruct (readPort (register port) dev) as [[currentMask err] dev1].
    cbn [fst snd] in *. inversion Hread; subst.
    destruct (negb _); [|reflexivity].
    assert (Hok1 : healthy dev1) by (intros k; rewrite Hfail; apply Hok).
    pose proof (writePort_healthy (register port)
                  (applyStates (leds port) entries (dev_regs dev (register port) mod 256))
                  dev1 Hok1) as [Hw _].
    destruct (writePort _ _ dev1) as [err dev2]. cbn [fst] in Hw. by subst err.
  - intros i Hi.
    pose proof (readPort_healthy (register port) dev Hok) as Hread.
    pose proof (readPort_regs (register port) dev) as [Hregs Hfail].
    destruct (readPort (register port) dev) as [[currentMask err] dev1].
    cbn [fst snd] in *. inversion Hread; subst.
    destruct (applyStates (leds port) entries (dev_regs dev (register port) mod 256)
              =? dev_regs dev (register port) mod 256) eqn:Hsame; cbn [negb].
    + apply Z.eqb_eq in Hsame. cbn [snd]. rewrite Hsame, Hregs.
      symmetry. by apply testbit_byte.
    + assert (Hok1 : healthy dev1) by (intros k; rewrite Hfail; apply Hok).
      pose proof (writePort_healthy (register port)
                    (applyStates (leds port) entries (dev_regs dev (register port) mod 256))
                    dev1 Hok1) as [Hw Hv].
      destruct (writePort _ _ dev1) as [err dev2]. cbn [fst snd] in *.
      subst err. cbn [snd]. by rewrite Hv.
Qed.

(** [SetLED], with the table lookups folded into [led_place] and the
    one-entry maps listed. *)
Lemma SetLED_unfold lc led on dev :
  SetLED lc led on dev =
    if negb (portPerms lc) then (None, dev)
    else match led_place led with
         | None => (Some (ErrUnknownLED led), dev)
         | Some (r, bit) =>
             updatePortLEDs_in {| register := r; leds := {[ led := bit ]} |}
               [(led, on)] dev
         end.
Proof.
  unfold SetLED, led_place, updatePortLEDs.
  destruct (negb (portPerms lc)); [reflexivity|].
  rewrite map_to_list_singleton.
  destruct (leds statusLEDPort !! led); [reflexivity|].
  destruct (leds diskLEDPort !! led); [reflexivity|].
  destruct (leds usbLEDPort !! led); reflexivity.
Qed.

Lemma untargeted_single led on bit i :
  bit <> i -> untargeted {[ led := bit ]} [(led, on)] i.
Proof.
  intros Hne led' state' bit' [Hin|[]] Hlook.
  inversion Hin; subst. rewrite lookup_singleton_eq in Hlook. congruence.
Qed.

(** [SetLED] leaves every bit alone but the one of its LED. *)
Lemma SetLED_frame lc led on dev r i :
  0 <= i < 8 ->
  led_place led <> Some (r, i) ->
  reg_bit (snd (SetLED lc led on dev)) r i = reg_bit dev r i.
Proof.
  intros Hi Hplace. rewrite SetLED_unfold.
  destruct (negb (portPerms lc)); [reflexivity|].
  destruct (led_place led) as [[r' bit]|]; [|reflexivity].
  apply updatePortLEDs_in_frame; [assumption|]. cbn [register leds].
  destruct (Z.eq_dec r r') as [->|Hne]; [right|by left].
  apply untargeted_single. congruence.
Qed.

(** The bulk setters go through [updatePortLEDs] on their own port and
    inherit its frame. *)
Lemma SetDiskLEDs_frame lc states dev r i :
  0 <= i < 8 ->
  r <> register diskLEDPort
  \/ untargeted (leds diskLEDPort) (map_to_list (ledStates_of states)) i ->
  reg_bit (snd (SetDiskLEDs lc states dev)) r i = reg_bit dev r i.
Proof.
  intros Hi Hframe. unfold SetDiskLEDs, updatePortLEDs.
  destruct (negb (portPerms lc)); [reflexivity|].
  destruct (size (ledStates_of states) =? 0)%nat; [reflexivity|].
  by apply updatePortLEDs_in_frame.
Qed.

Lemma SetStatusLED_frame lc red green dev r i :
  0 <= i < 8 ->
  r <> register statusLEDPort \/ (i <> 2 /\ i <> 3) ->
  reg_bit (snd (SetStatusLED lc red green dev)) r i = reg_bit dev r i.
Proof.
  intros Hi Hframe. unfold SetStatusLED, updatePortLEDs.
  destruct (negb (portPerms lc)); [reflexivity|].
  apply updatePortLEDs_in_frame; [assumption|].
  destruct Hframe as [Hr|[H2 H3]]; [by left|right].
  intros led state bit _ Hbit. cbn [leds statusLEDPort] in Hbit.
  destruct (decide (led = StatusGreen)) as [->|Hg].
  { rewrite lookup_insert_eq in Hbit. congruence. }
  rewrite lookup_insert_ne in Hbit by done.
  destruct (decide (led = StatusRed)) as [->|Hr].
  { rewrite lookup_singleton_eq in Hbit. congruence. }
  rewrite lookup_singleton_ne in Hbit by done. discriminate.
Qed.

(** With permission and a healthy device, [SetLED] of a known LED
    succeeds and leaves its bit cleared when lit, set when put out. *)
Lemma SetLED_healthy lc led on dev r bit :
  portPerms lc = true -> healthy dev ->
  led_place led = Some (r, bit) -> 0 <= bit < 8 ->
  fst (SetLED lc led on dev) = None
  /\ healthy (snd (SetLED lc led on dev))
  /\ reg_bit (snd (SetLED lc led on dev)) r bit = negb on.
Proof.
  intros Hperm Hok Hplace Hbit. rewrite SetLED_unfold, Hperm, Hplace. cbn [negb].
  destruct (updatePortLEDs_in_healthy
              {| register := r; leds := {[ led := bit ]} |} [(led, on)] dev Hok)
    as (Hnil & Hok' & Hbits).
  split; [exact Hnil|]. split; [exact Hok'|].
  cbn [register leds] in Hbits. rewrite Hbits by assumption.
  unfold applyStates. cbn [fold_left].
  apply applyState_target; [apply lookup_singleton_eq | assumption].
Qed.

(** C4: an LED update ([updatePortLEDs], and with it [SetLED],
    [SetDiskLEDs] and [SetStatusLED]) leaves alone every bit of the
    hardware registers that does not belong to a LED it sets, in any order
    of the entries and whether or not the port accesses succeed; so
    [SetLED] of Disk2 leaves Disk1 as it was and [SetLED] of Disk1 leaves
    Disk2 as it was. With
    permission and a healthy device, from any register contents: after
    Disk1 on and Disk2 on both are lit, and after Disk1 off Disk2 is still
    lit and Disk1 is out. *)
Theorem C4_led_update_preserves_other_bits :
  (forall port entries dev r i,
     0 <= i < 8 ->
     r <> register port \/ untargeted (leds port) entries i ->
     reg_bit (snd (updatePortLEDs_in port entries dev)) r i = reg_bit dev r i)
  /\
  (forall lc led on dev r i,
     0 <= i < 8 ->
     led_place led <> Some (r, i) ->
     reg_bit (snd (SetLED lc led on dev)) r i = reg_bit dev r i)
  /\
  (forall lc states dev r i,
     0 <= i < 8 ->
     r <> register diskLEDPort
     \/ untargeted (leds diskLEDPort) (map_to_list (ledStates_of states)) i ->
     reg_bit (snd (SetDiskLEDs lc states dev)) r i = reg_bit dev r i)
  /\
  (forall lc red green dev r i,
     0 <= i < 8 ->
     r <> register statusLEDPort \/ (i <> 2 /\ i <> 3) ->
     reg_bit (snd (SetStatusLED lc red green dev)) r i = reg_bit dev r i)
  /\
  (forall lc on dev,
     led_lit (snd (SetLED lc Disk2 on dev)) Disk1 = led_lit dev Disk1
     /\ led_lit (snd (SetLED lc Disk1 on dev)) Disk2 = led_lit dev Disk2)
  /\
  (forall lc dev,
     portPerms lc = true -> healthy dev ->
     let dev1 := snd (SetLED lc Disk1 true dev) in
     let dev2 := snd (SetLED lc Disk2 true dev1) in
     let dev3 := snd (SetLED lc Disk1 false dev2) in
     led_lit dev1 Disk1 = true
     /\ led_lit dev2 Disk1 = true /\ led_lit dev2 Disk2 = true
     /\ led_lit dev3 Disk2 = true /\ led_lit dev3 Disk1 = false).
Proof.
  assert (Hplace1 : led_place Disk1 = Some (0x81, 0)) by reflexivity.
  assert (Hplace2 : led_place Disk2 = Some (0x81, 1)) by reflexivity.
  assert (Hframe : forall lc on dev,
     led_lit (snd (SetLED lc Disk2 on dev)) Disk1 = led_lit dev Disk1
     /\ led_lit (snd (SetLED lc Disk1 on dev)) Disk2 = led_lit dev Disk2).
  { intros lc on dev. unfold led_lit. rewrite Hplace1, Hplace2.
    split; f_equal; apply SetLED_frame; try lia;
      rewrite ?Hplace1, ?Hplace2; congruence. }
  split; [apply updatePortLEDs_in_frame|].
  split; [apply SetLED_frame|].
  split; [apply SetDiskLEDs_frame|].
  split; [apply SetStatusLED_frame|].
  split; [exact Hframe|].
  intros lc dev Hperm Hok dev1 dev2 dev3.
  destruct (SetLED_healthy lc Disk1 true dev 0x81 0 Hperm Hok Hplace1)
    as (_ & Hok1 & Hbit1); [lia|].
  fold dev1 in Hok1, Hbit1.
  destruct (SetLED_healthy lc Disk2 true dev1 0x81 1 Hperm Hok1 Hplace2)
    as (_ & Hok2 & Hbit2); [lia|].
  fold dev2 in Hok2, Hbit2.
  destruct (SetLED_healthy lc Disk1 false dev2 0x81 0 Hperm Hok2 Hplace1)
    as (_ & _ & Hbit3); [lia|].
  fold dev3 in Hbit3.
  assert (Hlit1 : led_lit dev1 Disk1 = true).
  { unfold led_lit. by rewrite Hplace1, Hbit1. }
  assert (Hlit2 : led_lit dev2 Disk2 = true).
  { unfold led_lit. by rewrite Hplace2, Hbit2. }
  split; [exact Hlit1|]. split.
  { unfold dev2. by rewrite (proj1 (Hframe lc true dev1)). }
  split; [exact Hlit2|]. split.
  { unfold dev3. by rewrite (proj2 (Hframe lc false dev2)). }
  unfold led_lit. by rewrite Hplace1, Hbit3.
Qed.

Lemma C4_led_update_preserves_other_bits_witness :
  let lc := mkLC true in
  let dev1 := snd (SetLED lc Disk1 true quiet_dev) in
  let dev2 := snd (SetLED lc Disk2 true dev1) in
  let dev3 := snd (SetLED lc Disk1 false dev2) in
  (0 <= 5 < 8 /\ led_place Disk1 <> Some (0x81, 5)
   /\ reg_bit dev1 0x81 5 = reg_bit quiet_dev 0x81 5)
  /\ portPerms lc = true /\ healthy quiet_dev
  /\ led_lit dev2 Disk1 = true /\ led_lit dev3 Disk2 = true.
Proof.
  intros lc dev1 dev2 dev3.
  assert (Hi : 0 <= 5 < 8) by lia.
  assert (Hplace : led_place Disk1 <> Some (0x81, 5)) by (vm_compute; congruence).
  assert (Hperm : portPerms lc = true) by reflexivity.
  assert (Hok : healthy quiet_dev) by (intros k; reflexivity).
  split.
  { split; [exact Hi|]. split; [exact Hplace|].
    exact (proj1 (proj2 C4_led_update_preserves_other_bits)
             lc Disk1 true quiet_dev 0x81 5 Hi Hplace). }
  split; [exact Hperm|]. split; [exact Hok|].
  destruct (proj2 (proj2 (proj2 (proj2 (proj2 C4_led_update_preserves_other_bits))))
              lc quiet_dev Hperm Hok)
    as (_ & H2 & _ & H4 & _).
  split; [exact H2 | exact H4].
Defined.

(** C9: without port permission, [SetLED], [SetDiskLEDs] and
    [SetStatusLED] return nil for every argument and leave the device as
    it is: nothing is read, written or even attempted on the ports. *)
Theorem C9_no_permission_no_port_access (lc : LEDController) (dev : PortDev) :
  portPerms lc = false ->
  (forall led on, SetLED lc led on dev = (None, dev))
  /\ (forall states, SetDiskLEDs lc states dev = (None, dev))
  /\ (forall red green, SetStatusLED lc red green dev = (None, dev)).
Proof.
  intros Hperm. unfold SetLED, SetDiskLEDs, SetStatusLED.
  rewrite Hperm. cbn [negb]. auto.
Qed.

Lemma C9_no_permission_no_port_access_witness :
  portPerms (mkLC false) = false
  /\ SetLED (mkLC false) Disk1 true quiet_dev = (None, quiet_dev)
  /\ SetDiskLEDs (mkLC false) {[ 1 := true ]} quiet_dev = (None, quiet_dev)
  /\ SetStatusLED (mkLC false) true false quiet_dev = (None, quiet_dev).
Proof.
  assert (Hperm : portPerms (mkLC false) = false) by reflexivity.
  destruct (C9_no_permission_no_port_access (mkLC false) quiet_dev Hperm)
    as (H1 & H2 & H3).
  split; [exact Hperm|]. split; [apply H1|]. split; [apply H2 | apply H3].
Defined.

End LedFacts.

(** ** Disk activity *)

Section DiskActivity.
Import LED System.

Lemma diskLEDs_of_valid diskNum active :
  1 <= diskNum <= 6 ->
  diskLEDs_of diskNum active = Some {[ disk_led diskNum := active ]}
  /\ led_place (disk_led diskNum) = Some (0x81, diskNum - 1).
Proof.
  intros Hn.
  assert (Hcases : diskNum = 1 \/ diskNum = 2 \/ diskNum = 3
                   \/ diskNum = 4 \/ diskNum = 5 \/ diskNum = 6) by lia.
  destruct Hcases as [-> | [-> | [-> | [-> | [-> | ->]]]]]; split; reflexivity.
Qed.

Lemma diskLEDs_of_invalid diskNum active :
  diskNum < 1 \/ 6 < diskNum -> diskLEDs_of diskNum active = None.
Proof.
  intros Hn. unfold diskLEDs_of.
  repeat match goal with
         | |- context [diskNum =? ?k] =>
             replace (diskNum =? k) with false by (symmetry; apply Z.eqb_neq; lia)
         end.
  reflexivity.
Qed.

(** For a valid index [SetDiskActivity] is one [SetLED] of the disk's
    LED, its error wrapped. *)
Lemma SetDiskActivity_valid lc diskNum active dev :
  1 <= diskNum <= 6 ->
  SetDiskActivity (mkSC (Some lc)) diskNum active dev =
    (match fst (SetLED lc (disk_led diskNum) active dev) with
     | Some e => Some (ErrSetDiskLED diskNum e)
     | None => None
     end,
     snd (SetLED lc (disk_led diskNum) active dev)).
Proof.
  intros Hn. unfold SetDiskActivity. cbn [led].
  rewrite (proj1 (diskLEDs_of_valid diskNum active Hn)).
  rewrite map_to_list_singleton. cbn [setAll].
  destruct (SetLED lc (disk_led diskNum) active dev) as [[e|] dev']; reflexivity.
Qed.

(** C5, as stated, fails: with no LED controller ([sc.led == nil]) the
    index is not looked at, and [SetDiskActivity(0, true)] and
    [SetDiskActivity(7, true)] return nil. *)
Lemma C5_no_led_controller_no_error :
  SetDiskActivity (mkSC None) 0 true quiet_dev = (None, quiet_dev)
  /\ SetDiskActivity (mkSC None) 7 true quiet_dev = (None, quiet_dev)
  /\ fst (SetDiskActivity (mkSC None) 0 true quiet_dev) <> Some (ErrInvalidDisk 0).
Proof. repeat split. discriminate. Qed.

(** C5 (amended): with an LED controller present, [SetDiskActivity]
    returns the invalid-disk error for 0, for 7 and for every index outside
    1..6, whatever the boolean, and touches nothing; for an index from 1
    to 6 it returns nil whenever the [SetLED] of that disk's LED does, as
    it does without port permission and on a healthy device. With no LED
    controller it returns nil for every index. *)
Theorem C5_SetDiskActivity_index_check :
  (forall lc active dev,
     SetDiskActivity (mkSC (Some lc)) 0 active dev = (Some (ErrInvalidDisk 0), dev)
     /\ SetDiskActivity (mkSC (Some lc)) 7 active dev = (Some (ErrInvalidDisk 7), dev))
  /\
  (forall lc diskNum active dev,
     diskNum < 1 \/ 6 < diskNum ->
     SetDiskActivity (mkSC (Some lc)) diskNum active dev
       = (Some (ErrInvalidDisk diskNum), dev))
  /\
  (forall lc diskNum active dev,
     1 <= diskNum <= 6 ->
     (fst (SetLED lc (disk_led diskNum) active dev) = None ->
      fst (SetDiskActivity (mkSC (Some lc)) diskNum active dev) = None)
     /\ (portPerms lc = false \/ healthy dev ->
         fst (SetDiskActivity (mkSC (Some lc)) diskNum active dev) = None))
  /\
  (forall diskNum active dev,
     SetDiskActivity (mkSC None) diskNum active dev = (None, dev)).
Proof.
  assert (Hinvalid : forall lc diskNum active dev,
     diskNum < 1 \/ 6 < diskNum ->
     SetDiskActivity (mkSC (Some lc)) diskNum active dev
       = (Some (ErrInvalidDisk diskNum), dev)).
  { intros lc diskNum active dev Hn. unfold SetDiskActivity. cbn [led].
    by rewrite diskLEDs_of_invalid. }
  split; [|split; [exact Hinvalid|split]].
  - intros lc active dev. split; apply Hinvalid; lia.
  - intros lc diskNum active dev Hn.
    rewrite SetDiskActivity_valid by assumption. cbn [fst].
    split; [by intros ->|].
    intros [Hperm|Hok].
    + unfold SetLED. rewrite Hperm. reflexivity.
    + destruct (portPerms lc) eqn:Hperm.
      * destruct (SetLED_healthy lc (disk_led diskNum) active dev 0x81 (diskNum - 1))
          as (-> & _); auto; [|lia].
        apply (diskLEDs_of_valid diskNum active Hn).
      * unfold SetLED. rewrite Hperm. reflexivity.
  - reflexivity.
Qed.

Lemma C5_SetDiskActivity_index_check_witness :
  (9 < 1 \/ 6 < 9) /\ 1 <= 3 <= 6 /\ healthy quiet_dev
  /\ SetDiskActivity (mkSC (Some (mkLC true))) 9 true quiet_dev
       = (Some (ErrInvalidDisk 9), quiet_dev)
  /\ fst (SetDiskActivity (mkSC (Some (mkLC true))) 3 true quiet_dev) = None.
Proof.
  assert (H9 : 9 < 1 \/ 6 < 9) by (right; lia).
  assert (H3 : 1 <= 3 <= 6) by lia.
  assert (Hok : healthy quiet_dev) by (intros k; reflexivity).
  split; [exact H9|]. split; [exact H3|]. split; [exact Hok|]. split.
  - exact (proj1 (proj2 C5_SetDiskActivity_index_check) (mkLC true) 9 true quiet_dev H9).
  - exact (proj2 (proj1 (proj2 (proj2 C5_SetDiskActivity_index_check))
                    (mkLC true) 3 true quiet_dev H3) (or_intror Hok)).
Defined.

End DiskActivity.

(** ** The USB-copy button *)

Section ButtonPort.
Import Monitor.
Context {R : Type} `{IOPortReader R}.

(** [(value & 0x01) == 0] says that bit 0 of [value] is 0. *)
Lemma land_1_bit0 (value : Z) :
  (Z.land value 0x01 =? 0) = negb (Z.testbit value 0).
Proof.
  change 0x01 with (Z.ones 1). rewrite Z.land_ones by lia.
  rewrite Z.bit0_eqb. change (2 ^ 1) with 2.
  pose proof (Z.mod_pos_bound value 2 ltac:(lia)) as Hm.
  destruct (value mod 2 =? 1) eqn:E.
  - apply Z.eqb_eq in E. rewrite E. reflexivity.
  - apply Z.eqb_neq in E. apply Z.eqb_eq. lia.
Qed.

Lemma IsButtonPressed_ok (m : USBCopyMonitor R) (value : Z) (r : R) :
  closed m = false ->
  ReadByte (ioPort m) = ((value, None), r) ->
  IsButtonPressed m = ((negb (Z.testbit value 0), None), with_ioPort r m).
Proof.
  intros Hopen Hread. unfold IsButtonPressed.
  rewrite Hopen, Hread. by rewrite land_1_bit0.
Qed.

(** One turn of the sampling loop when the read succeeds. *)
Lemma sample_loop_step (turns : nat) (i pressedCount : Z)
    (m : USBCopyMonitor R) (value : Z) (r : R) :
  i < sampleCount ->
  closed m = false ->
  ReadByte (ioPort m) = ((value, None), r) ->
  sample_loop (S turns) i pressedCount m =
    sample_loop turns (i + 1)
      (pressedCount + Z.b2z (negb (Z.testbit value 0)))
      (if i <? sampleCount - 1
       then sleep (debounceTime / sampleCount) (with_ioPort r m)
       else with_ioPort r m).
Proof.
  intros Hi Hopen Hread. cbn [sample_loop].
  replace (i <? sampleCount) with true by (symmetry; by apply Z.ltb_lt).
  rewrite (IsButtonPressed_ok m value r Hopen Hread).
  destruct (negb (Z.testbit value 0)); cbn [Z.b2z];
    rewrite ?Z.add_0_r; reflexivity.
Qed.

(** C6: the raw read reports pressed exactly when bit 0 of the port byte
    is 0. The debounced read takes three samples, sleeping a third of the
    debounce time after the first and the second, and reports pressed
    exactly when at least two of the three are pressed; so it reports the
    value two samples agree on, whatever the third. *)
Theorem C6_debounced_read_is_majority
    (m : USBCopyMonitor R) (v1 v2 v3 : Z) (r1 r2 r3 : R) :
  closed m = false ->
  ReadByte (ioPort m) = ((v1, None), r1) ->
  ReadByte r1 = ((v2, None), r2) ->
  ReadByte r2 = ((v3, None), r3) ->
  let p1 := negb (Z.testbit v1 0) in
  let p2 := negb (Z.testbit v2 0) in
  let p3 := negb (Z.testbit v3 0) in
  IsButtonPressed m = ((p1, None), with_ioPort r1 m)
  /\ GetButtonState m =
       ((1 <? Z.b2z p1 + Z.b2z p2 + Z.b2z p3, None),
        {| ioPort := r3; closed := false;
           sleeps := sleeps m ++ [6666666; 6666666] |})
  /\ (fst (fst (GetButtonState m)) = true <-> 2 <= Z.b2z p1 + Z.b2z p2 + Z.b2z p3)
  /\ (forall p,
        (p1 = p /\ p2 = p) \/ (p1 = p /\ p3 = p) \/ (p2 = p /\ p3 = p) ->
        fst (fst (GetButtonState m)) = p).
Proof.
  intros Hopen H1 H2 H3 p1 p2 p3.
  assert (Hget : GetButtonState m =
       ((1 <? Z.b2z p1 + Z.b2z p2 + Z.b2z p3, None),
        {| ioPort := r3; closed := false;
           sleeps := sleeps m ++ [6666666; 6666666] |})).
  { unfold GetButtonState. change (Z.to_nat sampleCount) with 3%nat.
    rewrite (sample_loop_step 2 0 0 m v1 r1) by (done || reflexivity).
    rewrite (sample_loop_step 1 (0 + 1) _ _ v2 r2)
      by (reflexivity || (cbn; assumption)).
    rewrite (sample_loop_step 0 (0 + 1 + 1) _ _ v3 r3)
      by (reflexivity || (cbn; assumption)).
    cbn [sample_loop]. fold p1 p2 p3.
    change (sampleCount / 2) with 1.
    change (debounceTime / sampleCount) with 6666666.
    change (0 + 1 + 1 <? sampleCount - 1) with false.
    change (0 + 1 <? sampleCount - 1) with true.
    change (0 <? sampleCount - 1) with true.
    unfold sleep, with_ioPort. cbn [ioPort closed sleeps].
    rewrite Hopen, <- app_assoc, Z.add_0_l. reflexivity. }
  split; [by apply IsButtonPressed_ok|].
  split; [exact Hget|].
  rewrite Hget. cbn [fst]. split.
  - rewrite Z.ltb_lt. lia.
  - intros p Hp.
    destruct p1, p2, p3, p; cbn; try reflexivity;
      destruct Hp as [[? ?]|[[? ?]|[? ?]]]; congruence.
Qed.

End ButtonPort.

Lemma C6_debounced_read_is_majority_witness :
  let m := Monitor.mkMonitor [(0xFE, None); (0xFF, None); (0xFE, None)] false [] in
  Monitor.closed m = false
  /\ fst (Monitor.IsButtonPressed m) = (true, None)
  /\ fst (Monitor.GetButtonState m) = (true, None).
Proof.
  intros m.
  assert (Hopen : Monitor.closed m = false) by reflexivity.
  assert (Hr1 : Monitor.ReadByte (Monitor.ioPort m)
                = ((0xFE, None), [(0xFF, None); (0xFE, None)])) by reflexivity.
  assert (Hr2 : Monitor.ReadByte [(0xFF, None); (0xFE, None)]
                = ((0xFF, None), [(0xFE, None)])) by reflexivity.
  assert (Hr3 : Monitor.ReadByte [(0xFE, None)] = ((0xFE, None), []))
    by reflexivity.
  destruct (C6_debounced_read_is_majority m 0xFE 0xFF 0xFE _ _ _
              Hopen Hr1 Hr2 Hr3) as (H1 & H2 & _).
  split; [exact Hopen|]. split.
  - rewrite H1. reflexivity.
  - rewrite H2. reflexivity.
Defined.

(** * Further properties *)

(** ** Frame streams *)

Section FrameStreams.
Import Display.

(** The controller after the button frames of [states], in order. *)
Lemma processMessageBuffer_frames (states : list Z) :
  forall rest dc,
    processMessageBuffer (flat_map button_frame states ++ rest) dc =
    processMessageBuffer rest
      (fold_left (fun dc s => parseButtonState s dc) states dc).
Proof.
  induction states as [|s states IH]; intros rest dc; [reflexivity|].
  cbn [flat_map button_frame app fold_left].
  rewrite processMessageBuffer_step.
  change ((0x53 =? 0x53) && (0x05 =? 0x05) && (0x00 =? 0x00)) with true.
  cbv iota. apply IH.
Qed.

Lemma fold_parse_parsed (states : list Z) :
  forall dc,
    parsed (effects (fold_left (fun dc s => parseButtonState s dc) states dc))
    = parsed (effects dc) ++ states.
Proof.
  induction states as [|s states IH]; intros dc; cbn [fold_left].
  - by rewrite app_nil_r.
  - rewrite IH, parseButtonState_parsed. by rewrite <- app_assoc.
Qed.

(** X1: any number of button frames received back to back in one buffer
    are all decoded, in order, and the buffer is left empty; bytes of an
    unfinished frame behind them (fewer than 4) stay buffered. *)
Theorem X1_frame_stream_decoded_in_order (states : list Z) (rest : list Z)
    (dc : DisplayController) :
  (length rest < 4)%nat ->
  let r := processMessageBuffer (flat_map button_frame states ++ rest) dc in
  fst r = rest
  /\ parsed (effects (snd r)) = parsed (effects dc) ++ states.
Proof.
  intros Hrest. cbv zeta.
  rewrite processMessageBuffer_frames, processMessageBuffer_short by assumption.
  cbn [fst snd]. split; [reflexivity|]. apply fold_parse_parsed.
Qed.

Lemma X1_frame_stream_decoded_in_order_witness :
  (length [0x53; 0x05] < 4)%nat
  /\ let r := processMessageBuffer
                (flat_map button_frame [0xFF; 0xFE; 0xFB] ++ [0x53; 0x05])
                (fresh idle_link) in
     fst r = [0x53; 0x05] /\ parsed (effects (snd r)) = [0xFF; 0xFE; 0xFB].
Proof.
  assert (Hlen : (length [0x53; 0x05] < 4)%nat) by (simpl; lia).
  split; [exact Hlen|].
  exact (X1_frame_stream_decoded_in_order [0xFF; 0xFE; 0xFB] [0x53; 0x05]
           (fresh idle_link) Hlen).
Defined.

(** Noise in front of at least 3 more bytes, 17 bytes at most in all, is
    dropped byte by byte. *)
Lemma processMessageBuffer_skips_noise (pre : list Z) :
  forall buffer dc,
    Forall noise pre ->
    (length (pre ++ buffer) <= 17)%nat ->
    (3 <= length buffer)%nat ->
    processMessageBuffer (pre ++ buffer) dc = processMessageBuffer buffer dc.
Proof.
  induction pre as [|b0 pre IH]; intros buffer dc Hnoise Hlen Hbuf; [reflexivity|].
  inversion Hnoise as [|? ? (H53 & H4D & H55 & H43) Hpre]; subst.
  cbn [app] in *.
  assert (Htail : (3 <= length (pre ++ buffer))%nat)
    by (rewrite length_app; lia).
  destruct (pre ++ buffer) as [|b1 [|b2 [|b3 rest]]] eqn:E;
    cbn [length] in Htail; try lia.
  rewrite processMessageBuffer_unrecognized.
  - cbn [length] in Hlen.
    replace (16 <? length (b1 :: b2 :: b3 :: rest))%nat with false
      by (symmetry; apply Nat.ltb_ge; cbn [length]; lia).
    rewrite <- E. apply IH; [assumption| |assumption].
    rewrite E. cbn [length]. lia.
  - unfold recognized_head.
    apply Z.eqb_neq in H53, H4D, H55, H43.
    rewrite H53, H4D, H55, H43. reflexivity.
Qed.

(** X2: the extraction finds its way back into step: up to 13 bytes that
    start no recognized message, followed by a whole button frame, are
    dropped and the frame is decoded, once, with the buffer left empty. *)
Theorem X2_resynchronizes_after_noise (pre : list Z) (s : Z)
    (dc : DisplayController) :
  Forall noise pre ->
  (length pre <= 13)%nat ->
  processMessageBuffer (pre ++ button_frame s) dc = ([], parseButtonState s dc).
Proof.
  intros Hnoise Hlen.
  rewrite processMessageBuffer_skips_noise; try assumption.
  - apply processMessageBuffer_frame.
  - rewrite length_app. simpl. lia.
  - simpl. lia.
Qed.

Lemma X2_resynchronizes_after_noise_witness :
  Forall noise [0x00; 0x07; 0xFF] /\ (length [0x00; 0x07; 0xFF] <= 13)%nat
  /\ processMessageBuffer ([0x00; 0x07; 0xFF] ++ button_frame 0xFE) (fresh idle_link)
     = ([], parseButtonState 0xFE (fresh idle_link)).
Proof.
  assert (Hnoise : Forall noise [0x00; 0x07; 0xFF]).
  { repeat (constructor; [unfold noise; lia|]). constructor. }
  assert (Hlen : (length [0x00; 0x07; 0xFF] <= 13)%nat) by (simpl; lia).
  split; [exact Hnoise|]. split; [exact Hlen|].
  exact (X2_resynchronizes_after_noise [0x00; 0x07; 0xFF] 0xFE (fresh idle_link)
           Hnoise Hlen).
Defined.

End FrameStreams.

(** ** What frame extraction keeps and what it dispatches *)

Section Dispatch.
Import Display.

Lemma dispatched_app (l1 l2 : list Effect) :
  dispatched (l1 ++ l2) = dispatched l1 ++ dispatched l2.
Proof. unfold dispatched. apply flat_map_app. Qed.

Lemma continues_refl dc : continues dc dc [].
Proof.
  unfold continues. rewrite app_nil_r.
  repeat split. by destruct (buttonHandler dc).
Qed.

Lemma continues_trans dc dc1 dc2 l1 l2 :
  continues dc dc1 l1 -> continues dc1 dc2 l2 -> continues dc dc2 (l1 ++ l2).
Proof.
  intros (Hs1 & Hh1 & He1 & Hd1) (Hs2 & Hh2 & He2 & Hd2).
  unfold continues. repeat split.
  - congruence.
  - congruence.
  - rewrite He2, He1. by rewrite app_assoc.
  - rewrite dispatched_app, Hd1, Hd2, Hh1, emitted_app.
    by destruct (buttonHandler dc).
Qed.

Lemma continues_sleep ms dc : continues dc (log (ESleep ms) dc) [ESleep ms].
Proof. unfold continues. repeat split. by destruct (buttonHandler dc). Qed.

Lemma continues_parse_entry s dc : continues dc (log (EParse s) dc) [EParse s].
Proof. unfold continues. repeat split. by destruct (buttonHandler dc). Qed.

Lemma continues_trigger b p dc :
  exists l, continues dc (triggerButtonEvent b p dc) l.
Proof.
  unfold triggerButtonEvent, continues. cbn [log buttonHandler].
  destruct (buttonHandler dc) eqn:Hh.
  - exists [ETrigger b p; EDispatch b p]. cbn. rewrite Hh, <- app_assoc. auto.
  - exists [ETrigger b p]. cbn. rewrite Hh. auto.
Qed.

Lemma continues_checkAndTrigger b p dc :
  exists l, continues dc (checkAndTrigger b p dc) l.
Proof.
  unfold checkAndTrigger. rewrite checkButtonStateChange_spec.
  destruct (changed (lastButtonState dc) b p).
  - destruct (continues_trigger b p
                (with_lastButtonState (<[b := p]> (lastButtonState dc)) dc))
      as [l Hl].
    exists l. exact Hl.
  - exists []. apply continues_refl.
Qed.

Lemma continues_parseButtonState s dc :
  exists l, continues dc (parseButtonState s dc) l.
Proof.
  unfold parseButtonState.
  destruct (continues_checkAndTrigger ButtonEnter (enterPressed s)
              (log (EParse s) dc)) as [l1 H1].
  destruct (continues_checkAndTrigger ButtonSelect (selectPressed s)
              (checkAndTrigger ButtonEnter (enterPressed s) (log (EParse s) dc)))
    as [l2 H2].
  destruct (continues_checkAndTrigger ButtonUSBCopy (usbCopyPressed s)
              (checkAndTrigger ButtonSelect (selectPressed s)
                 (checkAndTrigger ButtonEnter (enterPressed s) (log (EParse s) dc))))
    as [l3 H3].
  eexists.
  eapply continues_trans; [apply continues_parse_entry|].
  eapply continues_trans; [exact H1|].
  eapply continues_trans; [exact H2|exact H3].
Qed.

Lemma continues_processMessageBuffer (n : nat) :
  forall buffer dc,
    (length buffer <= n)%nat ->
    exists l, continues dc (snd (processMessageBuffer buffer dc)) l.
Proof.
  induction n as [|n IH]; intros buffer dc Hlen.
  - destruct buffer; [|simpl in Hlen; lia]. exists []. apply continues_refl.
  - destruct buffer as [|b0 [|b1 [|b2 [|b3 rest]]]];
      try (exists []; apply continues_refl).
    rewrite processMessageBuffer_step. cbn [length] in Hlen.
    destruct ((b0 =? 0x53) && (b1 =? 0x05) && (b2 =? 0x00)).
    { destruct (continues_parseButtonState b3 dc) as [l1 H1].
      destruct (IH rest (parseButtonState b3 dc)) as [l2 H2]; [lia|].
      eexists. eapply continues_trans; eassumption. }
    destruct (b0 =? 0x4D).
    { apply IH. cbn [length]. lia. }
    destruct ((b0 =? 0x55) || (b0 =? 0x43)).
    { destruct (continues_trigger ButtonUSBCopy true dc) as [l1 H1].
      pose proof (continues_sleep 100 (triggerButtonEvent ButtonUSBCopy true dc)) as H2.
      destruct (continues_trigger ButtonUSBCopy false
                  (log (ESleep 100) (triggerButtonEvent ButtonUSBCopy true dc)))
        as [l3 H3].
      destruct (IH (b2 :: b3 :: rest)
                  (triggerButtonEvent ButtonUSBCopy false
                     (log (ESleep 100) (triggerButtonEvent ButtonUSBCopy true dc))))
        as [l4 H4]; [cbn [length]; lia|].
      eexists.
      eapply continues_trans; [exact H1|].
      eapply continues_trans; [exact H2|].
      eapply continues_trans; [exact H3|exact H4]. }
    destruct (16 <? length (b1 :: b2 :: b3 :: rest))%nat.
    { exists []. apply continues_refl. }
    apply IH. cbn [length]. lia.
Qed.

(** X3: frame extraction never touches the serial link or the handler
    registration and only appends to the log; of the events it emits, each
    one starts a handler call, in the same order, when a handler is
    registered, and none does when no handler is registered. *)
Theorem X3_extraction_dispatches_each_event_once (buffer : list Z)
    (dc : DisplayController) :
  let dc' := snd (processMessageBuffer buffer dc) in
  serialPort dc' = serialPort dc
  /\ buttonHandler dc' = buttonHandler dc
  /\ exists l,
       effects dc' = effects dc ++ l
       /\ dispatched l = (if buttonHandler dc then emitted l else []).
Proof.
  destruct (continues_processMessageBuffer (length buffer) buffer dc (Nat.le_refl _))
    as [l (Hs & Hh & He & Hd)].
  cbv zeta. split; [exact Hs|]. split; [exact Hh|]. by exists l.
Qed.

(** [(state & 2^k) == 0] says that bit [k] of [state] is 0. *)
Lemma land_pow2_eqb (state k : Z) :
  0 <= k -> (Z.land state (2 ^ k) =? 0) = negb (Z.testbit state k).
Proof.
  intros Hk. destruct (Z.testbit state k) eqn:E; cbn [negb].
  - apply Z.eqb_neq. intros H0.
    assert (Hbit : Z.testbit (Z.land state (2 ^ k)) k = true).
    { rewrite Z.land_spec, E, Z.pow2_bits_true by assumption. reflexivity. }
    rewrite H0, Z.bits_0 in Hbit. discriminate.
  - apply Z.eqb_eq. apply Z.bits_inj'. intros n Hn.
    rewrite Z.land_spec, Z.bits_0, Z.pow2_bits_eqb by assumption.
    destruct (k =? n) eqn:Ekn.
    + apply Z.eqb_eq in Ekn. subst n. rewrite E. reflexivity.
    + apply andb_false_r.
Qed.

Lemma enterPressed_bit s : enterPressed s = negb (Z.testbit s 0).
Proof. apply (land_pow2_eqb s 0). lia. Qed.

Lemma selectPressed_bit s : selectPressed s = negb (Z.testbit s 1).
Proof. apply (land_pow2_eqb s 1). lia. Qed.

Lemma usbCopyPressed_bit s : usbCopyPressed s = Z.testbit s 2.
Proof.
  unfold usbCopyPressed. change buttonUSBCopyBit with (2 ^ 2).
  rewrite land_pow2_eqb by lia. apply negb_involutive.
Qed.

Lemma land_7_bits (s s' : Z) :
  Z.land s 7 = Z.land s' 7 <->
  Z.testbit s 0 = Z.testbit s' 0 /\ Z.testbit s 1 = Z.testbit s' 1
  /\ Z.testbit s 2 = Z.testbit s' 2.
Proof.
  split.
  - intros Heq.
    assert (Hbit : forall i, Z.testbit 7 i = true ->
                     Z.testbit s i = Z.testbit s' i).
    { intros i Hi.
      assert (H : Z.testbit (Z.land s 7) i = Z.testbit (Z.land s' 7) i)
        by (by rewrite Heq).
      rewrite !Z.land_spec, Hi, !andb_true_r in H. exact H. }
    repeat split; apply Hbit; reflexivity.
  - intros (H0 & H1 & H2). apply Z.bits_inj'. intros n Hn.
    rewrite !Z.land_spec.
    assert (Hcases : n = 0 \/ n = 1 \/ n = 2 \/ 3 <= n) by lia.
    destruct Hcases as [-> | [-> | [-> | Hhigh]]]; try congruence.
    change 7 with (Z.ones 3). rewrite Z.ones_spec_high by lia.
    by rewrite !andb_false_r.
Qed.

(** X4: a button frame that follows another one emits exactly one event
    for each of bits 0, 1 and 2 in which the two state bytes differ
    (ENTER and SELECT pressed when their bit is 0, USB_COPY pressed when
    its bit is 1), whatever was recorded before; bits 3 to 7 are ignored,
    so it emits nothing exactly when the two bytes agree on their low
    three bits. *)
Theorem X4_events_are_the_changed_bits (s s' : Z) (dc : DisplayController) :
  let dc1 := parseButtonState s dc in
  let dc2 := parseButtonState s' dc1 in
  emitted (effects dc2) = emitted (effects dc1) ++ edge_events s s'
  /\ (edge_events s s' = [] <-> Z.land s 7 = Z.land s' 7).
Proof.
  cbv zeta. split.
  - rewrite parseButtonState_emitted, parseButtonState_records.
    rewrite (events_of_records s s') by apply records_recorded.
    unfold edge_events.
    rewrite !enterPressed_bit, !selectPressed_bit, !usbCopyPressed_bit.
    destruct (Z.testbit s 0), (Z.testbit s' 0), (Z.testbit s 1),
      (Z.testbit s' 1); reflexivity.
  - rewrite land_7_bits. unfold edge_events.
    destruct (Z.testbit s 0), (Z.testbit s' 0), (Z.testbit s 1),
      (Z.testbit s' 1), (Z.testbit s 2), (Z.testbit s' 2);
      cbn; split; intros H; try reflexivity; try discriminate H;
      try (destruct H as (H0 & H1 & H2); discriminate); auto.
Qed.

End Dispatch.

(** ** Display writes *)

Section DisplayWrites.
Import Display.

(** On a link that takes writes, [Write] sends the data and the link
    still takes writes. *)
Lemma Serial_Write_takes sp data :
  takes_writes sp ->
  fst (Serial.Write sp data) = None
  /\ takes_writes (snd (Serial.Write sp data))
  /\ sent_bytes (snd (Serial.Write sp data)) = sent_bytes sp ++ data.
Proof.
  intros (p & Hp & Hw). unfold Serial.Write, Serial.port_Write, sent_bytes.
  rewrite Hp, Hw, Nat.eqb_refl. cbn.
  split; [reflexivity|]. split; [|reflexivity].
  eexists. split; reflexivity.
Qed.

Lemma WriteTextAt_takes text row col dc :
  takes_writes (serialPort dc) ->
  row = 0 \/ row = 1 ->
  fst (WriteTextAt text row col dc) = None
  /\ takes_writes (serialPort (snd (WriteTextAt text row col dc)))
  /\ sent_bytes (serialPort (snd (WriteTextAt text row col dc)))
     = sent_bytes (serialPort dc) ++ line_command row text
  /\ effects (snd (WriteTextAt text row col dc)) = effects dc
  /\ lastButtonState (snd (WriteTextAt text row col dc)) = lastButtonState dc.
Proof.
  intros Htakes Hrow. unfold WriteTextAt.
  replace ((row <? 0) || (1 <? row)) with false
    by (destruct Hrow as [-> | ->]; reflexivity).
  rewrite WriteTextAt_command_eq.
  replace (row mod 256) with row by (destruct Hrow as [-> | ->]; reflexivity).
  fold (line_command row text).
  destruct (Serial_Write_takes (serialPort dc) (line_command row text) Htakes)
    as (Hnil & Htakes' & Hsent).
  destruct (Serial.Write (serialPort dc) (line_command row text)) as [err sp].
  cbn [fst snd] in *. cbn [with_serialPort serialPort effects lastButtonState].
  auto.
Qed.

Lemma split_lines_single (line : string) :
  no_newline line = true -> split_lines line = [line].
Proof.
  induction line as [|c line IH]; intros Hline; [reflexivity|].
  cbn [no_newline] in Hline. apply andb_true_iff in Hline as [Hc Hrest].
  cbn [split_lines]. apply negb_true_iff in Hc. rewrite Hc.
  by rewrite IH.
Qed.

Lemma split_lines_cons (line rest : string) :
  no_newline line = true ->
  split_lines (String.append line (String.append newline rest))
  = line :: split_lines rest.
Proof.
  induction line as [|c line IH]; intros Hline; [reflexivity|].
  cbn [no_newline] in Hline. apply andb_true_iff in Hline as [Hc Hrest].
  change (String.append (String c line) (String.append newline rest))
    with (String c (String.append line (String.append newline rest))).
  cbn [split_lines]. apply negb_true_iff in Hc. rewrite Hc.
  by rewrite IH.
Qed.

(** Splitting at the newlines gives back the lines that were joined. *)
Lemma split_lines_join (lines : list string) :
  lines <> [] ->
  Forall (fun line => no_newline line = true) lines ->
  split_lines (join_lines lines) = lines.
Proof.
  induction lines as [|line lines IH]; intros Hne Hlines; [congruence|].
  inversion Hlines as [|? ? Hline Hrest]; subst.
  destruct lines as [|line' lines].
  - apply split_lines_single. assumption.
  - cbn [join_lines]. rewrite split_lines_cons by assumption.
    f_equal. apply IH; [congruence | assumption].
Qed.

Lemma truncated_padded_truncate_line (line : string) :
  truncated_padded (truncate_line line) = truncated_padded line.
Proof.
  unfold truncate_line, truncated_padded.
  destruct (16 <? String.length line)%nat eqn:Hlong; [|reflexivity].
  apply Nat.ltb_lt in Hlong.
  rewrite bytes_of_string_substring.
  rewrite !firstn_app, firstn_firstn, Nat.min_id.
  rewrite length_firstn, bytes_of_string_length.
  replace (16 - Nat.min 16 (String.length line))%nat with 0%nat by lia.
  replace (16 - String.length line)%nat with 0%nat by lia.
  reflexivity.
Qed.

(** A first write that fails ends [WriteTextAt] with the link's error,
    one scheduled outcome used up. *)
Lemma WriteTextAt_write_fails text row col dc p w ws e :
  row = 0 \/ row = 1 ->
  Serial.port (serialPort dc) = Some p ->
  Serial.writes p = w :: ws ->
  Serial.wr_err w = Some e ->
  fst (WriteTextAt text row col dc) = Some (ErrSerialWrite (ErrMsg e))
  /\ exists p', Serial.port (serialPort (snd (WriteTextAt text row col dc))) = Some p'
                /\ Serial.writes p' = ws.
Proof.
  intros Hrow Hp Hw He. unfold WriteTextAt.
  replace ((row <? 0) || (1 <? row)) with false
    by (destruct Hrow as [-> | ->]; reflexivity).
  unfold Serial.Write, Serial.port_Write. rewrite Hp, Hw, He.
  cbn [fst snd with_serialPort serialPort].
  split; [reflexivity|]. eexists. split; reflexivity.
Qed.

Lemma WriteText_lines (lines : list string) (dc : DisplayController) :
  lines <> [] ->
  Forall (fun line => no_newline line = true) lines ->
  WriteText (join_lines lines) dc =
    WriteText_loop 0 [truncate_line (nth 0 lines EmptyString);
                      truncate_line (nth 1 lines EmptyString)] dc.
Proof.
  intros Hne Hlines. unfold WriteText.
  rewrite split_lines_join by assumption.
  destruct lines as [|l0 [|l1 lines]]; [congruence| |]; reflexivity.
Qed.

(** Two lines on a link that takes writes. *)
Lemma WriteText_loop_takes (line0 line1 : string) (dc : DisplayController) :
  takes_writes (serialPort dc) ->
  fst (WriteText_loop 0 [line0; line1] dc) = None
  /\ sent_bytes (serialPort (snd (WriteText_loop 0 [line0; line1] dc)))
     = sent_bytes (serialPort dc) ++ line_command 0 line0 ++ line_command 1 line1.
Proof.
  intros Htakes. cbn [WriteText_loop].
  destruct (WriteTextAt_takes line0 0 0 dc Htakes)
    as (Hnil0 & Htakes0 & Hsent0 & _); [by left|].
  destruct (WriteTextAt line0 0 0 dc) as [err0 dc0].
  cbn [fst snd] in Hnil0, Htakes0, Hsent0. subst err0.
  destruct (WriteTextAt_takes line1 (0 + 1) 0 dc0 Htakes0)
    as (Hnil1 & _ & Hsent1 & _); [by right|].
  destruct (WriteTextAt line1 (0 + 1) 0 dc0) as [err1 dc1].
  cbn [fst snd] in Hnil1, Hsent1. subst err1.
  cbn [fst snd]. split; [reflexivity|].
  rewrite Hsent1, Hsent0. by rewrite <- app_assoc.
Qed.

Lemma line_command_truncate_line row line :
  line_command row (truncate_line line) = line_command row line.
Proof. unfold line_command. by rewrite truncated_padded_truncate_line. Qed.

(** X5: [WriteText] of lines joined by newlines sends, on a link that
    takes writes, two line commands and nothing else: row 0 with the first
    line and row 1 with the second (16 spaces when there is none), each
    cut or padded to 16 bytes; lines after the second are dropped. When
    the write of row 0 fails, the error names line 0 and row 1 is not
    attempted. *)
Theorem X5_WriteText_two_lines :
  (forall lines dc,
     lines <> [] ->
     Forall (fun line => no_newline line = true) lines ->
     takes_writes (serialPort dc) ->
     let r := WriteText (join_lines lines) dc in
     fst r = None
     /\ sent_bytes (serialPort (snd r))
        = sent_bytes (serialPort dc)
          ++ line_command 0 (nth 0 lines EmptyString)
          ++ line_command 1 (nth 1 lines EmptyString))
  /\
  (forall text dc p w ws e,
     Serial.port (serialPort dc) = Some p ->
     Serial.writes p = w :: ws ->
     Serial.wr_err w = Some e ->
     let r := WriteText text dc in
     fst r = Some (ErrWriteLine 0 (ErrSerialWrite (ErrMsg e)))
     /\ exists p', Serial.port (serialPort (snd r)) = Some p'
                   /\ Serial.writes p' = ws).
Proof.
  split.
  - intros lines dc Hne Hlines Htakes. cbv zeta.
    rewrite WriteText_lines by assumption.
    destruct (WriteText_loop_takes (truncate_line (nth 0 lines EmptyString))
                (truncate_line (nth 1 lines EmptyString)) dc Htakes) as [Hnil Hsent].
    split; [exact Hnil|].
    rewrite Hsent. by rewrite !line_command_truncate_line.
  - intros text dc p w ws e Hp Hw He. cbv zeta. unfold WriteText.
    cbn [map WriteText_loop].
    match goal with
    | |- context [WriteTextAt ?l 0 0 dc] =>
        destruct (WriteTextAt_write_fails l 0 0 dc p w ws e (or_introl eq_refl) Hp Hw He)
          as (Herr & p' & Hp' & Hw');
        destruct (WriteTextAt l 0 0 dc) as [err0 dc0]
    end.
    cbn [fst snd] in Herr, Hp', Hw'. subst err0. cbn [fst snd].
    split; [reflexivity|]. by exists p'.
Qed.

Lemma X5_WriteText_two_lines_witness :
  let lines := ["Disk OK"%string; "42 C"%string; "dropped"%string] in
  lines <> [] /\ Forall (fun line => no_newline line = true) lines
  /\ takes_writes idle_link
  /\ sent_bytes (serialPort (snd (WriteText (join_lines lines) (fresh idle_link))))
     = line_command 0 "Disk OK" ++ line_command 1 "42 C".
Proof.
  intros lines.
  assert (Hne : lines <> []) by discriminate.
  assert (Hlines : Forall (fun line => no_newline line = true) lines).
  { repeat (constructor; [reflexivity|]). constructor. }
  assert (Htakes : takes_writes (serialPort (fresh idle_link))).
  { eexists. split; reflexivity. }
  split; [exact Hne|]. split; [exact Hlines|]. split; [exact Htakes|].
  exact (proj2 (proj1 X5_WriteText_two_lines lines (fresh idle_link)
                  Hne Hlines Htakes)).
Defined.

End DisplayWrites.

(** ** The progress bar and the start-up sequence *)

Section DisplaySequences.
Import Display.

Lemma progress_loop_bytes (turns : nat) :
  forall i filled progressBar,
    0 <= i ->
    Z.of_nat turns = barWidth - i ->
    bytes_of_string (progress_loop turns i filled progressBar) =
      bytes_of_string progressBar
      ++ repeat 0x3D (Z.to_nat (Z.min filled barWidth - i))
      ++ repeat 0x20 (Z.to_nat (barWidth - Z.max i filled)).
Proof.
  unfold barWidth.
  induction turns as [|turns IH]; intros i filled progressBar Hi Hturns.
  - cbn [progress_loop].
    replace (Z.to_nat (Z.min filled 14 - i)) with 0%nat by lia.
    replace (Z.to_nat (14 - Z.max i filled)) with 0%nat by lia.
    by rewrite !app_nil_r.
  - cbn [progress_loop]. unfold barWidth.
    replace (i <? 14) with true by (symmetry; apply Z.ltb_lt; lia).
    destruct (i <? filled) eqn:Hfill.
    + apply Z.ltb_lt in Hfill.
      rewrite IH by lia. rewrite bytes_of_string_append, <- app_assoc.
      f_equal.
      replace (Z.to_nat (Z.min filled 14 - i))
        with (S (Z.to_nat (Z.min filled 14 - (i + 1)))) by lia.
      replace (Z.max (i + 1) filled) with (Z.max i filled) by lia.
      reflexivity.
    + apply Z.ltb_ge in Hfill.
      rewrite IH by lia. rewrite bytes_of_string_append, <- app_assoc.
      f_equal.
      replace (Z.to_nat (Z.min filled 14 - i)) with 0%nat by lia.
      replace (Z.to_nat (Z.min filled 14 - (i + 1))) with 0%nat by lia.
      replace (Z.to_nat (14 - Z.max i filled))
        with (S (Z.to_nat (14 - Z.max (i + 1) filled))) by lia.
      reflexivity.
Qed.

Lemma truncated_padded_exact (text : string) :
  String.length text = 16%nat ->
  truncated_padded text = bytes_of_string text.
Proof.
  intros Hlen. unfold truncated_padded.
  rewrite firstn_app, bytes_of_string_length, Hlen.
  rewrite firstn_all2 by (rewrite bytes_of_string_length; lia).
  cbn. apply app_nil_r.
Qed.

(** The number of [=] signs for a percentage. *)
Lemma filled_bounds (percent : Z) :
  0 <= Z.quot (clamp_percent percent * barWidth) 100 <= 14
  /\ (percent <= 0 -> Z.quot (clamp_percent percent * barWidth) 100 = 0)
  /\ (100 <= percent -> Z.quot (clamp_percent percent * barWidth) 100 = 14).
Proof.
  unfold clamp_percent, barWidth.
  assert (Hc : 0 <= Z.max 0 (Z.min 100 percent) <= 100) by lia.
  rewrite Z.quot_div_nonneg by lia.
  split; [split|split].
  - apply Z.div_pos; lia.
  - apply Z.div_le_upper_bound; lia.
  - intros Hp. replace (Z.max 0 (Z.min 100 percent)) with 0 by lia. reflexivity.
  - intros Hp. replace (Z.max 0 (Z.min 100 percent)) with 100 by lia. reflexivity.
Qed.

(** The two [if]s of [ShowProgress] hold the percentage to 0..100. *)
Lemma progress_bar_clamped (percent : Z) :
  progress_bar percent =
    String.append
      (progress_loop (Z.to_nat barWidth) 0
         (Z.quot (clamp_percent percent * barWidth) 100) "[") "]".
Proof.
  unfold progress_bar, clamp_percent. cbv zeta.
  destruct (percent <? 0) eqn:H0.
  - apply Z.ltb_lt in H0. change (100 <? 0) with false. cbv iota.
    replace (Z.max 0 (Z.min 100 percent)) with 0 by lia. reflexivity.
  - apply Z.ltb_ge in H0. destruct (100 <? percent) eqn:H100.
    + apply Z.ltb_lt in H100.
      replace (Z.max 0 (Z.min 100 percent)) with 100 by lia. reflexivity.
    + apply Z.ltb_ge in H100.
      replace (Z.max 0 (Z.min 100 percent)) with percent by lia. reflexivity.
Qed.

(** X6: for every percentage, also below 0 and above 100, the bar of
    [ShowProgress] is 16 bytes: [[], then [filled] signs [=] and
    [14 - filled] spaces, then []], where [filled] is 14 times the
    percentage held to 0..100, over 100, rounded down; so the line command
    for row 1 carries it neither cut nor padded. The bar is empty up to
    0 percent and full from 100 percent on. *)
Theorem X6_progress_bar_shape (percent : Z) :
  let filled := Z.to_nat (Z.quot (clamp_percent percent * barWidth) 100) in
  (filled <= 14)%nat
  /\ bytes_of_string (progress_bar percent)
     = [0x5B] ++ repeat 0x3D filled ++ repeat 0x20 (14 - filled) ++ [0x5D]
  /\ WriteTextAt_command (progress_bar percent) 1
     = [0x4D; 0x0C; 1; 0x10] ++ bytes_of_string (progress_bar percent)
  /\ (percent <= 0 -> filled = 0%nat)
  /\ (100 <= percent -> filled = 14%nat).
Proof.
  cbv zeta.
  destruct (filled_bounds percent) as (Hbound & Hlow & Hhigh).
  set (f := Z.quot (clamp_percent percent * barWidth) 100) in *.
  assert (Hbar : bytes_of_string (progress_bar percent)
                 = [0x5B] ++ repeat 0x3D (Z.to_nat f)
                   ++ repeat 0x20 (14 - Z.to_nat f) ++ [0x5D]).
  { rewrite progress_bar_clamped. fold f.
    rewrite bytes_of_string_append, progress_loop_bytes by (unfold barWidth; lia).
    unfold barWidth.
    replace (Z.to_nat (Z.min f 14 - 0)) with (Z.to_nat f) by lia.
    replace (Z.to_nat (14 - Z.max 0 f)) with (14 - Z.to_nat f)%nat by lia.
    change (bytes_of_string "[") with [0x5B].
    change (bytes_of_string "]") with [0x5D].
    rewrite <- !app_assoc. reflexivity. }
  split; [lia|]. split; [exact Hbar|]. split.
  - rewrite WriteTextAt_command_eq. f_equal.
    apply truncated_padded_exact.
    rewrite <- bytes_of_string_length, Hbar, !length_app, !repeat_length.
    cbn [length]. lia.
  - split; intros Hp; [rewrite Hlow | rewrite Hhigh]; auto.
Qed.

End DisplaySequences.

Section StartUp.
Import Display.

Lemma sends_trans dc dc1 dc2 bytes1 bytes2 :
  sends dc dc1 bytes1 -> sends dc1 dc2 bytes2 -> sends dc dc2 (bytes1 ++ bytes2).
Proof.
  intros [_ H1] [Ht H2]. split; [exact Ht|].
  rewrite H2, H1. by rewrite app_assoc.
Qed.

Lemma Write_sends cmd dc :
  takes_writes (serialPort dc) ->
  fst (Serial.Write (serialPort dc) cmd) = None
  /\ sends dc (with_serialPort (snd (Serial.Write (serialPort dc) cmd)) dc) cmd.
Proof.
  intros Htakes.
  destruct (Serial_Write_takes (serialPort dc) cmd Htakes) as (Hnil & Ht & Hs).
  split; [exact Hnil|]. split; assumption.
Qed.

Lemma SetBacklight_sends on dc :
  takes_writes (serialPort dc) ->
  fst (SetBacklight on dc) = None
  /\ sends dc (snd (SetBacklight on dc))
       [0x4D; 0x5E; if on then 0x01 else 0x00].
Proof.
  intros Htakes. unfold SetBacklight.
  replace (if on then [0x4D; 0x5E; 0x01] else [0x4D; 0x5E; 0x00])
    with [0x4D; 0x5E; if on then 0x01 else 0x00] by (by destruct on).
  destruct (Write_sends [0x4D; 0x5E; if on then 0x01 else 0x00] dc Htakes)
    as [Hnil Hsends].
  destruct (Serial.Write (serialPort dc) _) as [err sp].
  cbn [fst snd] in *. subst err. auto.
Qed.

Lemma RequestButtonState_sends dc :
  takes_writes (serialPort dc) ->
  fst (RequestButtonState dc) = None
  /\ sends dc (snd (RequestButtonState dc)) [0x4D; 0x05].
Proof.
  intros Htakes. unfold RequestButtonState.
  destruct (Write_sends [0x4D; 0x05] dc Htakes) as [Hnil Hsends].
  destruct (Serial.Write (serialPort dc) _) as [err sp].
  cbn [fst snd] in *. subst err. auto.
Qed.

Lemma WriteTextAt_sends text row col dc :
  takes_writes (serialPort dc) ->
  row = 0 \/ row = 1 ->
  fst (WriteTextAt text row col dc) = None
  /\ sends dc (snd (WriteTextAt text row col dc)) (line_command row text).
Proof.
  intros Htakes Hrow.
  destruct (WriteTextAt_takes text row col dc Htakes Hrow) as (Hnil & Ht & Hs & _).
  split; [exact Hnil|]. split; assumption.
Qed.

Lemma WriteText_sends (lines : list string) dc :
  lines <> [] ->
  Forall (fun line => no_newline line = true) lines ->
  takes_writes (serialPort dc) ->
  sends dc (snd (WriteText (join_lines lines) dc))
    (line_command 0 (nth 0 lines EmptyString)
     ++ line_command 1 (nth 1 lines EmptyString)).
Proof.
  intros Hne Hlines Htakes. rewrite WriteText_lines by assumption.
  cbn [WriteText_loop].
  destruct (WriteTextAt_sends (truncate_line (nth 0 lines EmptyString)) 0 0 dc Htakes)
    as [Hnil0 Hs0]; [by left|].
  destruct (WriteTextAt (truncate_line (nth 0 lines EmptyString)) 0 0 dc)
    as [err0 dc0].
  cbn [fst snd] in Hnil0, Hs0. subst err0.
  destruct (WriteTextAt_sends (truncate_line (nth 1 lines EmptyString)) (0 + 1) 0 dc0
              (proj1 Hs0)) as [Hnil1 Hs1]; [by right|].
  destruct (WriteTextAt (truncate_line (nth 1 lines EmptyString)) (0 + 1) 0 dc0)
    as [err1 dc1].
  cbn [fst snd] in Hnil1, Hs1. subst err1. cbn [snd].
  rewrite <- (line_command_truncate_line 0), <- (line_command_truncate_line 1).
  eapply sends_trans; eassumption.
Qed.

(** The text [initializeDisplay] shows. *)
Lemma initializeDisplay_text (defaultText : string) (dc : DisplayController) :
  snd (initializeDisplay defaultText dc) =
    snd (WriteText
           (if negb (String.eqb defaultText "") then defaultText
            else join_lines ["QNAP Display"%string; "Ready"%string])
           (snd (WriteTextAt "" 1 0
                   (snd (WriteTextAt "" 0 0
                           (snd (SetBacklight true
                                   (log (ESleep 100)
                                      (with_serialPort
                                         (snd (Serial.Write (serialPort dc) [0x4D; 0x06]))
                                         dc))))))))).
Proof.
  unfold initializeDisplay.
  destruct (Serial.Write (serialPort dc) [0x4D; 0x06]) as [e0 sp0]. cbn [snd].
  destruct (SetBacklight true _) as [e1 dc1]. cbn [snd].
  destruct (WriteTextAt "" 0 0 dc1) as [e2 dc2]. cbn [snd].
  destruct (WriteTextAt "" 1 0 dc2) as [e3 dc3]. cbn [snd].
  destruct (negb (String.eqb defaultText "")).
  - by destruct (WriteText defaultText dc3).
  - change (String.append "QNAP Display" (String.append newline "Ready"))
      with (join_lines ["QNAP Display"%string; "Ready"%string]).
    by destruct (WriteText _ dc3).
Qed.

(** X7: [initializeDisplay] returns nil whatever the serial link does.
    On a link that takes writes it sends, in this order and nothing else:
    enable button reporting ([0x4D 0x06]), backlight on ([0x4D 0x5E 0x01]),
    a blank row 0 and a blank row 1, and then the first two lines of the
    default text, or ["QNAP Display"] and ["Ready"] when the default text
    is empty. *)
Theorem X7_initializeDisplay_sequence :
  (forall defaultText dc, fst (initializeDisplay defaultText dc) = None)
  /\
  (forall lines dc,
     lines <> [] ->
     Forall (fun line => no_newline line = true) lines ->
     takes_writes (serialPort dc) ->
     let shown := if String.eqb (join_lines lines) ""
                  then ["QNAP Display"%string; "Ready"%string] else lines in
     sent_bytes (serialPort (snd (initializeDisplay (join_lines lines) dc)))
     = sent_bytes (serialPort dc)
       ++ [0x4D; 0x06] ++ [0x4D; 0x5E; 0x01]
       ++ line_command 0 "" ++ line_command 1 ""
       ++ line_command 0 (nth 0 shown EmptyString)
       ++ line_command 1 (nth 1 shown EmptyString)).
Proof.
  split.
  - intros defaultText dc. unfold initializeDisplay.
    destruct (Serial.Write (serialPort dc) [0x4D; 0x06]) as [e0 sp0].
    destruct (SetBacklight true _) as [e1 dc1].
    destruct (WriteTextAt "" 0 0 dc1) as [e2 dc2].
    destruct (WriteTextAt "" 1 0 dc2) as [e3 dc3].
    by destruct (if negb (String.eqb defaultText "")
                 then WriteText defaultText dc3 else _).
  - intros lines dc Hne Hlines Htakes shown.
    rewrite initializeDisplay_text.
    assert (Hshown : (if negb (String.eqb (join_lines lines) "")
                      then join_lines lines
                      else join_lines ["QNAP Display"%string; "Ready"%string])
                     = join_lines shown
                     /\ shown <> []
                     /\ Forall (fun line => no_newline line = true) shown).
    { unfold shown. destruct (String.eqb (join_lines lines) ""); cbn [negb].
      - split; [reflexivity|]. split; [discriminate|].
        repeat (constructor; [reflexivity|]). constructor.
      - auto. }
    destruct Hshown as (-> & Hne' & Hlines').
    destruct (Write_sends [0x4D; 0x06] dc Htakes) as [_ H0].
    set (dc0 := with_serialPort (snd (Serial.Write (serialPort dc) [0x4D; 0x06])) dc) in *.
    assert (H0' : sends dc (log (ESleep 100) dc0) [0x4D; 0x06]) by exact H0.
    destruct (SetBacklight_sends true (log (ESleep 100) dc0) (proj1 H0')) as [_ H1].
    set (dc1 := snd (SetBacklight true (log (ESleep 100) dc0))) in *.
    destruct (WriteTextAt_sends "" 0 0 dc1 (proj1 H1)) as [_ H2]; [by left|].
    set (dc2 := snd (WriteTextAt "" 0 0 dc1)) in *.
    destruct (WriteTextAt_sends "" 1 0 dc2 (proj1 H2)) as [_ H3]; [by right|].
    set (dc3 := snd (WriteTextAt "" 1 0 dc2)) in *.
    pose proof (WriteText_sends shown dc3 Hne' Hlines' (proj1 H3)) as H4.
    pose proof (sends_trans _ _ _ _ _ H0'
                  (sends_trans _ _ _ _ _ H1
                     (sends_trans _ _ _ _ _ H2
                        (sends_trans _ _ _ _ _ H3 H4)))) as [_ Hall].
    rewrite Hall. by rewrite <- ?app_assoc.
Qed.

Lemma X7_initializeDisplay_sequence_witness :
  let lines := [EmptyString] in
  lines <> [] /\ Forall (fun line => no_newline line = true) lines
  /\ takes_writes (serialPort (fresh idle_link))
  /\ sent_bytes (serialPort (snd (initializeDisplay (join_lines lines) (fresh idle_link))))
     = [0x4D; 0x06] ++ [0x4D; 0x5E; 0x01]
       ++ line_command 0 "" ++ line_command 1 ""
       ++ line_command 0 "QNAP Display" ++ line_command 1 "Ready".
Proof.
  intros lines.
  assert (Hne : lines <> []) by discriminate.
  assert (Hlines : Forall (fun line => no_newline line = true) lines).
  { repeat (constructor; [reflexivity|]). constructor. }
  assert (Htakes : takes_writes (serialPort (fresh idle_link))).
  { eexists. split; reflexivity. }
  split; [exact Hne|]. split; [exact Hlines|]. split; [exact Htakes|].
  exact (proj2 X7_initializeDisplay_sequence lines (fresh idle_link)
           Hne Hlines Htakes).
Defined.

End StartUp.

(** ** Serial writes and the mock link *)

Section SerialWrites.
Import Serial.

(** X8: [Write] returns nil only when the device took every byte of the
    data. A driver error gives the wrapped write error; a count short of
    the data with no driver error gives the incomplete-write error with
    both counts, a different error; a nil port gives the not-initialized
    error and nothing is sent. *)
Theorem X8_Write_all_or_error (sp : SerialPort) (data : list Z) :
  (fst (Write sp data) = None ->
   exists p p', port sp = Some p /\ port (snd (Write sp data)) = Some p'
                /\ sent p' = sent p ++ data)
  /\ (forall p w ws e,
        port sp = Some p -> writes p = w :: ws -> wr_err w = Some e ->
        fst (Write sp data) = Some (ErrSerialWrite (ErrMsg e)))
  /\ (forall p w ws,
        port sp = Some p -> writes p = w :: ws -> wr_err w = None ->
        (wr_n w < length data)%nat ->
        fst (Write sp data) = Some (ErrIncompleteWrite (wr_n w) (length data))
        /\ exists p', port (snd (Write sp data)) = Some p'
                      /\ sent p' = sent p ++ firstn (wr_n w) data)
  /\ (port sp = None ->
      Write sp data = (Some ErrSerialNotInitialized, sp)).
Proof.
  unfold Write, port_Write. split; [|split; [|split]].
  - destruct (port sp) as [p|]; [|discriminate].
    destruct (writes p) as [|w ws]; cbn [fst snd].
    + rewrite Nat.eqb_refl. cbn [negb fst snd port]. intros _.
      exists p. eexists. split; [reflexivity|]. split; reflexivity.
    + destruct (wr_err w); [discriminate|].
      destruct (Nat.min (wr_n w) (length data) =? length data)%nat eqn:En;
        cbn [negb fst snd port]; [|discriminate].
      apply Nat.eqb_eq in En. intros _. exists p. eexists.
      split; [reflexivity|]. split; [reflexivity|]. cbn [sent].
      rewrite En. by rewrite firstn_all.
  - intros p w ws e Hp Hw He. rewrite Hp, Hw, He. reflexivity.
  - intros p w ws Hp Hw He Hn. rewrite Hp, Hw, He. cbn [fst snd].
    rewrite Nat.min_l by lia.
    replace (wr_n w =? length data)%nat with false
      by (symmetry; apply Nat.eqb_neq; lia).
    cbn [negb fst snd port]. split; [reflexivity|].
    eexists. split; reflexivity.
  - intros Hp. rewrite Hp. reflexivity.
Qed.

Lemma X8_Write_all_or_error_witness :
  let sp := mkSerialPort (Some (mkPort [] [mkWrite 2 None] [0x4D])) in
  fst (Write sp [0x4D; 0x5E; 0x01]) = Some (ErrIncompleteWrite 2 3)
  /\ fst (Write Display.idle_link [0x4D; 0x05]) = None
  /\ exists p p', port Display.idle_link = Some p
                  /\ port (snd (Write Display.idle_link [0x4D; 0x05])) = Some p'
                  /\ sent p' = sent p ++ [0x4D; 0x05].
Proof.
  intros sp.
  assert (Hshort : (wr_n (mkWrite 2 None) < length [0x4D; 0x5E; 0x01])%nat)
    by (simpl; lia).
  assert (Hnil : fst (Write Display.idle_link [0x4D; 0x05]) = None) by reflexivity.
  split.
  - exact (proj1 (proj1 (proj2 (proj2 (X8_Write_all_or_error sp [0x4D; 0x5E; 0x01])))
                    _ _ _ eq_refl eq_refl eq_refl Hshort)).
  - split; [exact Hnil|].
    exact (proj1 (X8_Write_all_or_error Display.idle_link [0x4D; 0x05]) Hnil).
Defined.

End SerialWrites.

Section MockLink.
Import Serial.Mock.

(** The read index never passes the end of the data. *)
Lemma Read_index_bound msp buffer :
  (readIndex msp <= length (readBuffer msp))%nat ->
  (readIndex (snd (Read msp buffer)) <= length (readBuffer (snd (Read msp buffer))))%nat.
Proof.
  intros Hinv. unfold Read.
  destruct (closed msp); [exact Hinv|].
  destruct (readError msp); [exact Hinv|].
  destruct (_ =? 0)%nat; [exact Hinv|].
  cbn [snd with_readIndex readIndex readBuffer].
  destruct (_ <? _)%nat eqn:E.
  - lia.
  - apply Nat.ltb_ge in E. lia.
Qed.

(** The first [Read] after [SetReadData]. *)
Lemma Read_after_SetReadData (data buffer : list Z) (msp : MockSerialPort) :
  closed msp = false ->
  readError msp = None ->
  let n := Nat.min (length buffer) (length data) in
  Read (SetReadData data msp) buffer =
    ((firstn n data ++ skipn n buffer, n, None),
     with_readIndex n (SetReadData data msp)).
Proof.
  intros Hopen Herr. unfold Read. simpl. rewrite Hopen, Herr.
  rewrite Nat.sub_0_r.
  destruct (length data =? 0)%nat eqn:Hempty.
  - apply Nat.eqb_eq in Hempty. rewrite Hempty, Nat.min_0_r.
    reflexivity.
  - destruct (length data <? length buffer)%nat eqn:E.
    + apply Nat.ltb_lt in E. rewrite Nat.min_r by lia. reflexivity.
    + apply Nat.ltb_ge in E. rewrite Nat.min_l by lia. reflexivity.
Qed.

(** [ReadAvailable] with [n] bytes of the data already read. *)
Lemma ReadAvailable_rest (data : list Z) (n : nat) (msp : MockSerialPort) :
  closed msp = false ->
  readError msp = None ->
  (n <= length data)%nat ->
  ReadAvailable (with_readIndex n (SetReadData data msp)) =
    ((skipn n data, None), with_readIndex (length data) (SetReadData data msp)).
Proof.
  intros Hopen Herr Hn. unfold ReadAvailable. simpl. rewrite Hopen, Herr.
  destruct (length data - n =? 0)%nat eqn:Hrest; [|reflexivity].
  apply Nat.eqb_eq in Hrest.
  assert (n = length data) as -> by lia.
  by rewrite skipn_all.
Qed.

(** X9: on an open mock with no read error set, the data given to
    [SetReadData] comes back whole and in order: a [Read] into a buffer
    returns as many bytes as fit, the first bytes of the data, a following
    [ReadAvailable] returns all the rest, and one more returns nothing. *)
Theorem X9_mock_reads_return_the_data (data buffer : list Z)
    (msp : MockSerialPort) :
  closed msp = false ->
  readError msp = None ->
  let r1 := Read (SetReadData data msp) buffer in
  let n := snd (fst (fst r1)) in
  let r2 := ReadAvailable (snd r1) in
  let r3 := ReadAvailable (snd r2) in
  n = Nat.min (length buffer) (length data)
  /\ snd (fst r1) = None
  /\ firstn n (fst (fst (fst r1))) = firstn n data
  /\ fst r2 = (skipn n data, None)
  /\ fst r3 = ([], None)
  /\ firstn n (fst (fst (fst r1))) ++ fst (fst r2) = data.
Proof.
  intros Hopen Herr. cbv zeta.
  rewrite (Read_after_SetReadData data buffer msp Hopen Herr). cbn [fst snd].
  set (n := Nat.min (length buffer) (length data)).
  rewrite (ReadAvailable_rest data n msp Hopen Herr) by lia. cbn [fst snd].
  rewrite (ReadAvailable_rest data (length data) msp Hopen Herr) by lia.
  cbn [fst snd].
  assert (Hchunk : firstn n (firstn n data ++ skipn n buffer) = firstn n data).
  { rewrite firstn_app, firstn_firstn, Nat.min_id, length_firstn.
    replace (n - Nat.min n (length data))%nat with 0%nat by lia.
    by rewrite firstn_O, app_nil_r. }
  rewrite Hchunk, skipn_all.
  split; [reflexivity|]. split; [reflexivity|]. split; [reflexivity|].
  split; [reflexivity|]. split; [reflexivity|]. apply firstn_skipn.
Qed.

Lemma X9_mock_reads_return_the_data_witness :
  let r1 := Read (SetReadData [1; 2; 3; 4; 5] NewMockSerialPort) [0; 0] in
  closed NewMockSerialPort = false /\ readError NewMockSerialPort = None
  /\ snd (fst (fst r1)) = 2%nat
  /\ fst (ReadAvailable (snd r1)) = ([3; 4; 5], None).
Proof.
  intros r1.
  destruct (X9_mock_reads_return_the_data [1; 2; 3; 4; 5] [0; 0] NewMockSerialPort
              eq_refl eq_refl) as (Hn & _ & _ & Hrest & _).
  split; [reflexivity|]. split; [reflexivity|]. split.
  - exact Hn.
  - exact Hrest.
Defined.

(** X10: the mock keeps what was written, in order: after two writes on
    an open mock with no write error set, [GetWrittenData] is what it was
    before followed by the first and then the second data, and
    [ClearWrittenData] empties it. Once closed, [Write], [Read] and
    [ReadAvailable] fail with the closed error and change nothing. *)
Theorem X10_mock_write_log_and_close (msp : MockSerialPort) (a b buffer : list Z) :
  (closed msp = false -> writeError msp = None ->
     let m2 := snd (Write (snd (Write msp a)) b) in
     fst (Write msp a) = None
     /\ fst (Write (snd (Write msp a)) b) = None
     /\ GetWrittenData m2 = GetWrittenData msp ++ a ++ b
     /\ GetWrittenData (ClearWrittenData m2) = [])
  /\
  (let c := snd (Close msp) in
   IsConnected c = false
   /\ Write c a = (Some port_closed, c)
   /\ Read c buffer = ((buffer, 0%nat, Some port_closed), c)
   /\ ReadAvailable c = (([], Some port_closed), c)).
Proof.
  split.
  - intros Hopen Herr. cbv zeta. unfold Write. rewrite Hopen, Herr.
    cbn [fst snd with_writeBuffer closed writeError]. rewrite Hopen, Herr.
    cbn [fst snd]. unfold GetWrittenData, ClearWrittenData.
    cbn [with_writeBuffer writeBuffer]. rewrite <- app_assoc. auto.
  - cbv zeta. repeat split.
Qed.

Lemma X10_mock_write_log_and_close_witness :
  closed NewMockSerialPort = false /\ writeError NewMockSerialPort = None
  /\ GetWrittenData (snd (Write (snd (Write NewMockSerialPort [0x4D; 0x06])) [0x4D; 0x05]))
     = [0x4D; 0x06; 0x4D; 0x05].
Proof.
  split; [reflexivity|]. split; [reflexivity|].
  exact (proj1 (proj2 (proj2
           (proj1 (X10_mock_write_log_and_close NewMockSerialPort
                     [0x4D; 0x06] [0x4D; 0x05] [])
              eq_refl eq_refl)))).
Defined.

End MockLink.

(** ** LED tables and bulk updates *)

Section LedTables.
Import LED.

Lemma status_table led :
  leds statusLEDPort !! led
  = if led =? StatusGreen then Some 2
    else if led =? StatusRed then Some 3 else None.
Proof.
  unfold statusLEDPort. cbn [leds].
  destruct (Z.eqb_spec led StatusGreen) as [->|H0]; [reflexivity|].
  rewrite lookup_insert_ne by done.
  destruct (Z.eqb_spec led StatusRed) as [->|H1]; [reflexivity|].
  by rewrite lookup_singleton_ne.
Qed.

Lemma disk_table led :
  leds diskLEDPort !! led
  = if (Disk1 <=? led) && (led <=? Disk6) then Some (led - Disk1) else None.
Proof.
  unfold diskLEDPort. cbn [leds].
  destruct (Z.eqb_spec led Disk1) as [->|H1]; [reflexivity|].
  rewrite lookup_insert_ne by done.
  destruct (Z.eqb_spec led Disk2) as [->|H2]; [reflexivity|].
  rewrite lookup_insert_ne by done.
  destruct (Z.eqb_spec led Disk3) as [->|H3]; [reflexivity|].
  rewrite lookup_insert_ne by done.
  destruct (Z.eqb_spec led Disk4) as [->|H4]; [reflexivity|].
  rewrite lookup_insert_ne by done.
  destruct (Z.eqb_spec led Disk5) as [->|H5]; [reflexivity|].
  rewrite lookup_insert_ne by done.
  destruct (Z.eqb_spec led Disk6) as [->|H6]; [reflexivity|].
  rewrite lookup_singleton_ne by done.
  unfold Disk1, Disk2, Disk3, Disk4, Disk5, Disk6 in *.
  destruct ((3 <=? led) && (led <=? 8)) eqn:E; [|reflexivity].
  apply andb_true_iff in E as [Ha Hb].
  apply Z.leb_le in Ha, Hb. lia.
Qed.

Lemma usb_table led :
  leds usbLEDPort !! led = if led =? USB then Some 7 else None.
Proof.
  unfold usbLEDPort. cbn [leds].
  destruct (Z.eqb_spec led USB) as [->|H0]; [reflexivity|].
  by rewrite lookup_singleton_ne.
Qed.

(** The place of every LED: status on 0x91, USB on 0xE1, the disks on
    0x81; anything else has none. *)
Lemma led_place_table led :
  led_place led
  = if led =? StatusGreen then Some (0x91, 2)
    else if led =? StatusRed then Some (0x91, 3)
    else if led =? USB then Some (0xE1, 7)
    else if (Disk1 <=? led) && (led <=? Disk6) then Some (0x81, led - Disk1)
    else None.
Proof.
  unfold led_place. rewrite status_table, disk_table, usb_table.
  unfold StatusGreen, StatusRed, USB, Disk1, Disk6.
  destruct (Z.eqb_spec led 0) as [->|H0]; [reflexivity|].
  destruct (Z.eqb_spec led 1) as [->|H1]; [reflexivity|].
  destruct (Z.eqb_spec led 2) as [->|H2]; [reflexivity|].
  destruct ((3 <=? led) && (led <=? 8)); reflexivity.
Qed.

Lemma led_place_bit led r bit :
  led_place led = Some (r, bit) -> 0 <= bit < 8.
Proof.
  rewrite led_place_table.
  unfold StatusGreen, StatusRed, USB, Disk1, Disk6.
  destruct (led =? 0); [intros [= <- <-]; lia|].
  destruct (led =? 1); [intros [= <- <-]; lia|].
  destruct (led =? 2); [intros [= <- <-]; lia|].
  destruct ((3 <=? led) && (led <=? 8)) eqn:E; [|discriminate].
  apply andb_true_iff in E as [Ha Hb]. apply Z.leb_le in Ha, Hb.
  intros [= <- <-]. lia.
Qed.

(** No two LEDs share a place. *)
Lemma led_place_inj led1 led2 place :
  led_place led1 = Some place -> led_place led2 = Some place -> led1 = led2.
Proof.
  rewrite !led_place_table.
  unfold StatusGreen, StatusRed, USB, Disk1, Disk6.
  destruct (Z.eqb_spec led1 0) as [->|?], (Z.eqb_spec led2 0) as [->|?];
    try (destruct (Z.eqb_spec led1 1) as [->|?]);
    try (destruct (Z.eqb_spec led2 1) as [->|?]);
    try (destruct (Z.eqb_spec led1 2) as [->|?]);
    try (destruct (Z.eqb_spec led2 2) as [->|?]);
    try (destruct ((3 <=? led1) && (led1 <=? 8)));
    try (destruct ((3 <=? led2) && (led2 <=? 8)));
    intros H1 H2; try reflexivity; try discriminate;
    rewrite <- H2 in H1; inversion H1; try lia.
Qed.

Lemma bit_of_small (bit : Z) : 0 <= bit < 8 -> bit_of bit = 2 ^ bit.
Proof.
  intros Hb. unfold bit_of. rewrite Z.shiftl_1_l.
  apply Z.mod_small. split; [apply Z.pow_nonneg; lia|].
  change 256 with (2 ^ 8). apply Z.pow_lt_mono_r; lia.
Qed.

(** [(mask & (1 << bit)) == 0] reads bit [bit] of the mask. *)
Lemma mask_test (mask bit : Z) :
  0 <= bit < 8 ->
  (Z.land mask (bit_of bit) =? 0) = negb (Z.testbit mask bit).
Proof.
  intros Hb. rewrite bit_of_small by assumption. apply land_pow2_eqb. lia.
Qed.

(** What the loop of [GetLEDStates] leaves in the map for one table. *)
Lemma record_states_lookup (mask : Z) (entries : list (Z * Z)) :
  forall states led,
    NoDup (entries.*1) ->
    fold_left (record_state mask) entries states !! led
    = match (list_to_map entries : gmap Z Z) !! led with
      | Some bit => Some (Z.land mask (bit_of bit) =? 0)
      | None => states !! led
      end.
Proof.
  induction entries as [|[k b] entries IH]; intros states led Hnd; [reflexivity|].
  cbn [fold_left record_state]. cbn [fmap list_fmap fst] in Hnd.
  apply NoDup_cons in Hnd as [Hk Hnd].
  rewrite IH by assumption. cbn [list_to_map foldr curry fst snd].
  destruct (decide (led = k)) as [->|Hne].
  - rewrite lookup_insert_eq.
    rewrite (not_elem_of_list_to_map_1 entries k Hk).
    by rewrite lookup_insert_eq.
  - rewrite (lookup_insert_ne _ k led b) by done.
    destruct (list_to_map entries !! led); [reflexivity|].
    by rewrite lookup_insert_ne.
Qed.

(** On a healthy device, one block of [GetLEDStates] records every LED of
    its table as lit or not and leaves the others as they were. *)
Lemma read_states_healthy (port : portConfig) (states : gmap Z bool) dev :
  healthy dev ->
  (forall led bit, leds port !! led = Some bit -> 0 <= bit < 8) ->
  healthy (snd (read_states port states dev))
  /\ dev_regs (snd (read_states port states dev)) = dev_regs dev
  /\ forall led,
       fst (read_states port states dev) !! led
       = match leds port !! led with
         | Some bit => Some (negb (reg_bit dev (register port) bit))
         | None => states !! led
         end.
Proof.
  intros Hok Hbits. unfold read_states.
  pose proof (readPort_healthy (register port) dev Hok) as Hread.
  pose proof (readPort_regs (register port) dev) as [Hregs Hfail].
  destruct (readPort (register port) dev) as [[mask err] dev1].
  cbn [fst snd] in *. inversion Hread; subst. cbn [fst snd].
  split; [intros k; rewrite Hfail; apply Hok|]. split; [exact Hregs|].
  intros led.
  rewrite record_states_lookup by apply NoDup_fst_map_to_list.
  rewrite list_to_map_to_list.
  destruct (leds port !! led) as [bit|] eqn:E; [|reflexivity].
  rewrite mask_test by (eapply Hbits; eassumption).
  unfold reg_bit. rewrite testbit_byte by (eapply Hbits; eassumption).
  reflexivity.
Qed.

Lemma table_bits_small :
  (forall led bit, leds statusLEDPort !! led = Some bit -> 0 <= bit < 8)
  /\ (forall led bit, leds diskLEDPort !! led = Some bit -> 0 <= bit < 8)
  /\ (forall led bit, leds usbLEDPort !! led = Some bit -> 0 <= bit < 8).
Proof.
  split; [|split]; intros led bit.
  - rewrite status_table.
    destruct (led =? StatusGreen); [intros [= <-]; lia|].
    destruct (led =? StatusRed); [intros [= <-]; lia|discriminate].
  - rewrite disk_table. unfold Disk1, Disk6.
    destruct ((3 <=? led) && (led <=? 8)) eqn:E; [|discriminate].
    apply andb_true_iff in E as [Ha Hb]. apply Z.leb_le in Ha, Hb.
    intros [= <-]. lia.
  - rewrite usb_table.
    destruct (led =? USB); [intros [= <-]; lia|discriminate].
Qed.

(** With permission and a healthy device, [GetLEDStates] reports every
    LED of the tables with its lit state, and no other key. *)
Lemma GetLEDStates_healthy lc dev :
  portPerms lc = true -> healthy dev ->
  snd (fst (GetLEDStates lc dev)) = None
  /\ dev_regs (snd (GetLEDStates lc dev)) = dev_regs dev
  /\ forall led,
       fst (fst (GetLEDStates lc dev)) !! led
       = match led_place led with
         | Some _ => Some (led_lit dev led)
         | None => None
         end.
Proof.
  intros Hperm Hok. unfold GetLEDStates. rewrite Hperm. cbn [negb].
  destruct table_bits_small as (Hs & Hd & Hu).
  destruct (read_states_healthy statusLEDPort ∅ dev Hok Hs) as (Hok1 & Hr1 & Hl1).
  destruct (read_states statusLEDPort ∅ dev) as [st1 dev1]. cbn [fst snd] in *.
  destruct (read_states_healthy diskLEDPort st1 dev1 Hok1 Hd) as (Hok2 & Hr2 & Hl2).
  destruct (read_states diskLEDPort st1 dev1) as [st2 dev2]. cbn [fst snd] in *.
  destruct (read_states_healthy usbLEDPort st2 dev2 Hok2 Hu) as (Hok3 & Hr3 & Hl3).
  destruct (read_states usbLEDPort st2 dev2) as [st3 dev3]. cbn [fst snd] in *.
  split; [reflexivity|]. split; [congruence|].
  intros led. rewrite Hl3, Hl2, Hl1. unfold led_lit, led_place, reg_bit.
  rewrite Hr2, Hr1.
  rewrite status_table, disk_table, usb_table.
  unfold StatusGreen, StatusRed, USB, Disk1, Disk6.
  destruct (Z.eqb_spec led 2) as [->|H2]; [reflexivity|].
  destruct (Z.eqb_spec led 0) as [->|H0]; [reflexivity|].
  destruct (Z.eqb_spec led 1) as [->|H1]; [reflexivity|].
  destruct ((3 <=? led) && (led <=? 8)); [reflexivity|].
  apply lookup_empty.
Qed.

(** X11: with permission and a healthy device, what [SetLED] sets is what
    [GetLEDStates] reads back: after [SetLED] of a LED of the tables the
    map reports that LED with the state just set and every other LED with
    the state it reported before; it has exactly the nine LEDs as keys. *)
Theorem X11_SetLED_then_GetLEDStates (lc : LEDController) (led : Z) (on : bool)
    (dev : PortDev) :
  portPerms lc = true -> healthy dev ->
  led_place led <> None ->
  let dev1 := snd (SetLED lc led on dev) in
  fst (fst (GetLEDStates lc dev1)) !! led = Some on
  /\ (forall led', led' <> led ->
        fst (fst (GetLEDStates lc dev1)) !! led'
        = fst (fst (GetLEDStates lc dev)) !! led')
  /\ (forall led', is_Some (fst (fst (GetLEDStates lc dev1)) !! led')
                   <-> 0 <= led' <= 8).
Proof.
  intros Hperm Hok Hknown dev1.
  destruct (led_place led) as [[r bit]|] eqn:Hplace; [|congruence].
  pose proof (led_place_bit led r bit Hplace) as Hbit.
  destruct (SetLED_healthy lc led on dev r bit Hperm Hok Hplace Hbit)
    as (_ & Hok1 & Hset).
  fold dev1 in Hok1, Hset.
  destruct (GetLEDStates_healthy lc dev1 Hperm Hok1) as (_ & _ & Hget1).
  destruct (GetLEDStates_healthy lc dev Hperm Hok) as (_ & _ & Hget).
  split; [|split].
  - rewrite Hget1, Hplace. unfold led_lit. rewrite Hplace, Hset.
    by rewrite negb_involutive.
  - intros led' Hne. rewrite Hget1, Hget.
    destruct (led_place led') as [[r' bit']|] eqn:Hplace'; [|reflexivity].
    unfold led_lit. rewrite Hplace'. do 2 f_equal.
    apply SetLED_frame.
    + eapply led_place_bit; eassumption.
    + intros Heq. apply Hne. symmetry.
      apply (led_place_inj led led' (r', bit')); assumption.
  - intros led'. rewrite Hget1, led_place_table.
    unfold StatusGreen, StatusRed, USB, Disk1, Disk6.
    destruct (Z.eqb_spec led' 0) as [->|H0]; [split; [lia|by eexists]|].
    destruct (Z.eqb_spec led' 1) as [->|H1]; [split; [lia|by eexists]|].
    destruct (Z.eqb_spec led' 2) as [->|H2]; [split; [lia|by eexists]|].
    destruct ((3 <=? led') && (led' <=? 8)) eqn:E.
    + apply andb_true_iff in E as [Ha Hb]. apply Z.leb_le in Ha, Hb.
      split; [lia|by eexists].
    + apply andb_false_iff in E.
      split; [intros [x Hx]; discriminate|].
      intros Hr. destruct E as [E|E]; apply Z.leb_gt in E; lia.
Qed.

Lemma X11_SetLED_then_GetLEDStates_witness :
  portPerms (mkLC true) = true /\ healthy quiet_dev /\ led_place Disk3 <> None
  /\ fst (fst (GetLEDStates (mkLC true)
                 (snd (SetLED (mkLC true) Disk3 true quiet_dev)))) !! Disk3
     = Some true.
Proof.
  assert (Hperm : portPerms (mkLC true) = true) by reflexivity.
  assert (Hok : healthy quiet_dev) by (intros k; reflexivity).
  assert (Hknown : led_place Disk3 <> None) by (vm_compute; discriminate).
  split; [exact Hperm|]. split; [exact Hok|]. split; [exact Hknown|].
  exact (proj1 (X11_SetLED_then_GetLEDStates (mkLC true) Disk3 true quiet_dev
                  Hperm Hok Hknown)).
Defined.

End LedTables.

Section LedWrites.
Import LED.

(** Setting a bit that already has the value leaves the mask alone. *)
Lemma applyState_same leds mask led state bit :
  leds !! led = Some bit -> 0 <= bit < 8 ->
  Z.testbit mask bit = negb state ->
  applyState leds mask (led, state) = mask.
Proof.
  intros E Hbit Hval. unfold applyState. rewrite E.
  apply Z.bits_inj'. intros n Hn.
  destruct state; cbn [negb] in Hval.
  - rewrite Z.ldiff_spec, bit_of_spec by assumption.
    destruct (Z.eqb_spec bit n) as [->|Hne].
    + rewrite Hval. reflexivity.
    + rewrite andb_false_r. apply andb_true_r.
  - rewrite Z.lor_spec, bit_of_spec by assumption.
    destruct (Z.eqb_spec bit n) as [->|Hne].
    + rewrite Hval. reflexivity.
    + rewrite andb_false_r. apply orb_false_r.
Qed.

(** On a healthy device, an update that computes the mask it read makes
    the two accesses of the read and no other. *)
Lemma updatePortLEDs_in_unchanged port entries dev :
  healthy dev ->
  applyStates (leds port) entries (dev_regs dev (register port) mod 256)
  = dev_regs dev (register port) mod 256 ->
  fst (updatePortLEDs_in port entries dev) = None
  /\ dev_regs (snd (updatePortLEDs_in port entries dev)) = dev_regs dev
  /\ dev_log (snd (updatePortLEDs_in port entries dev))
     = dev_log dev ++ [OpOut (register port) regPort; OpIn valuePort].
Proof.
  intros Hok Hsame. unfold updatePortLEDs_in, readPort, outb, inb. simpl.
  rewrite !Hok. simpl. rewrite !Hok. simpl.
  rewrite Hsame, Z.eqb_refl. simpl.
  rewrite <- app_assoc. auto.
Qed.

(** X12: [SetLED] writes only when something changes. With permission
    and a healthy device, [SetLED] of a LED that already has the requested
    state selects the register and reads it, two port accesses, and does
    not write; so repeating a [SetLED] costs a read and changes no
    register. *)
Theorem X12_SetLED_skips_redundant_write (lc : LEDController) (led : Z)
    (on : bool) (dev : PortDev) (r bit : Z) :
  portPerms lc = true -> healthy dev ->
  led_place led = Some (r, bit) ->
  (led_lit dev led = on ->
   fst (SetLED lc led on dev) = None
   /\ dev_regs (snd (SetLED lc led on dev)) = dev_regs dev
   /\ dev_log (snd (SetLED lc led on dev))
      = dev_log dev ++ [OpOut r regPort; OpIn valuePort])
  /\
  (let dev1 := snd (SetLED lc led on dev) in
   fst (SetLED lc led on dev1) = None
   /\ dev_regs (snd (SetLED lc led on dev1)) = dev_regs dev1
   /\ dev_log (snd (SetLED lc led on dev1))
      = dev_log dev1 ++ [OpOut r regPort; OpIn valuePort]).
Proof.
  intros Hperm Hok Hplace.
  pose proof (led_place_bit led r bit Hplace) as Hbit.
  assert (Hskip : forall d, healthy d -> led_lit d led = on ->
    fst (SetLED lc led on d) = None
    /\ dev_regs (snd (SetLED lc led on d)) = dev_regs d
    /\ dev_log (snd (SetLED lc led on d))
       = dev_log d ++ [OpOut r regPort; OpIn valuePort]).
  { intros d Hd Hlit. rewrite SetLED_unfold, Hperm, Hplace. cbn [negb].
    apply (updatePortLEDs_in_unchanged
             {| register := r; leds := {[ led := bit ]} |} [(led, on)] d Hd).
    cbn [register leds]. unfold applyStates. cbn [fold_left].
    apply (applyState_same _ _ led on bit);
      [apply lookup_singleton_eq | assumption |].
    rewrite testbit_byte by assumption.
    unfold led_lit in Hlit. rewrite Hplace in Hlit. unfold reg_bit in Hlit.
    rewrite <- Hlit. by rewrite negb_involutive. }
  split; [by apply Hskip|].
  destruct (SetLED_healthy lc led on dev r bit Hperm Hok Hplace Hbit)
    as (_ & Hok1 & Hset).
  cbv zeta. apply Hskip; [exact Hok1|].
  unfold led_lit. rewrite Hplace, Hset. apply negb_involutive.
Qed.

Lemma X12_SetLED_skips_redundant_write_witness :
  portPerms (mkLC true) = true /\ healthy quiet_dev
  /\ led_place USB = Some (0xE1, 7) /\ led_lit quiet_dev USB = false
  /\ dev_log (snd (SetLED (mkLC true) USB false quiet_dev))
     = [OpOut 0xE1 regPort; OpIn valuePort].
Proof.
  assert (Hperm : portPerms (mkLC true) = true) by reflexivity.
  assert (Hok : healthy quiet_dev) by (intros k; reflexivity).
  assert (Hplace : led_place USB = Some (0xE1, 7)) by reflexivity.
  assert (Hlit : led_lit quiet_dev USB = false) by reflexivity.
  split; [exact Hperm|]. split; [exact Hok|]. split; [exact Hplace|].
  split; [exact Hlit|].
  exact (proj2 (proj2 (proj1 (X12_SetLED_skips_redundant_write (mkLC true) USB false
                                quiet_dev 0xE1 7 Hperm Hok Hplace) Hlit))).
Defined.

(** Bits 8 and up are beyond every LED. *)
Lemma applyStates_high leds entries i :
  8 <= i ->
  forall mask, Z.testbit (applyStates leds entries mask) i = Z.testbit mask i.
Proof.
  intros Hi. unfold applyStates.
  induction entries as [|[led state] entries IH]; intros mask; [reflexivity|].
  cbn [fold_left]. rewrite IH. unfold applyState.
  destruct (leds !! led) as [bit|]; [|reflexivity].
  assert (Hb : Z.testbit (bit_of bit) i = false).
  { rewrite bit_of_spec by lia.
    replace (i <? 8) with false by (symmetry; apply Z.ltb_ge; lia).
    reflexivity. }
  destruct state.
  - rewrite Z.ldiff_spec, Hb. apply andb_true_r.
  - rewrite Z.lor_spec, Hb. apply orb_false_r.
Qed.

(** The bit of a LED that the entries set, once: it ends up cleared for
    on, set for off, wherever the entry stands in the order. *)
Lemma applyStates_target leds entries :
  NoDup (entries.*1) ->
  distinct_bits leds ->
  forall mask led state bit,
    In (led, state) entries ->
    leds !! led = Some bit -> 0 <= bit < 8 ->
    Z.testbit (applyStates leds entries mask) bit = negb state.
Proof.
  intros Hnd Hdist. unfold applyStates.
  induction entries as [|[l0 s0] entries IH];
    intros mask led state bit Hin Hbit Hrange; [destruct Hin|].
  cbn [fmap list_fmap fst] in Hnd. apply NoDup_cons in Hnd as [Hl0 Hnd].
  cbn [fold_left]. destruct Hin as [Heq|Hin].
  - inversion Heq; subst l0 s0.
    fold (applyStates leds entries (applyState leds mask (led, state))).
    rewrite applyStates_frame; [by apply applyState_target|lia|].
    intros led' state' bit' Hin' Hbit' ->.
    assert (led' = led) as -> by (eapply Hdist; eassumption).
    apply Hl0. apply list_elem_of_fmap. exists (led, state').
    split; [reflexivity|]. by apply list_elem_of_In.
  - by apply (IH Hnd _ led state bit).
Qed.

Lemma distinct_bits_tables :
  distinct_bits (leds statusLEDPort) /\ distinct_bits (leds diskLEDPort)
  /\ distinct_bits (leds usbLEDPort).
Proof.
  unfold distinct_bits. split; [|split]; intros led1 led2 bit.
  - rewrite !status_table. unfold StatusGreen, StatusRed.
    destruct (Z.eqb_spec led1 0) as [->|?], (Z.eqb_spec led2 0) as [->|?];
      try (destruct (Z.eqb_spec led1 1) as [->|?]);
      try (destruct (Z.eqb_spec led2 1) as [->|?]);
      intros H1 H2; try reflexivity; try discriminate; congruence.
  - rewrite !disk_table. unfold Disk1, Disk6.
    destruct ((3 <=? led1) && (led1 <=? 8)); [|discriminate].
    destruct ((3 <=? led2) && (led2 <=? 8)); [|discriminate].
    intros [= <-] [= H]. lia.
  - rewrite !usb_table. unfold USB.
    destruct (Z.eqb_spec led1 2) as [->|?]; [|discriminate].
    destruct (Z.eqb_spec led2 2) as [->|?]; [|discriminate]. reflexivity.
Qed.

(** X13: the order in which Go visits the entries of the map does not
    matter. For a table that gives no bit to two LEDs (as the three tables
    do) and entries with one state per LED, [updatePortLEDs] returns the
    same result and leaves the same device for every order of the
    entries. *)
Theorem X13_update_independent_of_map_order (port : portConfig)
    (entries1 entries2 : list (Z * bool)) (dev : PortDev) :
  distinct_bits (leds port) ->
  NoDup (entries1.*1) ->
  entries1 ≡ₚ entries2 ->
  updatePortLEDs_in port entries1 dev = updatePortLEDs_in port entries2 dev.
Proof.
  intros Hdist Hnd1 Hperm.
  assert (Hnd2 : NoDup (entries2.*1)) by (by rewrite <- Hperm).
  assert (Hmask : forall mask,
    applyStates (leds port) entries1 mask = applyStates (leds port) entries2 mask).
  { intros mask. apply Z.bits_inj'. intros n Hn.
    destruct (Z.le_gt_cases 8 n) as [Hhigh|Hlow].
    { by rewrite !applyStates_high. }
    destruct (decide (Exists (fun e => leds port !! e.1 = Some n) entries1))
      as [Hex|Hno].
    - apply Exists_exists in Hex as ([led state] & Hin & Hbit).
      cbn [fst] in Hbit.
      rewrite (applyStates_target (leds port) entries1 Hnd1 Hdist mask led state n);
        [|by apply list_elem_of_In|assumption|lia].
      rewrite (applyStates_target (leds port) entries2 Hnd2 Hdist mask led state n);
        [reflexivity| |assumption|lia].
      apply list_elem_of_In. by rewrite <- Hperm.
    - rewrite !applyStates_frame; try assumption; try reflexivity.
      + intros led state bit Hin Hbit ->. apply Hno.
        apply Exists_exists. exists (led, state).
        split; [|exact Hbit].
        rewrite Hperm. by apply list_elem_of_In.
      + intros led state bit Hin Hbit ->. apply Hno.
        apply Exists_exists. exists (led, state).
        split; [by apply list_elem_of_In|exact Hbit]. }
  unfold updatePortLEDs_in.
  destruct (readPort (register port) dev) as [[currentMask err] dev1].
  destruct err; [reflexivity|]. by rewrite Hmask.
Qed.

Lemma X13_update_independent_of_map_order_witness :
  distinct_bits (leds diskLEDPort)
  /\ updatePortLEDs_in diskLEDPort [(Disk1, true); (Disk4, false)] quiet_dev
     = updatePortLEDs_in diskLEDPort [(Disk4, false); (Disk1, true)] quiet_dev.
Proof.
  assert (Hdist : distinct_bits (leds diskLEDPort))
    by apply distinct_bits_tables.
  assert (Hnd : NoDup ([(Disk1, true); (Disk4, false)].*1)).
  { apply (bool_decide_unpack _). vm_compute. reflexivity. }
  split; [exact Hdist|].
  exact (X13_update_independent_of_map_order diskLEDPort
           [(Disk1, true); (Disk4, false)] [(Disk4, false); (Disk1, true)]
           quiet_dev Hdist Hnd (perm_swap _ _ _)).
Defined.

End LedWrites.

Section BulkUpdates.
Import LED System.

Lemma disk_led_eq (n : Z) : 1 <= n <= 6 -> disk_led n = n + 2.
Proof.
  intros Hn.
  assert (Hcases : n = 1 \/ n = 2 \/ n = 3 \/ n = 4 \/ n = 5 \/ n = 6) by lia.
  destruct Hcases as [-> | [-> | [-> | [-> | [-> | ->]]]]]; reflexivity.
Qed.

Lemma disk_led_place (n : Z) :
  1 <= n <= 6 -> led_place (disk_led n) = Some (0x81, n - 1).
Proof.
  intros Hn.
  assert (Hcases : n = 1 \/ n = 2 \/ n = 3 \/ n = 4 \/ n = 5 \/ n = 6) by lia.
  destruct Hcases as [-> | [-> | [-> | [-> | [-> | ->]]]]]; reflexivity.
Qed.

(** The map [SetDiskLEDs] builds: the state of disk [n] under the LED of
    disk [n], for the disks 1 to 6 of [states], and nothing else. *)
Lemma ledStates_of_lookup (states : gmap Z bool) :
  forall led,
    ledStates_of states !! led
    = if (3 <=? led) && (led <=? 8) then states !! (led - 2) else None.
Proof.
  unfold ledStates_of.
  apply (map_fold_weak_ind
           (fun (r : gmap Z bool) (m : gmap Z bool) =>
              forall led, r !! led
                = if (3 <=? led) && (led <=? 8) then m !! (led - 2) else None)).
  - intros led. rewrite !lookup_empty. by destruct (_ && _).
  - intros i x m r Hi IH led.
    destruct ((1 <=? i) && (i <=? 6)) eqn:Ei.
    + apply andb_true_iff in Ei as [Ha Hb]. apply Z.leb_le in Ha, Hb.
      fold (disk_led i). rewrite disk_led_eq by lia.
      destruct (decide (led = i + 2)) as [->|Hne].
      * rewrite lookup_insert_eq.
        replace ((3 <=? i + 2) && (i + 2 <=? 8)) with true
          by (symmetry; apply andb_true_iff; split; apply Z.leb_le; lia).
        replace (i + 2 - 2) with i by lia. by rewrite lookup_insert_eq.
      * rewrite lookup_insert_ne by done. rewrite IH.
        destruct ((3 <=? led) && (led <=? 8)); [|reflexivity].
        rewrite lookup_insert_ne by lia. reflexivity.
    + rewrite IH.
      destruct ((3 <=? led) && (led <=? 8)) eqn:El; [|reflexivity].
      apply andb_true_iff in El as [Ha Hb]. apply Z.leb_le in Ha, Hb.
      apply andb_false_iff in Ei.
      rewrite lookup_insert_ne; [reflexivity|].
      destruct Ei as [Ei|Ei]; apply Z.leb_gt in Ei; lia.
Qed.

(** An update makes four port accesses at most. *)
Lemma updatePortLEDs_in_log port entries dev :
  (length (dev_log (snd (updatePortLEDs_in port entries dev)))
   <= length (dev_log dev) + 4)%nat.
Proof.
  unfold updatePortLEDs_in, readPort, writePort, outb, inb. simpl.
  repeat (match goal with
          | |- context [if dev_fail ?d ?k then _ else _] =>
              destruct (dev_fail d k) eqn:?
          | |- context [if negb ?c then _ else _] => destruct c
          end; simpl);
    rewrite ?length_app; simpl; lia.
Qed.

(** With permission and a healthy device, one update of the disk
    register sets every disk named in the map and no other. *)
Lemma SetDiskLEDs_healthy lc (states : gmap Z bool) dev :
  portPerms lc = true -> healthy dev ->
  fst (SetDiskLEDs lc states dev) = None
  /\ healthy (snd (SetDiskLEDs lc states dev))
  /\ forall n, 1 <= n <= 6 ->
       led_lit (snd (SetDiskLEDs lc states dev)) (disk_led n)
       = match states !! n with
         | Some state => state
         | None => led_lit dev (disk_led n)
         end.
Proof.
  intros Hperm Hok. unfold SetDiskLEDs. rewrite Hperm. cbn [negb].
  destruct (size (ledStates_of states) =? 0)%nat eqn:Hsize.
  - apply Nat.eqb_eq, map_size_empty_iff in Hsize.
    split; [reflexivity|]. split; [exact Hok|].
    intros n Hn. cbn [snd].
    assert (Hnone : ledStates_of states !! (n + 2) = None)
      by (rewrite Hsize; apply lookup_empty).
    rewrite ledStates_of_lookup in Hnone.
    replace ((3 <=? n + 2) && (n + 2 <=? 8)) with true in Hnone
      by (symmetry; apply andb_true_iff; split; apply Z.leb_le; lia).
    replace (n + 2 - 2) with n in Hnone by lia. by rewrite Hnone.
  - unfold updatePortLEDs.
    destruct (updatePortLEDs_in_healthy diskLEDPort
                (map_to_list (ledStates_of states)) dev Hok)
      as (Hnil & Hok' & Hbits).
    split; [exact Hnil|]. split; [exact Hok'|].
    intros n Hn. unfold led_lit. rewrite disk_led_place by assumption.
    change 0x81 with (register diskLEDPort). rewrite Hbits by lia.
    assert (Htable : leds diskLEDPort !! (n + 2) = Some (n - 1)).
    { rewrite disk_table. unfold Disk1, Disk6.
      replace ((3 <=? n + 2) && (n + 2 <=? 8)) with true
        by (symmetry; apply andb_true_iff; split; apply Z.leb_le; lia).
      f_equal. lia. }
    assert (Hstate : ledStates_of states !! (n + 2) = states !! n).
    { rewrite ledStates_of_lookup.
      replace ((3 <=? n + 2) && (n + 2 <=? 8)) with true
        by (symmetry; apply andb_true_iff; split; apply Z.leb_le; lia).
      f_equal. lia. }
    destruct (states !! n) as [state|] eqn:En.
    + rewrite (applyStates_target (leds diskLEDPort) _
                 (NoDup_fst_map_to_list _) (proj1 (proj2 distinct_bits_tables))
                 _ (n + 2) state (n - 1)); [apply negb_involutive| |assumption|lia].
      apply list_elem_of_In, elem_of_map_to_list. exact Hstate.
    + rewrite applyStates_frame; [|lia|].
      * unfold reg_bit. by rewrite testbit_byte by lia.
      * intros led state bit Hin Hbit ->.
        apply list_elem_of_In, elem_of_map_to_list in Hin.
        assert (led = n + 2) as ->.
        { apply (proj1 (proj2 distinct_bits_tables) led (n + 2) (n - 1));
            assumption. }
        congruence.
Qed.

(** X14: with permission and a healthy device, [SetDiskLEDs] sets all
    the disks of its map in one read-modify-write of the disk register:
    afterwards each disk 1 to 6 that the map names is lit or out as the
    map says, each one it does not name is as before, keys outside 1..6
    are ignored, and the port was accessed four times at most however many
    disks the map names. *)
Theorem X14_SetDiskLEDs_one_update (lc : LEDController) (states : gmap Z bool)
    (dev : PortDev) :
  portPerms lc = true -> healthy dev ->
  let dev' := snd (SetDiskLEDs lc states dev) in
  fst (SetDiskLEDs lc states dev) = None
  /\ (forall n, 1 <= n <= 6 ->
        led_lit dev' (disk_led n)
        = match states !! n with
          | Some state => state
          | None => led_lit dev (disk_led n)
          end)
  /\ (length (dev_log dev') <= length (dev_log dev) + 4)%nat.
Proof.
  intros Hperm Hok dev'.
  destruct (SetDiskLEDs_healthy lc states dev Hperm Hok) as (Hnil & _ & Hlit).
  split; [exact Hnil|]. split; [exact Hlit|].
  unfold dev', SetDiskLEDs, updatePortLEDs. rewrite Hperm. cbn [negb].
  destruct (size (ledStates_of states) =? 0)%nat; cbn [snd]; [lia|].
  apply updatePortLEDs_in_log.
Qed.

Lemma X14_SetDiskLEDs_one_update_witness :
  let states : gmap Z bool := {[ 1 := true; 4 := true; 9 := true ]} in
  let dev' := snd (SetDiskLEDs (mkLC true) states quiet_dev) in
  portPerms (mkLC true) = true /\ healthy quiet_dev /\ 1 <= 4 <= 6
  /\ led_lit dev' (disk_led 4) = true
  /\ (length (dev_log dev') <= 4)%nat.
Proof.
  intros states dev'.
  assert (Hperm : portPerms (mkLC true) = true) by reflexivity.
  assert (Hok : healthy quiet_dev) by (intros k; reflexivity).
  assert (H4 : 1 <= 4 <= 6) by lia.
  destruct (X14_SetDiskLEDs_one_update (mkLC true) states quiet_dev Hperm Hok)
    as (_ & Hlit & Hlog).
  split; [exact Hperm|]. split; [exact Hok|]. split; [exact H4|]. split.
  - exact (Hlit 4 H4).
  - exact Hlog.
Defined.

(** [SetStatusLED] on a healthy device: both LEDs as asked. *)
Lemma SetStatusLED_healthy lc red green dev :
  portPerms lc = true -> healthy dev ->
  healthy (snd (SetStatusLED lc red green dev))
  /\ led_lit (snd (SetStatusLED lc red green dev)) StatusRed = red
  /\ led_lit (snd (SetStatusLED lc red green dev)) StatusGreen = green.
Proof.
  intros Hperm Hok. unfold SetStatusLED, updatePortLEDs.
  rewrite Hperm. cbn [negb].
  set (ledStates := ({[ StatusRed := red; StatusGreen := green ]} : gmap Z bool)).
  destruct (updatePortLEDs_in_healthy statusLEDPort (map_to_list ledStates) dev Hok)
    as (Hnil & Hok' & Hbits).
  assert (Hred : In (StatusRed, red) (map_to_list ledStates)).
  { apply list_elem_of_In, elem_of_map_to_list. apply lookup_insert_eq. }
  assert (Hgreen : In (StatusGreen, green) (map_to_list ledStates)).
  { apply list_elem_of_In, elem_of_map_to_list.
    unfold ledStates. rewrite lookup_insert_ne by done.
    apply lookup_singleton_eq. }
  split; [exact Hok'|].
  unfold led_lit.
  change (led_place StatusRed) with (Some (register statusLEDPort, 3)).
  change (led_place StatusGreen) with (Some (register statusLEDPort, 2)).
  cbv beta iota. rewrite !Hbits by lia.
  rewrite (applyStates_target (leds statusLEDPort) _
             (NoDup_fst_map_to_list _) (proj1 distinct_bits_tables)
             _ StatusRed red 3); [|assumption|reflexivity|lia].
  rewrite (applyStates_target (leds statusLEDPort) _
             (NoDup_fst_map_to_list _) (proj1 distinct_bits_tables)
             _ StatusGreen green 2); [|assumption|reflexivity|lia].
  rewrite !negb_involutive. split; reflexivity.
Qed.

(** X15: with permission and a healthy device, [SetStatusLED] sets both
    status LEDs in one read-modify-write: afterwards the red LED is lit
    exactly when [red] and the green one exactly when [green], and the
    port was accessed four times at most. *)
Theorem X15_SetStatusLED_sets_both (lc : LEDController) (red green : bool)
    (dev : PortDev) :
  portPerms lc = true -> healthy dev ->
  let dev' := snd (SetStatusLED lc red green dev) in
  fst (SetStatusLED lc red green dev) = None
  /\ healthy dev'
  /\ led_lit dev' StatusRed = red
  /\ led_lit dev' StatusGreen = green
  /\ (length (dev_log dev') <= length (dev_log dev) + 4)%nat.
Proof.
  intros Hperm Hok dev'. unfold dev', SetStatusLED, updatePortLEDs.
  rewrite Hperm. cbn [negb].
  set (ledStates := ({[ StatusRed := red; StatusGreen := green ]} : gmap Z bool)).
  destruct (updatePortLEDs_in_healthy statusLEDPort (map_to_list ledStates) dev Hok)
    as (Hnil & Hok' & Hbits).
  assert (Hred : In (StatusRed, red) (map_to_list ledStates)).
  { apply list_elem_of_In, elem_of_map_to_list. apply lookup_insert_eq. }
  assert (Hgreen : In (StatusGreen, green) (map_to_list ledStates)).
  { apply list_elem_of_In, elem_of_map_to_list.
    unfold ledStates. rewrite lookup_insert_ne by done.
    apply lookup_singleton_eq. }
  split; [exact Hnil|]. split; [exact Hok'|].
  unfold led_lit.
  change (led_place StatusRed) with (Some (register statusLEDPort, 3)).
  change (led_place StatusGreen) with (Some (register statusLEDPort, 2)).
  cbv beta iota. rewrite !Hbits by lia.
  rewrite (applyStates_target (leds statusLEDPort) _
             (NoDup_fst_map_to_list _) (proj1 distinct_bits_tables)
             _ StatusRed red 3); [|assumption|reflexivity|lia].
  rewrite (applyStates_target (leds statusLEDPort) _
             (NoDup_fst_map_to_list _) (proj1 distinct_bits_tables)
             _ StatusGreen green 2); [|assumption|reflexivity|lia].
  rewrite !negb_involutive.
  split; [reflexivity|]. split; [reflexivity|].
  apply updatePortLEDs_in_log.
Qed.

Lemma X15_SetStatusLED_sets_both_witness :
  let dev' := snd (SetStatusLED (mkLC true) true false quiet_dev) in
  portPerms (mkLC true) = true /\ healthy quiet_dev
  /\ led_lit dev' StatusRed = true /\ led_lit dev' StatusGreen = false.
Proof.
  intros dev'.
  assert (Hperm : portPerms (mkLC true) = true) by reflexivity.
  assert (Hok : healthy quiet_dev) by (intros k; reflexivity).
  destruct (X15_SetStatusLED_sets_both (mkLC true) true false quiet_dev Hperm Hok)
    as (_ & _ & Hr & Hg & _).
  split; [exact Hperm|]. split; [exact Hok|]. split; [exact Hr | exact Hg].
Defined.

End BulkUpdates.

(** ** The system controller *)

Section SystemEntryPoints.
Import LED System.

(** A LED keeps its state through a [SetLED] of another LED. *)
Lemma SetLED_other_lit lc led on dev led' :
  led' <> led -> led_place led' <> None ->
  led_lit (snd (SetLED lc led on dev)) led' = led_lit dev led'.
Proof.
  intros Hne Hknown. unfold led_lit.
  destruct (led_place led') as [[r' bit']|] eqn:Hplace'; [|congruence].
  f_equal. apply SetLED_frame.
  - eapply led_place_bit; eassumption.
  - intros Heq. apply Hne.
    apply (led_place_inj led' led (r', bit')); assumption.
Qed.

(** The status and USB LEDs keep their state through [SetDiskLEDs]. *)
Lemma SetDiskLEDs_other_lit lc states dev led r bit :
  led_place led = Some (r, bit) -> r <> 0x81 ->
  led_lit (snd (SetDiskLEDs lc states dev)) led = led_lit dev led.
Proof.
  intros Hplace Hr. unfold led_lit. rewrite Hplace. f_equal.
  apply SetDiskLEDs_frame; [eapply led_place_bit; eassumption|by left].
Qed.

(** X16: [initializeSystem] always returns nil. With an LED controller
    that has permission and a healthy device, it leaves the panel, from
    whatever state, with the green status LED lit and the red one, the USB
    LED and the six disk LEDs out; with no LED controller it touches
    nothing. *)
Theorem X16_initializeSystem_panel_state :
  (forall sc dev, fst (initializeSystem sc dev) = None)
  /\ (forall dev, initializeSystem (mkSC None) dev = (None, dev))
  /\
  (forall lc dev,
     portPerms lc = true -> healthy dev ->
     let dev' := snd (initializeSystem (mkSC (Some lc)) dev) in
     led_lit dev' StatusGreen = true
     /\ led_lit dev' StatusRed = false
     /\ led_lit dev' USB = false
     /\ forall n, 1 <= n <= 6 -> led_lit dev' (disk_led n) = false).
Proof.
  split; [|split].
  - intros [[lc|]] dev; unfold initializeSystem; cbn [led]; [|reflexivity].
    destruct (SetStatusLED lc false true dev) as [e1 dev1].
    destruct (SetLED lc USB false dev1) as [e2 dev2].
    by destruct (SetDiskLEDs lc _ dev2).
  - reflexivity.
  - intros lc dev Hperm Hok dev'.
    assert (Hdev' : dev' =
      snd (SetDiskLEDs lc
             {[ 1 := false; 2 := false; 3 := false;
                4 := false; 5 := false; 6 := false ]}
             (snd (SetLED lc USB false (snd (SetStatusLED lc false true dev)))))).
    { unfold dev', initializeSystem. cbn [led].
      destruct (SetStatusLED lc false true dev) as [e1 dev1]. cbn [snd].
      destruct (SetLED lc USB false dev1) as [e2 dev2]. cbn [snd].
      by destruct (SetDiskLEDs lc _ dev2). }
    rewrite Hdev'. clear Hdev' dev'.
    destruct (SetStatusLED_healthy lc false true dev Hperm Hok)
      as (Hok1 & Hred & Hgreen).
    set (dev1 := snd (SetStatusLED lc false true dev)) in *.
    destruct (SetLED_healthy lc USB false dev1 0xE1 7 Hperm Hok1 eq_refl)
      as (_ & Hok2 & Husb); [lia|].
    set (dev2 := snd (SetLED lc USB false dev1)) in *.
    destruct (SetDiskLEDs_healthy lc
                {[ 1 := false; 2 := false; 3 := false;
                   4 := false; 5 := false; 6 := false ]} dev2 Hperm Hok2)
      as (_ & _ & Hdisks).
    split; [|split; [|split]].
    + rewrite (SetDiskLEDs_other_lit _ _ _ StatusGreen 0x91 2) by done.
      unfold dev2. rewrite SetLED_other_lit by (vm_compute; congruence).
      exact Hgreen.
    + rewrite (SetDiskLEDs_other_lit _ _ _ StatusRed 0x91 3) by done.
      unfold dev2. rewrite SetLED_other_lit by (vm_compute; congruence).
      exact Hred.
    + rewrite (SetDiskLEDs_other_lit _ _ _ USB 0xE1 7) by done.
      unfold led_lit. change (led_place USB) with (Some (0xE1, 7)).
      cbv beta iota. by rewrite Husb.
    + intros n Hn. rewrite Hdisks by assumption.
      assert (Hcases : n = 1 \/ n = 2 \/ n = 3 \/ n = 4 \/ n = 5 \/ n = 6) by lia.
      destruct Hcases as [-> | [-> | [-> | [-> | [-> | ->]]]]]; reflexivity.
Qed.

Lemma X16_initializeSystem_panel_state_witness :
  let dev' := snd (initializeSystem (mkSC (Some (mkLC true))) quiet_dev) in
  portPerms (mkLC true) = true /\ healthy quiet_dev /\ 1 <= 5 <= 6
  /\ led_lit dev' StatusGreen = true /\ led_lit dev' (disk_led 5) = false.
Proof.
  intros dev'.
  assert (Hperm : portPerms (mkLC true) = true) by reflexivity.
  assert (Hok : healthy quiet_dev) by (intros k; reflexivity).
  assert (H5 : 1 <= 5 <= 6) by lia.
  destruct (proj2 (proj2 X16_initializeSystem_panel_state) (mkLC true) quiet_dev
              Hperm Hok) as (Hg & _ & _ & Hd).
  split; [exact Hperm|]. split; [exact Hok|]. split; [exact H5|].
  split; [exact Hg | exact (Hd 5 H5)].
Defined.

(** One [SetDiskActivity] on a healthy device: that disk as asked, the
    other disks as before. *)
Lemma SetDiskActivity_healthy lc n active dev :
  portPerms lc = true -> healthy dev -> 1 <= n <= 6 ->
  healthy (snd (SetDiskActivity (mkSC (Some lc)) n active dev))
  /\ led_lit (snd (SetDiskActivity (mkSC (Some lc)) n active dev)) (disk_led n)
     = active
  /\ forall m, 1 <= m <= 6 -> m <> n ->
       led_lit (snd (SetDiskActivity (mkSC (Some lc)) n active dev)) (disk_led m)
       = led_lit dev (disk_led m).
Proof.
  intros Hperm Hok Hn. rewrite SetDiskActivity_valid by assumption. cbn [snd].
  destruct (SetLED_healthy lc (disk_led n) active dev 0x81 (n - 1) Hperm Hok
              (disk_led_place n Hn)) as (_ & Hok' & Hbit); [lia|].
  split; [exact Hok'|]. split.
  - unfold led_lit. rewrite disk_led_place, Hbit by assumption.
    apply negb_involutive.
  - intros m Hm Hne. apply SetLED_other_lit.
    + rewrite !disk_led_eq by assumption. lia.
    + rewrite disk_led_place by assumption. discriminate.
Qed.

(** The loop from disk [i] on: the disks from [i] are lit up to
    [activeDisk], the disks before [i] are as they were. *)
Lemma flash_loop_healthy lc activeDisk (turns : nat) :
  forall i dev,
    portPerms lc = true -> healthy dev ->
    1 <= i -> Z.of_nat turns = 7 - i ->
    forall n, 1 <= n <= 6 ->
      led_lit (flash_loop turns (mkSC (Some lc)) i activeDisk dev) (disk_led n)
      = if i <=? n then n <=? activeDisk else led_lit dev (disk_led n).
Proof.
  induction turns as [|turns IH]; intros i dev Hperm Hok Hi Hturns n Hn.
  - cbn [flash_loop].
    replace (i <=? n) with false by (symmetry; apply Z.leb_gt; lia).
    reflexivity.
  - cbn [flash_loop].
    replace (i <=? 6) with true by (symmetry; apply Z.leb_le; lia).
    destruct (SetDiskActivity_healthy lc i (i <=? activeDisk) dev Hperm Hok)
      as (Hok1 & Hset & Hother); [lia|].
    destruct (SetDiskActivity (mkSC (Some lc)) i (i <=? activeDisk) dev)
      as [err dev1].
    cbn [snd] in Hok1, Hset, Hother.
    rewrite (IH (i + 1) dev1 Hperm Hok1) by lia.
    destruct (Z.leb_spec (i + 1) n) as [Hlt|Hge].
    + replace (i <=? n) with true by (symmetry; apply Z.leb_le; lia).
      reflexivity.
    + destruct (Z.leb_spec i n) as [Hle|Hgt].
      * assert (n = i) as -> by lia. exact Hset.
      * apply Hother; lia.
Qed.

(** X17: [ShowProgress] of the system controller. When the display
    write fails, the error is the wrapped display error and no LED is
    touched. With no display or one on a link that takes writes, an LED
    controller with permission, a healthy device and [flashDisks], it
    returns nil and leaves disk [n] lit exactly for [n] up to
    [percent / 17 + 1] (6 at most, the division rounding toward zero): so
    disk 1 is lit already at 0 percent and all six from 85 percent on.
    Without [flashDisks] no LED is touched. *)
Theorem X17_ShowProgress_disk_leds :
  (forall sc dc percent flashDisks dev p w ws e,
     Serial.port (Display.serialPort dc) = Some p ->
     Serial.writes p = w :: ws ->
     Serial.wr_err w = Some e ->
     let r := ShowProgress sc (Some dc) percent flashDisks dev in
     fst (fst r) = Some (ErrShowProgress (ErrSerialWrite (ErrMsg e)))
     /\ snd r = dev)
  /\
  (forall lc display percent dev,
     (display = None
      \/ exists dc, display = Some dc
                    /\ Display.takes_writes (Display.serialPort dc)) ->
     portPerms lc = true -> healthy dev ->
     let r := ShowProgress (mkSC (Some lc)) display percent true dev in
     fst (fst r) = None
     /\ (forall n, 1 <= n <= 6 ->
           led_lit (snd r) (disk_led n)
           = (n <=? Z.min 6 (Z.quot percent 17 + 1)))
     /\ (0 <= percent -> led_lit (snd r) (disk_led 1) = true)
     /\ (85 <= percent ->
         forall n, 1 <= n <= 6 -> led_lit (snd r) (disk_led n) = true))
  /\
  (forall sc percent dev,
     ShowProgress sc None percent false dev = (None, None, dev)).
Proof.
  split; [|split].
  - intros sc dc percent flashDisks dev p w ws e Hp Hw He. cbv zeta.
    unfold ShowProgress, Display.ShowProgress.
    destruct (WriteTextAt_write_fails (Display.progress_bar percent) 1 0 dc
                p w ws e (or_intror eq_refl) Hp Hw He) as (Herr & _).
    destruct (Display.WriteTextAt (Display.progress_bar percent) 1 0 dc)
      as [err dc'].
    cbn [fst] in Herr. subst err. split; reflexivity.
  - intros lc display percent dev Hdisplay Hperm Hok r.
    assert (Hr : fst (fst r) = None
                 /\ snd r = flash_loop 6 (mkSC (Some lc)) 1
                              (if 6 <? Z.quot percent 17 + 1 then 6
                               else Z.quot percent 17 + 1) dev).
    { unfold r, ShowProgress.
      destruct Hdisplay as [-> | (dc & -> & Htakes)]; [split; reflexivity|].
      unfold Display.ShowProgress.
      destruct (WriteTextAt_takes (Display.progress_bar percent) 1 0 dc Htakes)
        as (Hnil & _); [by right|].
      destruct (Display.WriteTextAt (Display.progress_bar percent) 1 0 dc)
        as [err dc'].
      cbn [fst] in Hnil. subst err. split; reflexivity. }
    destruct Hr as [Hnil Hdev].
    assert (Hlit : forall n, 1 <= n <= 6 ->
              led_lit (snd r) (disk_led n)
              = (n <=? Z.min 6 (Z.quot percent 17 + 1))).
    { intros n Hn. rewrite Hdev.
      rewrite (flash_loop_healthy lc _ 6 1 dev Hperm Hok) by (assumption || lia).
      replace (1 <=? n) with true by (symmetry; apply Z.leb_le; lia).
      f_equal. destruct (Z.ltb_spec 6 (Z.quot percent 17 + 1)); lia. }
    split; [exact Hnil|]. split; [exact Hlit|]. split.
    + intros Hp. rewrite Hlit by lia. apply Z.leb_le.
      pose proof (Z.quot_pos percent 17 Hp ltac:(lia)). lia.
    + intros Hp n Hn. rewrite Hlit by assumption. apply Z.leb_le.
      assert (5 <= Z.quot percent 17).
      { apply Z.quot_le_lower_bound; lia. }
      lia.
  - intros [[lc|]] percent dev; reflexivity.
Qed.

Lemma X17_ShowProgress_disk_leds_witness :
  let r := ShowProgress (mkSC (Some (mkLC true))) None 50 true quiet_dev in
  portPerms (mkLC true) = true /\ healthy quiet_dev
  /\ 1 <= 3 <= 6 /\ 1 <= 4 <= 6
  /\ led_lit (snd r) (disk_led 3) = true /\ led_lit (snd r) (disk_led 4) = false.
Proof.
  intros r.
  assert (Hperm : portPerms (mkLC true) = true) by reflexivity.
  assert (Hok : healthy quiet_dev) by (intros k; reflexivity).
  assert (H3 : 1 <= 3 <= 6) by lia.
  assert (H4 : 1 <= 4 <= 6) by lia.
  destruct (proj1 (proj2 X17_ShowProgress_disk_leds) (mkLC true) None 50 quiet_dev
              (or_introl eq_refl) Hperm Hok) as (_ & Hlit & _).
  split; [exact Hperm|]. split; [exact Hok|]. split; [exact H3|].
  split; [exact H4|]. split; [exact (Hlit 3 H3) | exact (Hlit 4 H4)].
Defined.

(** X18: [SetSystemStatus] returns nil whatever the display and the
    ports do. With an LED controller that has permission and a healthy
    device, exactly one status LED is lit afterwards: the red one for an
    error status, the green one otherwise. With no LED controller no port
    is touched. *)
Theorem X18_SetSystemStatus_status_led :
  (forall sc display status isError dev,
     fst (fst (SetSystemStatus sc display status isError dev)) = None)
  /\
  (forall lc display status isError dev,
     portPerms lc = true -> healthy dev ->
     let dev' := snd (SetSystemStatus (mkSC (Some lc)) display status isError dev) in
     led_lit dev' StatusRed = isError
     /\ led_lit dev' StatusGreen = negb isError)
  /\
  (forall display status isError dev,
     snd (SetSystemStatus (mkSC None) display status isError dev) = dev).
Proof.
  split; [|split].
  - reflexivity.
  - intros lc display status isError dev Hperm Hok dev'.
    unfold dev', SetSystemStatus. cbn [led snd].
    destruct isError; cbn [negb].
    + destruct (SetStatusLED_healthy lc true false dev Hperm Hok) as (_ & Hr & Hg).
      split; assumption.
    + destruct (SetStatusLED_healthy lc false true dev Hperm Hok) as (_ & Hr & Hg).
      split; assumption.
  - reflexivity.
Qed.

Lemma X18_SetSystemStatus_status_led_witness :
  let dev' := snd (SetSystemStatus (mkSC (Some (mkLC true))) None "Disk fail" true
                     quiet_dev) in
  portPerms (mkLC true) = true /\ healthy quiet_dev
  /\ led_lit dev' StatusRed = true /\ led_lit dev' StatusGreen = false.
Proof.
  intros dev'.
  assert (Hperm : portPerms (mkLC true) = true) by reflexivity.
  assert (Hok : healthy quiet_dev) by (intros k; reflexivity).
  destruct (proj1 (proj2 X18_SetSystemStatus_status_led) (mkLC true) None
              "Disk fail"%string true quiet_dev Hperm Hok) as [Hr Hg].
  split; [exact Hperm|]. split; [exact Hok|]. split; [exact Hr | exact Hg].
Defined.

End SystemEntryPoints.

(** ** The button monitor: edges, errors, closing *)

Section MonitorEdges.
Import Monitor.

(** The polling loop over a scripted port, one tick per outcome. *)
Lemma MonitorButtonPresses_loop_script (script : list (Z * option error)) :
  forall hasCallback lastPressed callbacks sl,
    snd (fst (MonitorButtonPresses_loop (length script) hasCallback lastPressed
                callbacks (mkMonitor script false sl)))
    = (callbacks
       + (if hasCallback then rising_edges lastPressed (samples_of script) else 0))%nat.
Proof.
  induction script as [|[value err] script IH];
    intros hasCallback lastPressed callbacks sl.
  - cbn. destruct hasCallback; lia.
  - cbn [length MonitorButtonPresses_loop]. unfold IsButtonPressed.
    cbn [closed ioPort ReadByte scripted_reader].
    unfold with_ioPort. cbn [closed ioPort sleeps].
    destruct err as [e|].
    + rewrite IH. reflexivity.
    + rewrite IH. cbn [samples_of flat_map app rising_edges].
      fold (samples_of script).
      destruct ((Z.land value 1 =? 0) && negb lastPressed), hasCallback; lia.
Qed.

Lemma rising_edges_held (n : nat) (last : bool) :
  rising_edges last (repeat true n)
  = match n with O => 0%nat | S _ => if last then 0%nat else 1%nat end.
Proof.
  destruct n as [|n]; [reflexivity|]. cbn [repeat rising_edges].
  assert (Hrest : rising_edges true (repeat true n) = 0%nat).
  { induction n as [|n IH]; [reflexivity|]. cbn [repeat rising_edges].
    rewrite IH. reflexivity. }
  rewrite Hrest. destruct last; reflexivity.
Qed.

Lemma samples_of_repeat (value : Z) (n : nat) :
  samples_of (repeat (value, None) n) = repeat (Z.land value 1 =? 0) n.
Proof.
  induction n as [|n IH]; [reflexivity|].
  cbn [repeat samples_of flat_map app]. fold (samples_of (repeat (value, None) n)).
  by rewrite IH.
Qed.

(** X19: [MonitorButtonPresses] starts one callback per press, not per
    tick. Over the outcomes of a port, one per tick, the callbacks started
    are the rising edges of the samples read, from released; a read that
    fails is skipped and does not end a press. So a button held down for
    any number of ticks starts exactly one callback, and with a nil
    callback none is started. *)
Theorem X19_one_callback_per_press :
  (forall script sl,
     fst (MonitorButtonPresses (length script) true (mkMonitor script false sl))
     = rising_edges false (samples_of script))
  /\
  (forall script sl,
     fst (MonitorButtonPresses (length script) false (mkMonitor script false sl))
     = 0%nat)
  /\
  (forall value n sl,
     Z.testbit value 0 = false -> (1 <= n)%nat ->
     fst (MonitorButtonPresses (length (repeat (value, None : option error) n)) true
            (mkMonitor (repeat (value, None) n) false sl))
     = 1%nat)
  /\
  (forall value e n k sl,
     Z.testbit value 0 = false ->
     fst (MonitorButtonPresses
            (length (repeat (value, None) (S n) ++ [(0, Some e)]
                     ++ repeat (value, None) k))
            true
            (mkMonitor (repeat (value, None) (S n) ++ [(0, Some e)]
                        ++ repeat (value, None) k) false sl))
     = 1%nat).
Proof.
  assert (Hrun : forall hasCallback script sl,
    fst (MonitorButtonPresses (length script) hasCallback (mkMonitor script false sl))
    = if hasCallback then rising_edges false (samples_of script) else 0%nat).
  { intros hasCallback script sl. unfold MonitorButtonPresses.
    pose proof (MonitorButtonPresses_loop_script script hasCallback false 0%nat sl)
      as Hloop.
    destruct (MonitorButtonPresses_loop _ _ _ _ _) as [[last callbacks] m'].
    cbn [fst snd] in *. rewrite Hloop. reflexivity. }
  split; [intros; apply (Hrun true)|].
  split; [intros; apply (Hrun false)|]. split.
  - intros value n sl Hbit Hn. rewrite (Hrun true), samples_of_repeat.
    rewrite land_1_bit0, Hbit. cbn [negb]. rewrite rising_edges_held.
    destruct n; [lia|reflexivity].
  - intros value e n k sl Hbit. rewrite (Hrun true).
    unfold samples_of. rewrite !flat_map_app.
    fold (samples_of (repeat (value, None) (S n))).
    fold (samples_of (repeat (value, None) k)).
    rewrite !samples_of_repeat, land_1_bit0, Hbit. cbn [negb flat_map app].
    rewrite <- repeat_app, rising_edges_held.
    reflexivity.
Qed.

Lemma X19_one_callback_per_press_witness :
  Z.testbit 0xFE 0 = false /\ (1 <= 5)%nat
  /\ fst (MonitorButtonPresses 5 true
            (mkMonitor (repeat (0xFE, None) 5) false []))
     = 1%nat.
Proof.
  assert (Hbit : Z.testbit 0xFE 0 = false) by reflexivity.
  assert (Hn : (1 <= 5)%nat) by lia.
  split; [exact Hbit|]. split; [exact Hn|].
  exact (proj1 (proj2 (proj2 X19_one_callback_per_press)) 0xFE 5%nat [] Hbit Hn).
Defined.

End MonitorEdges.

Section MonitorErrors.
Import Monitor.
Context {R : Type} `{IOPortReader R} `{IOPortCloser R}.

Lemma IsButtonPressed_read_error (m : USBCopyMonitor R) value e (r : R) :
  closed m = false ->
  ReadByte (ioPort m) = ((value, Some e), r) ->
  IsButtonPressed m = ((false, Some (ErrReadIOPort e)), with_ioPort r m).
Proof.
  intros Hopen Hread. unfold IsButtonPressed. by rewrite Hopen, Hread.
Qed.

(** A read that fails ends the sampling loop with the count so far. *)
Lemma sample_loop_error (turns : nat) (i pressedCount : Z)
    (m : USBCopyMonitor R) value e (r : R) :
  i < sampleCount ->
  closed m = false ->
  ReadByte (ioPort m) = ((value, Some e), r) ->
  sample_loop (S turns) i pressedCount m
  = ((pressedCount, Some (ErrReadIOPort e)), with_ioPort r m).
Proof.
  intros Hi Hopen Hread. cbn [sample_loop].
  replace (i <? sampleCount) with true by (symmetry; by apply Z.ltb_lt).
  by rewrite (IsButtonPressed_read_error m value e r Hopen Hread).
Qed.

(** X20: a read error at any of the three samples makes [GetButtonState]
    return that error, wrapped, with [false], and take no further sample;
    also when the two samples before it were pressed, so a majority does
    not outvote a failed read. On a closed monitor it fails with the
    closed error without reading the port or sleeping. *)
Theorem X20_GetButtonState_read_error (m : USBCopyMonitor R) :
  (closed m = true ->
   GetButtonState m = ((false, Some ErrMonitorClosed), m))
  /\
  (forall v1 e r1,
     closed m = false ->
     ReadByte (ioPort m) = ((v1, Some e), r1) ->
     GetButtonState m = ((false, Some (ErrReadIOPort e)), with_ioPort r1 m))
  /\
  (forall v1 v2 e r1 r2,
     closed m = false ->
     ReadByte (ioPort m) = ((v1, None), r1) ->
     ReadByte r1 = ((v2, Some e), r2) ->
     GetButtonState m
     = ((false, Some (ErrReadIOPort e)),
        {| ioPort := r2; closed := false; sleeps := sleeps m ++ [6666666] |}))
  /\
  (forall v1 v2 v3 e r1 r2 r3,
     closed m = false ->
     ReadByte (ioPort m) = ((v1, None), r1) ->
     ReadByte r1 = ((v2, None), r2) ->
     ReadByte r2 = ((v3, Some e), r3) ->
     GetButtonState m
     = ((false, Some (ErrReadIOPort e)),
        {| ioPort := r3; closed := false;
           sleeps := sleeps m ++ [6666666; 6666666] |})).
Proof.
  split; [|split; [|split]].
  - intros Hclosed. unfold GetButtonState.
    change (Z.to_nat sampleCount) with 3%nat. cbn [sample_loop].
    change (0 <? sampleCount) with true. cbv iota.
    unfold IsButtonPressed. rewrite Hclosed. reflexivity.
  - intros v1 e r1 Hopen H1. unfold GetButtonState.
    change (Z.to_nat sampleCount) with 3%nat.
    rewrite (sample_loop_error 2 0 0 m v1 e r1) by (done || reflexivity).
    reflexivity.
  - intros v1 v2 e r1 r2 Hopen H1 H2. unfold GetButtonState.
    change (Z.to_nat sampleCount) with 3%nat.
    rewrite (sample_loop_step 2 0 0 m v1 r1) by (done || reflexivity).
    change (0 <? sampleCount - 1) with true. cbv iota.
    rewrite (sample_loop_error 1 (0 + 1) _ _ v2 e r2)
      by (reflexivity || (cbn; assumption)).
    change (debounceTime / sampleCount) with 6666666.
    unfold sleep, with_ioPort. cbn [ioPort closed sleeps].
    by rewrite Hopen.
  - intros v1 v2 v3 e r1 r2 r3 Hopen H1 H2 H3. unfold GetButtonState.
    change (Z.to_nat sampleCount) with 3%nat.
    rewrite (sample_loop_step 2 0 0 m v1 r1) by (done || reflexivity).
    change (0 <? sampleCount - 1) with true. cbv iota.
    rewrite (sample_loop_step 1 (0 + 1) _ _ v2 r2)
      by (reflexivity || (cbn; assumption)).
    change (0 + 1 <? sampleCount - 1) with true. cbv iota.
    rewrite (sample_loop_error 0 (0 + 1 + 1) _ _ v3 e r3)
      by (reflexivity || (cbn; assumption)).
    change (debounceTime / sampleCount) with 6666666.
    unfold sleep, with_ioPort. cbn [ioPort closed sleeps].
    by rewrite Hopen, <- app_assoc.
Qed.

(** X21: [Close] of the monitor marks it closed and closes the port once,
    returning the port's verdict; the monitor is closed also when the port
    refuses. A second [Close] returns nil and touches nothing, and on the
    closed monitor the raw read fails with the closed error without
    reading the port. *)
Theorem X21_monitor_Close_once (m : USBCopyMonitor R) :
  closed m = false ->
  let r := Close m in
  fst r = fst (ClosePort (ioPort m))
  /\ closed (snd r) = true
  /\ ioPort (snd r) = snd (ClosePort (ioPort m))
  /\ Close (snd r) = (None, snd r)
  /\ IsButtonPressed (snd r) = ((false, Some ErrMonitorClosed), snd r).
Proof.
  intros Hopen. cbv zeta. unfold Close. rewrite Hopen.
  cbn [ioPort]. destruct (ClosePort (ioPort m)) as [err r'].
  cbn [fst snd with_ioPort closed ioPort]. unfold IsButtonPressed.
  cbn [closed]. auto.
Qed.

End MonitorErrors.

Lemma X20_GetButtonState_read_error_witness :
  let m := Monitor.mkMonitor
             [(0xFE, None); (0xFE, None); (0, Some (ErrDevPort 0xa05))] false [] in
  Monitor.closed m = false
  /\ fst (Monitor.GetButtonState m)
     = (false, Some (ErrReadIOPort (ErrDevPort 0xa05))).
Proof.
  intros m.
  assert (Hopen : Monitor.closed m = false) by reflexivity.
  assert (Hr1 : Monitor.ReadByte (Monitor.ioPort m)
                = ((0xFE, None), [(0xFE, None); (0, Some (ErrDevPort 0xa05))]))
    by reflexivity.
  assert (Hr2 : Monitor.ReadByte [(0xFE, None); (0, Some (ErrDevPort 0xa05))]
                = ((0xFE, None), [(0, Some (ErrDevPort 0xa05))]))
    by reflexivity.
  assert (Hr3 : Monitor.ReadByte [(0, Some (ErrDevPort 0xa05))]
                = ((0, Some (ErrDevPort 0xa05)), []))
    by reflexivity.
  split; [exact Hopen|].
  rewrite (proj2 (proj2 (proj2 (X20_GetButtonState_read_error m)))
             0xFE 0xFE 0 (ErrDevPort 0xa05) _ _ _ Hopen Hr1 Hr2 Hr3).
  reflexivity.
Defined.

Lemma X21_monitor_Close_once_witness :
  let m := Monitor.mkMonitor [(0xFE, None)] false [] in
  Monitor.closed m = false
  /\ Monitor.closed (snd (Monitor.Close m)) = true
  /\ Monitor.IsButtonPressed (snd (Monitor.Close m))
     = ((false, Some ErrMonitorClosed), snd (Monitor.Close m)).
Proof.
  intros m.
  assert (Hopen : Monitor.closed m = false) by reflexivity.
  destruct (X21_monitor_Close_once m Hopen) as (_ & Hc & _ & _ & Hp).
  split; [exact Hopen|]. split; [exact Hc | exact Hp].
Defined.

(** ** The hardware port *)

Section HardwarePort.
Import Hardware.



(** X23: a monitor on an acquired port whose /dev/port cannot be read
    sees the button released and reports no error: while the reads fail,
    the raw read and the debounced read return [false] with nil, and the
    polling loop starts no callback. *)
Theorem X23_unreadable_port_is_released (io : IOPortAccess) (sl : list Z)
    (rest : list (option Z)) :
  acquired io = true ->
  devport io = None :: None :: None :: rest ->
  let m := Monitor.mkMonitor io false sl in
  fst (Monitor.IsButtonPressed m) = (false, None)
  /\ fst (Monitor.GetButtonState m) = (false, None)
  /\ devport (Monitor.ioPort (snd (Monitor.GetButtonState m))) = rest
  /\ fst (Monitor.MonitorButtonPresses 3 true m) = 0%nat.
Proof.
  intros Hacq Hdev m.
  set (io1 := {| port := port io; acquired := true;
                 devport := None :: None :: rest;
                 release_fails := release_fails io |}).
  set (io2 := {| port := port io; acquired := true;
                 devport := None :: rest;
                 release_fails := release_fails io |}).
  set (io3 := {| port := port io; acquired := true;
                 devport := rest;
                 release_fails := release_fails io |}).
  assert (H1 : Monitor.ReadByte (Monitor.ioPort m) = ((0xFF, None), io1)).
  { unfold m. cbn [Monitor.ioPort].
    change (Monitor.ReadByte io) with (ReadByte io).
    unfold ReadByte, inb, inbFallback. rewrite Hacq, Hdev. reflexivity. }
  assert (H2 : Monitor.ReadByte io1 = ((0xFF, None), io2)) by reflexivity.
  assert (H3 : Monitor.ReadByte io2 = ((0xFF, None), io3)) by reflexivity.
  assert (Hopen : Monitor.closed m = false) by reflexivity.
  split; [|split; [|split]].
  - rewrite (IsButtonPressed_ok m 0xFF io1 Hopen H1). reflexivity.
  - unfold Monitor.GetButtonState.
    change (Z.to_nat Monitor.sampleCount) with 3%nat.
    rewrite (sample_loop_step 2 0 0 m 0xFF io1) by (done || reflexivity).
    rewrite (sample_loop_step 1 (0 + 1) _ _ 0xFF io2) by reflexivity.
    rewrite (sample_loop_step 0 (0 + 1 + 1) _ _ 0xFF io3) by reflexivity.
    reflexivity.
  - unfold Monitor.GetButtonState.
    change (Z.to_nat Monitor.sampleCount) with 3%nat.
    rewrite (sample_loop_step 2 0 0 m 0xFF io1) by (done || reflexivity).
    rewrite (sample_loop_step 1 (0 + 1) _ _ 0xFF io2) by reflexivity.
    rewrite (sample_loop_step 0 (0 + 1 + 1) _ _ 0xFF io3) by reflexivity.
    reflexivity.
  - unfold Monitor.MonitorButtonPresses.
    cbn [Monitor.MonitorButtonPresses_loop].
    rewrite (IsButtonPressed_ok m 0xFF io1 Hopen H1).
    rewrite (IsButtonPressed_ok (Monitor.with_ioPort io1 m) 0xFF io2 Hopen H2).
    rewrite (IsButtonPressed_ok
               (Monitor.with_ioPort io2 (Monitor.with_ioPort io1 m)) 0xFF io3 Hopen H3).
    reflexivity.
Qed.

Lemma X23_unreadable_port_is_released_witness :
  let io := mkIOPort 0xa05 true [None; None; None; Some 0xFE] false in
  acquired io = true
  /\ fst (Monitor.GetButtonState (Monitor.mkMonitor io false [])) = (false, None).
Proof.
  intros io.
  assert (Hacq : acquired io = true) by reflexivity.
  split; [exact Hacq|].
  exact (proj1 (proj2 (X23_unreadable_port_is_released io [] [Some 0xFE]
                         Hacq eq_refl))).
Defined.

End HardwarePort.

(** ** Reassembly over any chunking *)

Section Reassembly.
Import Display.

(** Every prefix of a stream of button frames is some whole frames and
    fewer than 4 bytes of the next. *)
Lemma frames_prefix (states : list Z) :
  forall j, exists done partial,
    firstn j (flat_map button_frame states)
    = flat_map button_frame done ++ partial
    /\ (length partial < 4)%nat.
Proof.
  induction states as [|s states IH]; intros j.
  - exists [], []. rewrite firstn_nil. split; [reflexivity|simpl; lia].
  - destruct (Nat.lt_ge_cases j 4) as [Hlt|Hge].
    + exists [], (firstn j (flat_map button_frame (s :: states))).
      split; [reflexivity|]. rewrite length_firstn. lia.
    + destruct (IH (j - 4)%nat) as (done & partial & Heq & Hlen).
      exists (s :: done), partial. split; [|exact Hlen].
      cbn [flat_map]. rewrite firstn_app.
      change (length (button_frame s)) with 4%nat.
      rewrite firstn_all2 by (simpl; lia).
      rewrite Heq. by rewrite <- app_assoc.
Qed.

(** Extraction in two steps, the second with more data appended, is
    extraction of all the data at once, when the first part is made of
    whole frames and fewer than 4 bytes more. *)
Lemma receive_after_frames (done : list Z) (partial data : list Z) dc :
  (length partial < 4)%nat ->
  receive (processMessageBuffer (flat_map button_frame done ++ partial) dc) data
  = processMessageBuffer ((flat_map button_frame done ++ partial) ++ data) dc.
Proof.
  intros Hlen. unfold receive.
  destruct data as [|b data]; cbn [length Nat.eqb].
  - by rewrite app_nil_r.
  - rewrite <- app_assoc, !processMessageBuffer_frames.
    by rewrite (processMessageBuffer_short partial) by assumption.
Qed.

Lemma receive_chunks (stream : list Z) (states : list Z) :
  stream = flat_map button_frame states ->
  forall chunks received dc,
    received ++ concat chunks = stream ->
    fold_left receive chunks (processMessageBuffer received dc)
    = processMessageBuffer stream dc.
Proof.
  intros Hstream chunks.
  induction chunks as [|chunk chunks IH]; intros received dc Hall.
  - cbn [concat] in Hall. rewrite app_nil_r in Hall. by subst.
  - cbn [fold_left concat] in *.
    assert (Hprefix : received = firstn (length received) stream).
    { rewrite <- Hall. rewrite firstn_app, Nat.sub_diag, firstn_O, app_nil_r.
      by rewrite firstn_all. }
    destruct (frames_prefix states (length received))
      as (done & partial & Heq & Hlen).
    rewrite <- Hstream, <- Hprefix in Heq.
    rewrite Heq at 1. rewrite receive_after_frames by assumption.
    rewrite <- Heq. apply IH. by rewrite <- app_assoc.
Qed.

(** X24: however the serial reads cut a stream of button frames into
    chunks, the loop body (an empty read is skipped; otherwise the chunk
    is appended to the buffer and the extraction runs) decodes the same
    frames, in the same order, with the same events and recorded states,
    as one extraction of the whole stream; the buffer ends empty. *)
Theorem X24_reassembly_for_any_chunking (states : list Z)
    (chunks : list (list Z)) (dc : DisplayController) :
  concat chunks = flat_map button_frame states ->
  let r := fold_left receive chunks ([], dc) in
  r = processMessageBuffer (flat_map button_frame states) dc
  /\ fst r = []
  /\ parsed (effects (snd r)) = parsed (effects dc) ++ states.
Proof.
  intros Hchunks. cbv zeta.
  assert (Hrun : fold_left receive chunks ([], dc)
                 = processMessageBuffer (flat_map button_frame states) dc).
  { change ([], dc) with (processMessageBuffer [] dc).
    apply (receive_chunks _ states eq_refl). exact Hchunks. }
  rewrite Hrun. split; [reflexivity|].
  pose proof (processMessageBuffer_frames states [] dc) as Hframes.
  rewrite app_nil_r in Hframes. rewrite Hframes. cbn [processMessageBuffer fst snd].
  split; [reflexivity|]. apply fold_parse_parsed.
Qed.

Lemma X24_reassembly_for_any_chunking_witness :
  let chunks := [[0x53]; []; [0x05; 0x00; 0xFE; 0x53; 0x05]; [0x00; 0xFF]] in
  concat chunks = flat_map button_frame [0xFE; 0xFF]
  /\ fst (fold_left receive chunks ([], fresh idle_link)) = []
  /\ parsed (effects (snd (fold_left receive chunks ([], fresh idle_link))))
     = [0xFE; 0xFF].
Proof.
  intros chunks.
  assert (Hchunks : concat chunks = flat_map button_frame [0xFE; 0xFF])
    by reflexivity.
  destruct (X24_reassembly_for_any_chunking [0xFE; 0xFF] chunks (fresh idle_link)
              Hchunks) as (_ & Hb & Hp).
  split; [exact Hchunks|]. split; [exact Hb | exact Hp].
Defined.

Lemma X4_events_are_the_changed_bits_witness :
  Z.land 0xFF 7 = Z.land 0x0F 7
  /\ edge_events 0xFF 0x0F = []
  /\ edge_events 0xFF 0xFA = [(ButtonEnter, true); (ButtonUSBCopy, false)].
Proof.
  assert (Hlow : Z.land 0xFF 7 = Z.land 0x0F 7) by reflexivity.
  split; [exact Hlow|]. split.
  - exact (proj2 (proj2 (X4_events_are_the_changed_bits 0xFF 0x0F (fresh idle_link)))
             Hlow).
  - reflexivity.
Defined.

Lemma X6_progress_bar_shape_witness :
  (-5 <= 0) /\ (100 <= 250)
  /\ Z.to_nat (Z.quot (clamp_percent (-5) * barWidth) 100) = 0%nat
  /\ Z.to_nat (Z.quot (clamp_percent 250 * barWidth) 100) = 14%nat
  /\ bytes_of_string (progress_bar 50)
     = [0x5B] ++ repeat 0x3D 7 ++ repeat 0x20 7 ++ [0x5D].
Proof.
  assert (Hlow : -5 <= 0) by lia.
  assert (Hhigh : 100 <= 250) by lia.
  split; [exact Hlow|]. split; [exact Hhigh|]. split; [|split].
  - exact (proj1 (proj2 (proj2 (proj2 (X6_progress_bar_shape (-5))))) Hlow).
  - exact (proj2 (proj2 (proj2 (proj2 (X6_progress_bar_shape 250)))) Hhigh).
  - exact (proj1 (proj2 (X6_progress_bar_shape 50))).
Defined.

End Reassembly.
